(** * zustand-kit: the keyed global-state registry

    A shallow embedding of [src/index.tsx] (the registry, the per-key store
    with its merge / replace / functional update, the non-React accessors and
    the selector hooks) together with the properties of its specification.

    What is embedded and what is taken at its interface:
    - the module-level [globalStates] map, the closure variables
      [initialState] and [isObject] of every store, [setValue], [reset] and
      the exported functions are translated from the source;
    - zustand ([create], [set], [subscribe], [persist], [shallow],
      [useShallow]) and React ([useMemo], [useRef], [useSyncExternalStore],
      [isValidElement]) are libraries the source imports; they appear
      through the behaviour the source relies on, and every such definition
      says so;
    - a JavaScript function value is a reference [fn] whose body is given by
      the host ([call]); bodies are total and do not re-enter the registry;
      a call received by a subscription callback is recorded, not run.

    The later revisions of the module (part_002, pack.js) have the same
    [stateCreator] and the same accessors; they add a devtools mirror, which
    is not part of this development, and the selector hook with automatic
    comparison, which is embedded in [Part002]. *)

From Stdlib Require Import ZArith Ascii String Floats.SpecFloat.
From stdpp Require Import gmap strings list fin_maps pretty.

Local Open Scope string_scope.
Local Open Scope list_scope.

(** ** JavaScript values, references and the heap of objects *)

Module JS.

Abbreviation loc := positive (only parsing).
Abbreviation fn := nat (only parsing).

(** A runtime value.  Numbers are IEEE-754 doubles in the canonical form of
    [SpecFloat] (one NaN, two signed zeros); objects, arrays and functions
    are references, so that identity is identity of references. *)
Inductive JSValue : Type :=
  | JSUndefined
  | JSNull
  | JSBoolean (b : bool)
  | JSNumber (x : spec_float)
  | JSString (s : string)
  | JSSymbol (description : string)
  | JSObject (l : loc)
  | JSArray (l : loc)
  | JSFunction (f : fn).

#[global] Instance spec_float_eq_dec : EqDecision spec_float.
Proof. solve_decision. Defined.

#[global] Instance JSValue_eq_dec : EqDecision JSValue.
Proof. solve_decision. Defined.

#[global] Instance JSValue_inhabited : Inhabited JSValue := populate JSUndefined.

(** The own enumerable properties of an object; an array keeps its
    elements under the keys "0", "1", ... *)
Abbreviation Props := (gmap string JSValue) (only parsing).
Abbreviation Heap := (gmap positive (gmap string JSValue)) (only parsing).

(** The double nearest to an integer (exact for the small literals used
    in the scenarios). *)
Definition num (z : Z) : JSValue := JSNumber (binary_normalize 53 1024 z 0 false).
Definition NaN : JSValue := JSNumber S754_nan.
Definition pos_zero : JSValue := JSNumber (S754_zero false).
Definition neg_zero : JSValue := JSNumber (S754_zero true).

(** [typeof v] *)
Definition typeof (v : JSValue) : string :=
  match v with
  | JSUndefined => "undefined"
  | JSNull => "object"
  | JSBoolean _ => "boolean"
  | JSNumber _ => "number"
  | JSString _ => "string"
  | JSSymbol _ => "symbol"
  | JSObject _ | JSArray _ => "object"
  | JSFunction _ => "function"
  end.

(** [Array.isArray(v)] *)
Definition Array_isArray (v : JSValue) : bool :=
  match v with JSArray _ => true | _ => false end.

(** [Object.is(a, b)]: SameValue.  NaN is the same value as NaN, +0 and -0
    are different values, references are compared by identity. *)
Definition Object_is (a b : JSValue) : bool :=
  match a, b with
  | JSUndefined, JSUndefined => true
  | JSNull, JSNull => true
  | JSBoolean x, JSBoolean y => bool_decide (x = y)
  | JSNumber x, JSNumber y => bool_decide (x = y)
  | JSString x, JSString y => bool_decide (x = y)
  | JSSymbol x, JSSymbol y => bool_decide (x = y)
  | JSObject x, JSObject y => bool_decide (x = y)
  | JSArray x, JSArray y => bool_decide (x = y)
  | JSFunction x, JSFunction y => bool_decide (x = y)
  | _, _ => false
  end.

(** [a === b]: IsStrictlyEqual.  It differs from SameValue on numbers
    only: NaN is not equal to itself and the two zeros are equal. *)
Definition strict_equal (a b : JSValue) : bool :=
  match a, b with
  | JSNumber x, JSNumber y => SFeqb x y
  | _, _ => Object_is a b
  end.

(** The properties a string yields when it is spread: one per character,
    under its index. *)
Fixpoint string_props (i : nat) (s : string) : Props :=
  match s with
  | EmptyString => ∅
  | String c rest => <[pretty i := JSString (String c EmptyString)]> (string_props (S i) rest)
  end.

(** The properties copied by [...v] inside an object literal
    (CopyDataProperties): those of an object or array, the characters of a
    string, nothing for the other primitives, [null] and [undefined]. *)
Definition spread_props (h : Heap) (v : JSValue) : Props :=
  match v with
  | JSObject l | JSArray l => default ∅ (h !! l)
  | JSString s => string_props 0 s
  | _ => ∅
  end.

(** [{ ...a, ...b }]: a new object that receives the properties of [a] and
    then those of [b], the later assignment winning. *)
Definition spread2 (h : Heap) (a b : JSValue) : Heap * JSValue :=
  let l := fresh (dom h) in
  (<[l := spread_props h b ∪ spread_props h a]> h, JSObject l).

(** An object literal with the given properties. *)
Definition alloc (h : Heap) (ps : Props) : Heap * JSValue :=
  let l := fresh (dom h) in (<[l := ps]> h, JSObject l).

End JS.

Import JS.

(** ** The host: function bodies and the persistence media *)

(** [StorageType] of the source. *)
Inductive StorageType := localStorage | sessionStorage | none.

#[global] Instance StorageType_eq_dec : EqDecision StorageType.
Proof. solve_decision. Defined.

(** [UseGlobalStateOptions]: both fields are optional. *)
Record UseGlobalStateOptions := {
  storage : option StorageType;
  storageKey : option string;
}.

(** What the registry receives from its environment.
    - [call f h x] runs the body of the function [f] on the argument [x] in
      the heap [h] and gives the heap it leaves and its result;
    - [Storage] is the content of a Web Storage object; zustand's [persist]
      middleware reads it when a persisted store is created
      ([persist_rehydrate]: the value the new store holds afterwards) and
      writes it after every [set] ([persist_setItem]).  Both belong to
      zustand and to the browser and are taken as given;
    - [React_isValidElement h v] is React's [isValidElement(v)]. *)
Class Host := {
  call : fn -> Heap -> JSValue -> Heap * JSValue;
  Storage : Type;
  persist_rehydrate : Storage -> string -> Heap -> JSValue -> Storage * Heap * JSValue;
  persist_setItem : Storage -> string -> Heap -> JSValue -> Storage;
  React_isValidElement : Heap -> JSValue -> bool;
}.

(** ** Stores and the registry *)

(** The two generations of [subscribeGlobalState] kept in [src/index.tsx]
    register listeners with different bodies: the current one tests
    [!Object.is(newValue, prevValue)] (line 303), the one of
    [src/hooks/useGlobalState.tsx] tests [newValue !== prevValue]
    (line 584). *)
Inductive ListenerCode := ObjectIsListener | StrictInequalityListener.

(** A listener registered by [subscribeGlobalState]: its body, the
    [callback] it closes over and its closure variable [prevValue]. *)
Record Listener := {
  lid : nat;
  code : ListenerCode;
  callback : fn;
  prevValue : JSValue;
}.

(** A zustand store created by [useGlobalState]: the [value] field of its
    state, the closure variables [initialState] and [isObject] of
    [stateCreator], the [persist] options when the store is persisted
    (name and medium), the listeners subscribed from outside React, in the
    order of subscription, and the number of subscriptions made so far,
    which gives every listener an identity of its own. *)
Record Store := {
  value : JSValue;
  initialState : JSValue;
  isObject : bool;
  persistence : option (string * StorageType);
  listeners : list Listener;
  subscriptions : nat;
}.

(** One call [callback(newValue, prevValue)] made by a listener. *)
Record CallbackCall := {
  callee : fn;
  newValueArg : JSValue;
  prevValueArg : JSValue;
}.

#[global] Instance CallbackCall_eq_dec : EqDecision CallbackCall.
Proof. solve_decision. Defined.

(** How a call of an exported function ends: with a result, or with
    [throw new Error(message)]. *)
Inductive Completion (A : Type) : Type :=
  | Return (a : A)
  | Throw (message : string).

Arguments Return {A} a.
Arguments Throw {A} message.

(** The double-quote character (code 34). *)
Definition dquote : string := String "034"%char EmptyString.

(** The message of line 191: Global state with key, the key between
    double quotes, not found. Initialize it with useGlobalState first. *)
Definition notFoundMessage (key : string) : string :=
  "Global state with key " +:+ dquote +:+ key +:+ dquote
    +:+ " not found. Initialize it with useGlobalState first.".

Section Registry.
Context `{host : Host}.

(** The state of the module and of what it touches: the [globalStates] map
    (key to store reference), the store objects, the heap of plain
    objects, [process.env.NODE_ENV], the messages passed to [console.warn],
    the two storage media and the calls received by subscription
    callbacks, oldest first. *)
Record World := {
  globalStates : gmap string nat;
  stores : gmap nat Store;
  heap : Heap;
  NODE_ENV : string;
  console_warn : list string;
  localStorage_medium : Storage;
  sessionStorage_medium : Storage;
  callback_calls : list CallbackCall;
}.

Definition set_globalStates (g : gmap string nat) (w : World) : World :=
  {| globalStates := g; stores := stores w; heap := heap w; NODE_ENV := NODE_ENV w;
     console_warn := console_warn w; localStorage_medium := localStorage_medium w;
     sessionStorage_medium := sessionStorage_medium w; callback_calls := callback_calls w |}.

Definition set_stores (ss : gmap nat Store) (w : World) : World :=
  {| globalStates := globalStates w; stores := ss; heap := heap w; NODE_ENV := NODE_ENV w;
     console_warn := console_warn w; localStorage_medium := localStorage_medium w;
     sessionStorage_medium := sessionStorage_medium w; callback_calls := callback_calls w |}.

Definition set_heap (h : Heap) (w : World) : World :=
  {| globalStates := globalStates w; stores := stores w; heap := h; NODE_ENV := NODE_ENV w;
     console_warn := console_warn w; localStorage_medium := localStorage_medium w;
     sessionStorage_medium := sessionStorage_medium w; callback_calls := callback_calls w |}.

Definition add_console_warn (msg : string) (w : World) : World :=
  {| globalStates := globalStates w; stores := stores w; heap := heap w; NODE_ENV := NODE_ENV w;
     console_warn := console_warn w ++ [msg]; localStorage_medium := localStorage_medium w;
     sessionStorage_medium := sessionStorage_medium w; callback_calls := callback_calls w |}.

Definition add_callback_calls (cs : list CallbackCall) (w : World) : World :=
  {| globalStates := globalStates w; stores := stores w; heap := heap w; NODE_ENV := NODE_ENV w;
     console_warn := console_warn w; localStorage_medium := localStorage_medium w;
     sessionStorage_medium := sessionStorage_medium w; callback_calls := callback_calls w ++ cs |}.

(** [storage === 'localStorage' ? localStorage : sessionStorage] *)
Definition storageImpl (m : StorageType) (w : World) : Storage :=
  match m with
  | localStorage => localStorage_medium w
  | _ => sessionStorage_medium w
  end.

Definition set_storageImpl (m : StorageType) (c : Storage) (w : World) : World :=
  {| globalStates := globalStates w; stores := stores w; heap := heap w; NODE_ENV := NODE_ENV w;
     console_warn := console_warn w;
     localStorage_medium := match m with localStorage => c | _ => localStorage_medium w end;
     sessionStorage_medium := match m with localStorage => sessionStorage_medium w | _ => c end;
     callback_calls := callback_calls w |}.

(** *** zustand's store: [set] and the notification of listeners *)

(** The test in the body of a [subscribeGlobalState] listener. *)
Definition value_changed (c : ListenerCode) (newValue prevValue : JSValue) : bool :=
  match c with
  | ObjectIsListener => negb (Object_is newValue prevValue)
  | StrictInequalityListener => negb (strict_equal newValue prevValue)
  end.

(** The body of a [subscribeGlobalState] listener, called by the store
    with the new state: [newValue = state.value]; when the test holds,
    [callback(newValue, prevValue)] and then [prevValue = newValue]. *)
Definition run_listener (newValue : JSValue) (l : Listener) : Listener * list CallbackCall :=
  if value_changed (code l) newValue (prevValue l)
  then ({| lid := lid l; code := code l; callback := callback l; prevValue := newValue |},
        [ {| callee := callback l; newValueArg := newValue; prevValueArg := prevValue l |} ])
  else (l, []).

(** zustand: [listeners.forEach((listener) => listener(state, previousState))],
    in the order of subscription. *)
Fixpoint notify (newValue : JSValue) (ls : list Listener) : list Listener * list CallbackCall :=
  match ls with
  | [] => ([], [])
  | l :: rest =>
      let '(l', c) := run_listener newValue l in
      let '(rest', cs) := notify newValue rest in
      (l' :: rest', c ++ cs)
  end.

(** zustand's [set] as [stateCreator] receives it, applied to the partial
    state [{ value: newValue }]: the partial state is a new object, so the
    state is always replaced by its merge with the old one (only [value]
    changes) and every listener is called; the [persist] middleware, when
    present, then writes the medium. *)
Definition set_value (s : nat) (newValue : JSValue) (w : World) : World :=
  match stores w !! s with
  | None => w
  | Some st =>
      let '(ls, calls) := notify newValue (listeners st) in
      let st' := {| value := newValue; initialState := initialState st;
                    isObject := isObject st; persistence := persistence st;
                    listeners := ls; subscriptions := subscriptions st |} in
      let w1 := add_callback_calls calls (set_stores (<[s := st']> (stores w)) w) in
      match persistence st with
      | None => w1
      | Some (name, m) =>
          set_storageImpl m (persist_setItem (storageImpl m w1) name (heap w1) newValue) w1
      end
  end.

(** *** [stateCreator]: the two actions of a store (index.tsx 105-120) *)

(** [store.getState().setValue(v)]. *)
Definition setValue (s : nat) (v : JSValue) (w : World) : World :=
  match stores w !! s with
  | None => w
  | Some st =>
      match v with
      | JSFunction f =>
          (* typeof value === 'function': functional update *)
          let '(h, newValue) := call f (heap w) (value st) in
          set_value s newValue (set_heap h w)
      | _ =>
          if isObject st && bool_decide (typeof v = "object") && negb (strict_equal v JSNull)
          then
            (* partial update for objects: { ...state.value, ...value } *)
            let '(h, newValue) := spread2 (heap w) (value st) v in
            set_value s newValue (set_heap h w)
          else
            (* direct value update *)
            set_value s v w
      end
  end.

(** [store.getState().reset()]: [set({ value: initialState })]. *)
Definition reset (s : nat) (w : World) : World :=
  match stores w !! s with
  | None => w
  | Some st => set_value s (initialState st) w
  end.

(** [store.getState().value]; a reference held by the registry always
    denotes a store. *)
Definition store_value (s : nat) (w : World) : JSValue :=
  default JSUndefined (value <$> stores w !! s).

(** *** The exported functions (index.tsx 19-327) *)

Definition __clearAllStates__ (w : World) : World :=
  set_globalStates ∅ w.

(** [useGlobalState(key, initialState, options)].  The result
    [[value, setValue, reset]] is given as the value and the store that both
    closures capture: calling them is [setValue s] and [reset s].  The
    subscription of the calling component is React's. *)
Definition useGlobalState (key : string) (initial : JSValue)
    (options : option UseGlobalStateOptions) (w : World) : World * (JSValue * nat) :=
  let storage_ := default none (options ≫= storage) in
  let storageKey_ := default "global-state" (options ≫= storageKey) in
  let '(w1, store) :=
    match globalStates w !! key with
    | Some s => (w, s)
    | None =>
        (* !globalStates.has(key) *)
        let isObject_ :=
          bool_decide (typeof initial = "object") && negb (strict_equal initial JSNull)
            && negb (Array_isArray initial) in
        let s := fresh (dom (stores w)) in
        let w' :=
          if bool_decide (storage_ ≠ none) then
            let name := storageKey_ +:+ "-" +:+ key in
            let '(c, h, v) := persist_rehydrate (storageImpl storage_ w) name (heap w) initial in
            let st := {| value := v; initialState := initial; isObject := isObject_;
                         persistence := Some (name, storage_); listeners := [];
                         subscriptions := 0 |} in
            set_storageImpl storage_ c (set_heap h (set_stores (<[s := st]> (stores w)) w))
          else
            let st := {| value := initial; initialState := initial; isObject := isObject_;
                         persistence := None; listeners := []; subscriptions := 0 |} in
            set_stores (<[s := st]> (stores w)) w in
        (set_globalStates (<[key := s]> (globalStates w')) w', s)
    end in
  (w1, (store_value store w1, store)).

(** [useGlobalSelector(key, selector, equalityFn = Object.is)]; [None] is
    the default [Object.is].  Both branches give React the snapshot
    [selector(store.getState().value)], which is what the call returns. *)
Definition useGlobalSelector (key : string) (selector : fn) (equalityFn : option fn)
    (w : World) : World * Completion JSValue :=
  match globalStates w !! key with
  | None => (w, Throw (notFoundMessage key))
  | Some s =>
      match equalityFn with
      | None =>
          let '(h, r) := call selector (heap w) (store_value s w) in
          (set_heap h w, Return r)
      | Some _ =>
          let '(h, r) := call selector (heap w) (store_value s w) in
          (set_heap h w, Return r)
      end
  end.

(** [useGlobalSetter(key)]: the setter is a closure over the store. *)
Definition useGlobalSetter (key : string) (w : World) : World * Completion nat :=
  match globalStates w !! key with
  | None => (w, Throw (notFoundMessage key))
  | Some s => (w, Return s)
  end.

(** [getGlobalState(key)]: [store?.getState().value]. *)
Definition getGlobalState (key : string) (w : World) : JSValue :=
  match globalStates w !! key with
  | None => JSUndefined
  | Some s => store_value s w
  end.

Definition setGlobalState (key : string) (v : JSValue) (w : World) : World :=
  match globalStates w !! key with
  | None =>
      if bool_decide (NODE_ENV w ≠ "production")
      then add_console_warn (notFoundMessage key) w
      else w
  | Some s => setValue s v w
  end.

(** What [subscribeGlobalState] returns: the empty function ([None]) or
    zustand's unsubscribe for one listener of one store. *)
Definition Unsubscribe : Type := option (nat * nat).

(** zustand's [store.subscribe(listener)]: the listener joins the set of
    listeners and is called after those already there. *)
Definition subscribe (s : nat) (c : ListenerCode) (cb : fn) (prev : JSValue)
    (w : World) : World * Unsubscribe :=
  match stores w !! s with
  | None => (w, None)
  | Some st =>
      let id := subscriptions st in
      let l := {| lid := id; code := c; callback := cb; prevValue := prev |} in
      let st' := {| value := value st; initialState := initialState st;
                    isObject := isObject st; persistence := persistence st;
                    listeners := listeners st ++ [l]; subscriptions := S id |} in
      (set_stores (<[s := st']> (stores w)) w, Some (s, id))
  end.

(** Calling the function returned by [subscribeGlobalState]: zustand
    deletes that listener from the set, which does nothing when it is no
    longer there. *)
Definition unsubscribe (u : Unsubscribe) (w : World) : World :=
  match u with
  | None => w
  | Some (s, id) =>
      match stores w !! s with
      | None => w
      | Some st =>
          let st' := {| value := value st; initialState := initialState st;
                        isObject := isObject st; persistence := persistence st;
                        listeners := filter (λ l, lid l ≠ id) (listeners st);
                        subscriptions := subscriptions st |} in
          set_stores (<[s := st']> (stores w)) w
      end
  end.

(** [subscribeGlobalState(key, callback)] of index.tsx 281-308. *)
Definition subscribeGlobalState (key : string) (cb : fn) (w : World) : World * Unsubscribe :=
  match globalStates w !! key with
  | None =>
      ((if bool_decide (NODE_ENV w ≠ "production")
        then add_console_warn (notFoundMessage key) w
        else w), None)
  | Some s =>
      let prevValue_ := store_value s w in
      subscribe s ObjectIsListener cb prevValue_ w
  end.

Definition resetGlobalState (key : string) (w : World) : World :=
  match globalStates w !! key with
  | None =>
      if bool_decide (NODE_ENV w ≠ "production")
      then add_console_warn (notFoundMessage key) w
      else w
  | Some s => reset s w
  end.

End Registry.

(** ** The older module kept in the same file (index.tsx 331-610)

    [src/hooks/useGlobalState.tsx] has the same [stateCreator], the same
    registry and the same accessors; its [subscribeGlobalState] differs in
    the test of the listener. *)

Module HooksUseGlobalState.
Section Older.
Context `{host : Host}.

(** [subscribeGlobalState(key, callback)] of index.tsx 566-589: the
    listener tests [newValue !== prevValue]. *)
Definition subscribeGlobalState (key : string) (cb : fn) (w : World)
    : World * Unsubscribe :=
  match globalStates w !! key with
  | None =>
      ((if bool_decide (NODE_ENV w ≠ "production")
        then add_console_warn (notFoundMessage key) w
        else w), None)
  | Some s =>
      let prevValue_ := store_value s w in
      subscribe s StrictInequalityListener cb prevValue_ w
  end.

End Older.
End HooksUseGlobalState.

(** ** The selector hook with automatic comparison (part_002, 232-278) *)

Module Part002.

(** [equalityMode?: 'shallow'] *)
Inductive EqualityMode := Shallow.

(** What React keeps for one call site of the hook between renders:
    [selectorRef.current] (nothing before the first render) and the
    [prev.current] of [useShallow] ([undefined] until it is first set). *)
Record SelectorHook := {
  selectorRef : option fn;
  useShallow_prev : JSValue;
}.

Definition first_render : SelectorHook :=
  {| selectorRef := None; useShallow_prev := JSUndefined |}.

(** Key-by-key comparison of two property maps: as many keys, and every key
    of the first is in the second with the same value under [Object.is]. *)
Definition props_shallow_equal (pa pb : gmap string JSValue) : bool :=
  bool_decide (size pa = size pb)
  && bool_decide (map_Forall (λ k a, from_option (Object_is a) false (pb !! k) = true) pa).

(** Modelled from the spec: [shallow(a, b)] of zustand/shallow, which the
    source imports through [useShallow].  Section 4.3: two values are equal
    when they are identical, or when both are plain objects, or both
    arrays, with the same keys and identical values under each key;
    anything else falls back to identity. *)
Definition shallow (h : Heap) (a b : JSValue) : bool :=
  Object_is a b ||
  match a, b with
  | JSObject la, JSObject lb | JSArray la, JSArray lb =>
      props_shallow_equal (default ∅ (h !! la)) (default ∅ (h !! lb))
  | _, _ => false
  end.

Section Selector.
Context `{host : Host}.

(** [shouldUseShallow] of lines 260-263, on the sampled [initialValue]. *)
Definition shouldUseShallow (h : Heap) (initialValue : JSValue) : bool :=
  negb (strict_equal initialValue JSNull)
  && bool_decide (typeof initialValue = "object")
  && negb (React_isValidElement h initialValue).

(** [wrappedSelector(store.getState())]: [selectorRef.current(state.value)];
    the ref holds the selector of the previous render, the effect that
    refreshes it running after the render. *)
Definition wrappedSelector (selector : fn) (m : SelectorHook) (s : nat) (w : World)
    : World * JSValue :=
  let '(h, r) := call (default selector (selectorRef m)) (heap w) (store_value s w) in
  (set_heap h w, r).

(** [store(wrappedSelector)]: React returns the snapshot
    [wrappedSelector(store.getState())]. *)
Definition store_plain (selector : fn) (m : SelectorHook) (s : nat) (w : World)
    : World * SelectorHook * JSValue :=
  let '(w1, next) := wrappedSelector selector m s w in
  (w1, m, next).

(** [store(useShallow(wrappedSelector))]: zustand's [useShallow] gives
    [shallow(prev.current, next) ? prev.current : (prev.current = next)]
    for [next = wrappedSelector(state)]. *)
Definition store_useShallow (selector : fn) (m : SelectorHook) (s : nat) (w : World)
    : World * SelectorHook * JSValue :=
  let '(w1, next) := wrappedSelector selector m s w in
  if shallow (heap w1) (useShallow_prev m) next
  then (w1, m, useShallow_prev m)
  else (w1, {| selectorRef := selectorRef m; useShallow_prev := next |}, next).

(** The hooks of a render.  [useRef], [useEffect] and [useCallback]
    (lines 244-254) and the hooks of [store(...)] are called at every
    render; [useShallow], which is one more [useRef], is called on one
    branch only (lines 265-266 and 272-274).  So a call site is in one of
    three states: it has not rendered yet; its previous render did not call
    [useShallow], and React keeps [selectorRef.current] for it; or its
    previous render called [useShallow], and React keeps
    [selectorRef.current] and the [prev.current] of [useShallow]. *)
Inductive CallSite :=
  | NotRendered
  | RenderedPlain (selectorRef_current : fn)
  | RenderedShallow (selectorRef_current : fn) (prev_current : JSValue).

(** The refs a render finds: at the first render [useRef(selector)] and
    the [useRef()] of [useShallow] are new. *)
Definition memory (c : CallSite) : SelectorHook :=
  match c with
  | NotRendered => first_render
  | RenderedPlain f => {| selectorRef := Some f; useShallow_prev := JSUndefined |}
  | RenderedShallow f prev => {| selectorRef := Some f; useShallow_prev := prev |}
  end.

(** React's rule for the hooks of a component: a render after the first
    has to call the hooks that the previous render called, in the same
    order.  A render that calls [useShallow] where the previous one did not
    calls one hook more, the converse one hook fewer; React then throws
    (more, or fewer, hooks rendered than during the previous render) and
    the render does not complete. *)
Definition hooks_changed (c : CallSite) (useShallow_now : bool) : bool :=
  match c with
  | NotRendered => false
  | RenderedPlain _ => useShallow_now
  | RenderedShallow _ _ => negb useShallow_now
  end.

(** How a render of the hook ends: its body completes, with the value it
    returns or with the [throw] of line 240, or React stops the render
    because the hooks changed. *)
Inductive Outcome :=
  | Rendered (c : Completion JSValue)
  | HooksChanged.

(** [return store(useShallow(wrappedSelector))] (lines 266 and 273), and
    the effect [selectorRef.current = selector] once the render has
    completed. *)
Definition return_store_useShallow (selector : fn) (c : CallSite) (s : nat) (w : World)
    : World * CallSite * Outcome :=
  if hooks_changed c true then (w, c, HooksChanged)
  else
    let '(w2, m2, r) := store_useShallow selector (memory c) s w in
    (w2, RenderedShallow selector (useShallow_prev m2), Rendered (Return r)).

(** [return store(wrappedSelector)] (lines 268 and 277), and the effect. *)
Definition return_store_plain (selector : fn) (c : CallSite) (s : nat) (w : World)
    : World * CallSite * Outcome :=
  if hooks_changed c false then (w, c, HooksChanged)
  else
    let '(w2, _, r) := store_plain selector (memory c) s w in
    (w2, RenderedPlain selector, Rendered (Return r)).

(** One render of [useGlobalSelector(key, selector, equalityMode)] at the
    call site [c].  A render that React stops leaves the call site as it
    was; the objects the selector made for the sample stay in the heap,
    referred to by nothing. *)
Definition useGlobalSelector (key : string) (selector : fn)
    (equalityMode : option EqualityMode) (c : CallSite) (w : World)
    : World * CallSite * Outcome :=
  match globalStates w !! key with
  | None => (w, c, Rendered (Throw (notFoundMessage key)))
  | Some s =>
      match equalityMode with
      | None =>
          (* auto-detect: sample the selected value of this render *)
          let '(w1, initialValue) := wrappedSelector selector (memory c) s w in
          if shouldUseShallow (heap w1) initialValue
          then return_store_useShallow selector c s w1
          else return_store_plain selector c s w1
      | Some Shallow => return_store_useShallow selector c s w
      end
  end.

End Selector.

End Part002.

(** ** Histories of a registry *)

Section Histories.
Context `{host : Host}.

(** What can happen to a registry: a call of an exported function, a call
    of a setter or of a reset function handed out by a hook (closures over
    the store [s]), a call of an unsubscribe function, and code outside the
    module that creates or changes plain objects. *)
Inductive Action :=
  | Call_useGlobalState (key : string) (initial : JSValue)
      (options : option UseGlobalStateOptions)
  | Call_useGlobalSelector (key : string) (selector : fn) (equalityFn : option fn)
  | Call_setGlobalState (key : string) (v : JSValue)
  | Call_subscribeGlobalState (key : string) (cb : fn)
  | Call_hooks_subscribeGlobalState (key : string) (cb : fn)
  | Call_resetGlobalState (key : string)
  | Call_setValue (s : nat) (v : JSValue)
  | Call_reset (s : nat)
  | Call_unsubscribe (u : Unsubscribe)
  | Call_clearAllStates
  | Outside (f : gmap positive (gmap string JSValue) -> gmap positive (gmap string JSValue)).

Definition step (w : World) (a : Action) : World :=
  match a with
  | Call_useGlobalState key initial options => (useGlobalState key initial options w).1
  | Call_useGlobalSelector key selector equalityFn =>
      (useGlobalSelector key selector equalityFn w).1
  | Call_setGlobalState key v => setGlobalState key v w
  | Call_subscribeGlobalState key cb => (subscribeGlobalState key cb w).1
  | Call_hooks_subscribeGlobalState key cb =>
      (HooksUseGlobalState.subscribeGlobalState key cb w).1
  | Call_resetGlobalState key => resetGlobalState key w
  | Call_setValue s v => setValue s v w
  | Call_reset s => reset s w
  | Call_unsubscribe u => unsubscribe u w
  | Call_clearAllStates => __clearAllStates__ w
  | Outside f => set_heap (f (heap w)) w
  end.

(** The actions in the order in which they happen. *)
Definition run (acts : list Action) (w : World) : World := foldl step w acts.

(** The action creates a store for [key] when there is none. *)
Definition creates (key : string) (a : Action) : bool :=
  match a with
  | Call_useGlobalState k _ _ => bool_decide (k = key)
  | _ => false
  end.

(** The module as it is loaded: an empty [globalStates] map and no store. *)
Definition loaded (env : string) (h : gmap positive (gmap string JSValue))
    (ls ss : Storage) : World :=
  {| globalStates := ∅; stores := ∅; heap := h; NODE_ENV := env; console_warn := [];
     localStorage_medium := ls; sessionStorage_medium := ss; callback_calls := [] |}.

(** *** The words of the specification *)

(** A non-null, non-array object. *)
Definition plain_object (v : JSValue) : bool :=
  match v with JSObject _ => true | _ => false end.

(** The shallow-merge path of [set]: the store commits a new object
    [{ ...currentValue, ...updater }]. *)
Definition shallow_merge_commit (s : nat) (updater : JSValue) (w : World) : World :=
  let '(h, newValue) := spread2 (heap w) (store_value s w) updater in
  set_value s newValue (set_heap h w).

(** The replacement path of [set]: the store commits the updater itself
    and no object is created. *)
Definition replacement_commit (s : nat) (updater : JSValue) (w : World) : World :=
  set_value s updater w.

(** Two states of a store with the same closure variables and the same
    [persist] options. *)
Definition same_closure (st st' : Store) : Prop :=
  initialState st' = initialState st /\ isObject st' = isObject st
  /\ persistence st' = persistence st.

(** Every store of [w] is still there in [w'], with its closure. *)
Definition stores_kept (w w' : World) : Prop :=
  forall s st, stores w !! s = Some st ->
    exists st', stores w' !! s = Some st' /\ same_closure st st'.

(** Every listener of the current [subscribeGlobalState] holds, as its
    [prevValue], the value the store has: the previously observed value is
    the previous value. *)
Definition observes_value (st : Store) : Prop :=
  Forall (fun l => code l = ObjectIsListener -> prevValue l = value st) (listeners st).

(** Every listener in the world comes from the current
    [subscribeGlobalState] and has observed the value of its store. *)
Definition current_listeners (w : World) : Prop :=
  forall s st, stores w !! s = Some st ->
    Forall (fun l => code l = ObjectIsListener) (listeners st) /\ observes_value st.

(** The action belongs to the older module. *)
Definition of_older_module (a : Action) : bool :=
  match a with
  | Call_hooks_subscribeGlobalState _ _ => true
  | _ => false
  end.

(** The call a listener makes when it fires. *)
Definition call_of (l : Listener) (newValue : JSValue) : CallbackCall :=
  {| callee := callback l; newValueArg := newValue; prevValueArg := prevValue l |}.

(** The soft failure on an unknown key as section 7 words it: the
    diagnostic is reported and nothing else changes. *)
Definition reported (key : string) (w : World) : World :=
  add_console_warn (notFoundMessage key) w.

End Histories.

(** ** A concrete host for the scenarios *)

(** The functions used in the scenarios:
    0 is [x => x], 1 is [prev => prev + 1], 2 returns the object at
    reference 1 whatever it receives, 3 is [() => 5] and 4 is
    [() => ({ a: 1 })]. *)
Definition scenario_call (f : fn) (h : gmap positive (gmap string JSValue)) (x : JSValue)
    : gmap positive (gmap string JSValue) * JSValue :=
  match f with
  | 0 => (h, x)
  | 1 => match x with
         | JSNumber n =>
             (h, JSNumber (SFadd 53 1024 n (binary_normalize 53 1024 1 0 false)))
         | _ => (h, NaN)
         end
  | 2 => (h, JSObject 1)
  | 3 => (h, num 5)
  | 4 => alloc h {[ "a" := num 1 ]}
  | _ => (h, JSUndefined)
  end.

(** React marks its elements with the registered symbol [react.element]
    under the property [$$typeof]. *)
Definition REACT_ELEMENT_TYPE : JSValue := JSSymbol "react.element".

(** React's [isValidElement(v)]: [v] is a non-null object whose [$$typeof]
    is [REACT_ELEMENT_TYPE]. *)
Definition isValidElement (h : gmap positive (gmap string JSValue)) (v : JSValue) : bool :=
  match v with
  | JSObject l | JSArray l =>
      bool_decide ((h !! l) ≫= (λ ps : gmap string JSValue, ps !! "$$typeof")
                   = Some REACT_ELEMENT_TYPE)
  | _ => false
  end.

(** No persisted data: rehydration leaves the initial value. *)
Definition scenario_host : Host :=
  {| call := scenario_call;
     Storage := unit;
     persist_rehydrate := λ c _ h v, (c, h, v);
     persist_setItem := λ c _ _ _, c;
     React_isValidElement := isValidElement |}.

(** The objects of the scenarios: John at 1, the partial update at 2, a
    React element at 3 and its twin at 4, the array [[4, 5]] at 5. *)
Definition scenario_heap : gmap positive (gmap string JSValue) :=
  {[ 1%positive := {[ "name" := JSString "John"; "age" := num 30 ]};
     2%positive := {[ "name" := JSString "Jane" ]};
     3%positive := {[ "$$typeof" := REACT_ELEMENT_TYPE; "type" := JSString "div" ]};
     4%positive := {[ "$$typeof" := REACT_ELEMENT_TYPE; "type" := JSString "div" ]};
     5%positive := {[ "0" := num 4; "1" := num 5 ]} ]}.

Definition development : @World scenario_host :=
  @loaded scenario_host "development" scenario_heap tt tt.

Definition production : @World scenario_host :=
  @loaded scenario_host "production" scenario_heap tt tt.

(** The worlds of the scenarios.  The first store of a registry has the
    reference 0. *)

(** [counter], created with 0. *)
Definition counter_store : @World scenario_host :=
  (@useGlobalState scenario_host "counter" (num 0) None development).1.

(** [user], created with John. *)
Definition user_store : @World scenario_host :=
  (@useGlobalState scenario_host "user" (JSObject 1) None development).1.

(** [count], created with 0 and then given John by a functional update. *)
Definition count_store : @World scenario_host :=
  @run scenario_host [Call_setValue 0 (JSFunction 2)]
    (@useGlobalState scenario_host "count" (num 0) None development).1.

(** [user], created with [null] and then given John. *)
Definition nullable_user_store : @World scenario_host :=
  @run scenario_host [Call_setGlobalState "user" (JSObject 1)]
    (@useGlobalState scenario_host "user" JSNull None development).1.

(** [n], created with NaN, and [z], created with +0. *)
Definition NaN_store : @World scenario_host :=
  (@useGlobalState scenario_host "n" NaN None development).1.

Definition zero_store : @World scenario_host :=
  (@useGlobalState scenario_host "z" pos_zero None development).1.

(** [el], created with the React element at reference 4; and [el] once it
    has been given the twin element, which the store merges into a new
    element with the same props. *)
Definition element_store : @World scenario_host :=
  (@useGlobalState scenario_host "el" (JSObject 4) None development).1.

Definition element_store_twin : @World scenario_host :=
  @setGlobalState scenario_host "el" (JSObject 3) element_store.

(** [user] once [{name: Jane}] has been merged into John. *)
Definition user_store_Jane : @World scenario_host :=
  @setGlobalState scenario_host "user" (JSObject 2) user_store.

(** ** The latest revision: the unified devtools view (pack.js 15-469)

    The registry, [isObject], the three branches of [setValue], [reset] and
    the accessors are those of index.tsx.  The revision adds a module flag
    [enableDevtools], one store [devToolsStore] that mirrors the value of
    every key, and a [false] equality mode for the selector hook, whose
    [selectorRef] is now assigned during the render. *)

Module Pack.

Local Abbreviation index_useGlobalState := useGlobalState.
Local Abbreviation index_subscribeGlobalState := subscribeGlobalState.
Local Abbreviation index_getGlobalState := getGlobalState.
Local Abbreviation index_useGlobalSetter := useGlobalSetter.
Local Abbreviation index_loaded := loaded.

(** [equalityMode?: 'shallow' | false] *)
Inductive EqualityMode := Shallow | Off.

Section Devtools.
Context `{host : Host}.

(** The state of the module: the world of index.tsx, the flag
    [enableDevtools], the state of [devToolsStore] ([None] for [null]) and,
    for every store, the [key] its [stateCreator] closes over. *)
Record Registry := {
  world : World;
  enableDevtools : bool;
  devToolsStore : option (gmap string JSValue);
  closure_key : gmap nat string;
}.

Definition with_world (w : World) (r : Registry) : Registry :=
  {| world := w; enableDevtools := enableDevtools r; devToolsStore := devToolsStore r;
     closure_key := closure_key r |}.

(** The module as it is loaded (lines 28, 34, 65):
    [enableDevtools = process.env.NODE_ENV !== 'production'] and
    [devToolsStore = null]. *)
Definition loaded (env : string) (h : gmap positive (gmap string JSValue))
    (ls ss : Storage) : Registry :=
  {| world := index_loaded env h ls ss;
     enableDevtools := bool_decide (env ≠ "production");
     devToolsStore := None;
     closure_key := ∅ |}.

(** [warnMissingState(key)] (lines 39-46). *)
Definition warnMissingState (key : string) (r : Registry) : Registry :=
  if bool_decide (NODE_ENV (world r) ≠ "production")
  then with_world (add_console_warn (notFoundMessage key) (world r)) r
  else r.

(** [configureDevtools(enabled)] (lines 58-60). *)
Definition configureDevtools (enabled : bool) (r : Registry) : Registry :=
  {| world := world r; enableDevtools := enabled; devToolsStore := devToolsStore r;
     closure_key := closure_key r |}.

(** [getDevToolsStore()] (lines 71-78): the store is created, with the
    empty object as its state, when there is none. *)
Definition getDevToolsStore (r : Registry) : Registry :=
  match devToolsStore r with
  | Some _ => r
  | None =>
      {| world := world r; enableDevtools := enableDevtools r; devToolsStore := Some ∅;
         closure_key := closure_key r |}
  end.

(** [syncToDevTools(key, value)] (lines 83-88):
    [devToolsStore.setState({ ...currentState, [key]: value })] when the
    store exists, nothing otherwise. *)
Definition syncToDevTools (key : string) (v : JSValue) (r : Registry) : Registry :=
  match devToolsStore r with
  | Some currentState =>
      {| world := world r; enableDevtools := enableDevtools r;
         devToolsStore := Some (<[key := v]> currentState);
         closure_key := closure_key r |}
  | None => r
  end.

(** [__clearAllStates__()] (lines 94-97). *)
Definition __clearAllStates__ (r : Registry) : Registry :=
  {| world := set_globalStates ∅ (world r); enableDevtools := enableDevtools r;
     devToolsStore := None; closure_key := closure_key r |}.

(** [updateValue(newValue)] of the store [s] whose closure holds [key]
    (lines 193-198). *)
Definition updateValue (s : nat) (key : string) (newValue : JSValue) (r : Registry)
    : Registry :=
  let r1 := with_world (set_value s newValue (world r)) r in
  if enableDevtools r1 then syncToDevTools key newValue r1 else r1.

(** [store.getState().setValue(v)] (lines 202-225). *)
Definition setValue (s : nat) (v : JSValue) (r : Registry) : Registry :=
  match stores (world r) !! s, closure_key r !! s with
  | Some st, Some key =>
      match v with
      | JSFunction f =>
          let '(h, newValue) := call f (heap (world r)) (value st) in
          let r1 := if enableDevtools r then syncToDevTools key newValue r else r in
          with_world (set_value s newValue (set_heap h (world r1))) r1
      | _ =>
          if isObject st && bool_decide (typeof v = "object") && negb (strict_equal v JSNull)
          then
            let '(h, newValue) := spread2 (heap (world r)) (value st) v in
            let r1 := if enableDevtools r then syncToDevTools key newValue r else r in
            with_world (set_value s newValue (set_heap h (world r1))) r1
          else updateValue s key v r
      end
  | _, _ => r
  end.

(** [store.getState().reset()] (lines 226-228). *)
Definition reset (s : nat) (r : Registry) : Registry :=
  match stores (world r) !! s, closure_key r !! s with
  | Some st, Some key => updateValue s key (initialState st) r
  | _, _ => r
  end.

(** [useGlobalState(key, initialState, options)] (lines 176-276).  The
    store is created as in index.tsx (lines 187-252 are lines 103-139
    there); then the unified view is initialized and given the initial
    value (lines 255-258). *)
Definition useGlobalState (key : string) (initial : JSValue)
    (options : option UseGlobalStateOptions) (r : Registry) : Registry * (JSValue * nat) :=
  match globalStates (world r) !! key with
  | Some s => (r, (store_value s (world r), s))
  | None =>
      let c := index_useGlobalState key initial options (world r) in
      let s := c.2.2 in
      let r1 := {| world := c.1; enableDevtools := enableDevtools r;
                   devToolsStore := devToolsStore r;
                   closure_key := <[s := key]> (closure_key r) |} in
      let r2 := if enableDevtools r1
                then syncToDevTools key initial (getDevToolsStore r1)
                else r1 in
      (r2, (store_value s (world r2), s))
  end.

(** [useGlobalSelector(key, selector, equalityMode)] (lines 314-358):
    [selectorRef.current = selector] is done in the render, before
    [wrappedSelector] is called. *)
Definition useGlobalSelector (key : string) (selector : fn)
    (equalityMode : option EqualityMode) (m : Part002.SelectorHook) (w : World)
    : World * Part002.SelectorHook * Completion JSValue :=
  match globalStates w !! key with
  | None => (w, m, Throw (notFoundMessage key))
  | Some s =>
      let m1 := {| Part002.selectorRef := Some selector;
                   Part002.useShallow_prev := Part002.useShallow_prev m |} in
      let '(w2, m2, r) :=
        match equalityMode with
        | None =>
            let '(w1, initialValue) := Part002.wrappedSelector selector m1 s w in
            if Part002.shouldUseShallow (heap w1) initialValue
            then Part002.store_useShallow selector m1 s w1
            else Part002.store_plain selector m1 s w1
        | Some Shallow => Part002.store_useShallow selector m1 s w
        | Some Off => Part002.store_plain selector m1 s w
        end in
      (w2, m2, Return r)
  end.

(** [getGlobalState(key)] (lines 393-396). *)
Definition getGlobalState (key : string) (r : Registry) : JSValue :=
  index_getGlobalState key (world r).

(** [setGlobalState(key, value)] (lines 405-414). *)
Definition setGlobalState (key : string) (v : JSValue) (r : Registry) : Registry :=
  match globalStates (world r) !! key with
  | None => warnMissingState key r
  | Some s => setValue s v r
  end.

(** [resetGlobalState(key)] (lines 456-467). *)
Definition resetGlobalState (key : string) (r : Registry) : Registry :=
  match globalStates (world r) !! key with
  | None => warnMissingState key r
  | Some s => reset s r
  end.

(** What can happen to the module. *)
Inductive Action :=
  | Call_useGlobalState (key : string) (initial : JSValue)
      (options : option UseGlobalStateOptions)
  | Call_setGlobalState (key : string) (v : JSValue)
  | Call_resetGlobalState (key : string)
  | Call_setValue (s : nat) (v : JSValue)
  | Call_reset (s : nat)
  | Call_configureDevtools (enabled : bool)
  | Call_clearAllStates.

Definition step (r : Registry) (a : Action) : Registry :=
  match a with
  | Call_useGlobalState key initial options => (useGlobalState key initial options r).1
  | Call_setGlobalState key v => setGlobalState key v r
  | Call_resetGlobalState key => resetGlobalState key r
  | Call_setValue s v => setValue s v r
  | Call_reset s => reset s r
  | Call_configureDevtools enabled => configureDevtools enabled r
  | Call_clearAllStates => __clearAllStates__ r
  end.

Definition run (acts : list Action) (r : Registry) : Registry := foldl step r acts.

(** The action leaves the flag and the registered keys alone and creates
    no persisted store. *)
Definition plain (a : Action) : bool :=
  match a with
  | Call_configureDevtools _ | Call_clearAllStates => false
  | Call_useGlobalState _ _ options => bool_decide (default none (options ≫= storage) = none)
  | _ => true
  end.

(** The action does not switch the flag on. *)
Definition keeps_disabled (a : Action) : bool :=
  match a with
  | Call_configureDevtools enabled => negb enabled
  | _ => true
  end.

(** The unified view shows, for every key, the value of its store, and
    nothing else; every store is registered under the key of its
    closure. *)
Definition mirrored (r : Registry) : Prop :=
  enableDevtools r = true
  /\ (forall s key, closure_key r !! s = Some key <-> globalStates (world r) !! key = Some s)
  /\ (forall key s, globalStates (world r) !! key = Some s -> is_Some (stores (world r) !! s))
  /\ (globalStates (world r) = ∅ \/ is_Some (devToolsStore r))
  /\ (forall view key, devToolsStore r = Some view ->
        view !! key = (fun s => store_value s (world r)) <$> globalStates (world r) !! key).

End Devtools.
End Pack.

(** The worlds of the further scenarios. *)

(** [counter] (store 0) and [user] (store 1), created with 0 and John. *)
Definition two_keys : list Action :=
  [Call_useGlobalState "counter" (num 0) None;
   Call_useGlobalState "user" (JSObject 1) None].


(** The latest revision loaded in development and in production. *)
Definition pack_development : @Pack.Registry scenario_host :=
  @Pack.loaded scenario_host "development" scenario_heap tt tt.

Definition pack_production : @Pack.Registry scenario_host :=
  @Pack.loaded scenario_host "production" scenario_heap tt tt.

(** [counter] and [user] created and written in the latest revision. *)
Definition pack_two_keys : list Pack.Action :=
  [Pack.Call_useGlobalState "counter" (num 0) None;
   Pack.Call_useGlobalState "user" (JSObject 1) None;
   Pack.Call_setGlobalState "counter" (num 5);
   Pack.Call_setGlobalState "user" (JSObject 2)].

(** A host whose media keep, under every name, the value last written:
    [persist] starts a new store from the value kept under its name when
    there is one, writes the value of the store back, and writes again
    after every [set].  The scenarios persist numbers. *)
Definition persisting_host : Host :=
  {| call := scenario_call;
     Storage := gmap string JSValue;
     persist_rehydrate := λ c name h v,
       let v' := default v (c !! name) in (<[name := v']> c, h, v');
     persist_setItem := λ c name _ v, <[name := v]> c;
     React_isValidElement := isValidElement |}.

Definition in_localStorage : option UseGlobalStateOptions :=
  Some {| storage := Some localStorage; storageKey := None |}.

(** [n], persisted in [localStorage], created with 0 and then set to 5. *)
Definition persisted_five : @World persisting_host :=
  @run persisting_host
    [Call_useGlobalState "n" (num 0) in_localStorage; Call_setGlobalState "n" (num 5)]
    (@loaded persisting_host "development" scenario_heap ∅ ∅).

(** ** Invariants of the registry *)

Section Invariants.
Context `{host : Host}.

(** The medium that a store persisted in [m] does not use. *)
Definition otherStorage (m : StorageType) (w : World) : Storage :=
  match m with
  | localStorage => sessionStorage_medium w
  | _ => localStorage_medium w
  end.

(** The [globalStates] map is well formed: every key refers to a store
    object that exists, and two keys never refer to the same store. *)
Definition registry_wf (w : World) : Prop :=
  (forall k s, globalStates w !! k = Some s -> is_Some (stores w !! s))
  /\ (forall k1 k2 s, globalStates w !! k1 = Some s -> globalStates w !! k2 = Some s ->
        k1 = k2).

(** Every listener of every store was given its identity by an earlier
    subscription to that store. *)
Definition listeners_wf (w : World) : Prop :=
  forall s st, stores w !! s = Some st ->
    Forall (fun l => lid l < subscriptions st) (listeners st).



End Invariants.

(** * Properties *)

(** ** JavaScript values *)

Lemma Object_is_true (a b : JSValue) : Object_is a b = true <-> a = b.
Proof.
  destruct a, b; simpl; try (split; [discriminate | congruence]);
    try (split; reflexivity);
    rewrite bool_decide_eq_true; split; congruence.
Qed.

Lemma Object_is_refl (a : JSValue) : Object_is a a = true.
Proof. by apply Object_is_true. Qed.

Lemma Object_is_false (a b : JSValue) : Object_is a b = false <-> a <> b.
Proof.
  rewrite <- not_true_iff_false. by rewrite Object_is_true.
Qed.

Lemma strict_equal_null (v : JSValue) : strict_equal v JSNull = true <-> v = JSNull.
Proof. destruct v; simpl; split; congruence. Qed.

Lemma typeof_function (v : JSValue) :
  typeof v = "function" <-> exists f, v = JSFunction f.
Proof.
  destruct v; simpl; split; try discriminate; try (intros [? ?]; discriminate); eauto.
Qed.

Lemma plain_object_spec (v : JSValue) :
  plain_object v
  = bool_decide (typeof v = "object") && negb (strict_equal v JSNull)
    && negb (Array_isArray v).
Proof. by destruct v. Qed.

Lemma fresh_heap_None (h : gmap positive (gmap string JSValue)) :
  h !! fresh (dom h) = None.
Proof. apply not_elem_of_dom, is_fresh. Qed.

Example typeof_null : typeof JSNull = "object".
Proof. reflexivity. Qed.

Example Object_is_NaN : Object_is NaN NaN = true /\ strict_equal NaN NaN = false.
Proof. split; reflexivity. Qed.

Example Object_is_zeros :
  Object_is pos_zero neg_zero = false /\ strict_equal pos_zero neg_zero = true.
Proof. split; reflexivity. Qed.

Example Object_is_five :
  Object_is (num 5) (num 5) = true /\ Object_is (num 5) (num 6) = false.
Proof. split; vm_compute; reflexivity. Qed.

(** ** The store *)

(** Reading a field of a world written with the setters. *)
Ltac world_simpl :=
  unfold set_stores, set_heap, set_globalStates, add_console_warn, add_callback_calls,
    set_storageImpl in *;
  cbn [stores heap globalStates NODE_ENV console_warn localStorage_medium
       sessionStorage_medium callback_calls fst snd] in *.

Section StoreFacts.
Context `{host : Host}.

Lemma same_closure_refl st : same_closure st st.
Proof. by repeat split. Qed.

Lemma same_closure_trans st1 st2 st3 :
  same_closure st1 st2 -> same_closure st2 st3 -> same_closure st1 st3.
Proof. unfold same_closure. intros (?&?&?) (?&?&?). repeat split; congruence. Qed.

(** What [set] leaves behind, field by field. *)
Lemma set_value_spec s newValue w st :
  stores w !! s = Some st ->
  let w' := set_value s newValue w in
  stores w' = <[s := {| value := newValue; initialState := initialState st;
                        isObject := isObject st; persistence := persistence st;
                        listeners := (notify newValue (listeners st)).1;
                        subscriptions := subscriptions st |}]> (stores w)
  /\ globalStates w' = globalStates w
  /\ heap w' = heap w
  /\ NODE_ENV w' = NODE_ENV w
  /\ console_warn w' = console_warn w
  /\ callback_calls w' = callback_calls w ++ (notify newValue (listeners st)).2.
Proof.
  intros Hs. unfold set_value. rewrite Hs.
  destruct (notify newValue (listeners st)) as [ls calls].
  destruct (persistence st) as [[name m]|]; simpl; by repeat split.
Qed.

Lemma set_value_missing s newValue w :
  stores w !! s = None -> set_value s newValue w = w.
Proof. intros Hs. unfold set_value. by rewrite Hs. Qed.

Lemma store_value_set_value s newValue w :
  is_Some (stores w !! s) -> store_value s (set_value s newValue w) = newValue.
Proof.
  intros [st Hs]. destruct (set_value_spec s newValue w st Hs) as (Hst & _).
  unfold store_value. rewrite Hst, lookup_insert_eq. done.
Qed.

Lemma store_value_Some s w st : stores w !! s = Some st -> store_value s w = value st.
Proof. intros Hs. unfold store_value. by rewrite Hs. Qed.

Lemma stores_kept_refl w : stores_kept w w.
Proof. intros s st Hs. exists st. split; [done | apply same_closure_refl]. Qed.

Lemma stores_kept_trans w1 w2 w3 :
  stores_kept w1 w2 -> stores_kept w2 w3 -> stores_kept w1 w3.
Proof.
  intros H12 H23 s st Hs.
  destruct (H12 s st Hs) as (st2 & Hs2 & Hc2).
  destruct (H23 s st2 Hs2) as (st3 & Hs3 & Hc3).
  exists st3. split; [done | by eapply same_closure_trans].
Qed.

Lemma stores_kept_same_stores w w' : stores w' = stores w -> stores_kept w w'.
Proof.
  intros E s st Hs. exists st. rewrite E. split; [done | apply same_closure_refl].
Qed.

Lemma set_value_kept s newValue w : stores_kept w (set_value s newValue w).
Proof.
  destruct (stores w !! s) as [st|] eqn:Hs.
  - destruct (set_value_spec s newValue w st Hs) as (Hst & _).
    intros s0 st0 Hs0. rewrite Hst.
    destruct (decide (s = s0)) as [->|Hne].
    + rewrite lookup_insert_eq. eexists; split; [done|].
      rewrite Hs in Hs0. injection Hs0 as <-. by repeat split.
    + rewrite lookup_insert_ne by done. exists st0.
      split; [done | apply same_closure_refl].
  - rewrite set_value_missing by done. apply stores_kept_refl.
Qed.

Lemma setValue_kept s v w : stores_kept w (setValue s v w).
Proof.
  unfold setValue. destruct (stores w !! s) as [st|] eqn:Hs; [|apply stores_kept_refl].
  assert (forall h nv, stores_kept w (set_value s nv (set_heap h w))) as Hheap.
  { intros h nv. eapply stores_kept_trans; [|apply set_value_kept].
    by apply stores_kept_same_stores. }
  destruct v; try (case_match; [destruct (spread2 _ _ _) as [h nv]; apply Hheap
                               | apply set_value_kept]).
  destruct (call f (heap w) (value st)) as [h nv]. apply Hheap.
Qed.

Lemma reset_kept s w : stores_kept w (reset s w).
Proof.
  unfold reset. destruct (stores w !! s); [apply set_value_kept | apply stores_kept_refl].
Qed.

Lemma subscribe_kept s c cb prev w : stores_kept w (subscribe s c cb prev w).1.
Proof.
  unfold subscribe. destruct (stores w !! s) as [st|] eqn:Hs; [|apply stores_kept_refl].
  intros s0 st0 Hs0. world_simpl.
  destruct (decide (s = s0)) as [->|Hne].
  - rewrite lookup_insert_eq. eexists; split; [done|].
    rewrite Hs in Hs0. injection Hs0 as <-. by repeat split.
  - rewrite lookup_insert_ne by done. exists st0.
    split; [done | apply same_closure_refl].
Qed.

Lemma unsubscribe_kept u w : stores_kept w (unsubscribe u w).
Proof.
  unfold unsubscribe. destruct u as [[s id]|]; [|apply stores_kept_refl].
  destruct (stores w !! s) as [st|] eqn:Hs; [|apply stores_kept_refl].
  intros s0 st0 Hs0. world_simpl.
  destruct (decide (s = s0)) as [->|Hne].
  - rewrite lookup_insert_eq. eexists; split; [done|].
    rewrite Hs in Hs0. injection Hs0 as <-. by repeat split.
  - rewrite lookup_insert_ne by done. exists st0.
    split; [done | apply same_closure_refl].
Qed.

Lemma fresh_store_None w : stores w !! fresh (dom (stores w)) = None.
Proof. apply not_elem_of_dom, is_fresh. Qed.

Lemma useGlobalState_kept key initial options w :
  stores_kept w (useGlobalState key initial options w).1.
Proof.
  unfold useGlobalState.
  destruct (globalStates w !! key) as [s|]; [apply stores_kept_refl|].
  assert (forall st0 w', stores w' = <[fresh (dom (stores w)) := st0]> (stores w) ->
            stores_kept w w') as Hnew.
  { intros st0 w' E s st Hs. exists st. rewrite E.
    rewrite lookup_insert_ne; [split; [done | apply same_closure_refl]|].
    intros <-. by rewrite fresh_store_None in Hs. }
  case_bool_decide.
  - destruct (persist_rehydrate _ _ _ _) as [[c h] v].
    eapply Hnew. world_simpl. reflexivity.
  - eapply Hnew. world_simpl. reflexivity.
Qed.

End StoreFacts.

(** ** Histories keep every store and its closure *)

Section HistoryFacts.
Context `{host : Host}.

Lemma step_kept w a : stores_kept w (step w a).
Proof.
  destruct a; simpl.
  - apply useGlobalState_kept.
  - unfold useGlobalSelector. destruct (globalStates w !! key); [|apply stores_kept_refl].
    destruct equalityFn; destruct (call _ _ _); by apply stores_kept_same_stores.
  - unfold setGlobalState. destruct (globalStates w !! key); [apply setValue_kept|].
    case_bool_decide; by apply stores_kept_same_stores.
  - unfold subscribeGlobalState. destruct (globalStates w !! key); [apply subscribe_kept|].
    case_bool_decide; by apply stores_kept_same_stores.
  - unfold HooksUseGlobalState.subscribeGlobalState.
    destruct (globalStates w !! key); [apply subscribe_kept|].
    case_bool_decide; by apply stores_kept_same_stores.
  - unfold resetGlobalState. destruct (globalStates w !! key); [apply reset_kept|].
    case_bool_decide; by apply stores_kept_same_stores.
  - apply setValue_kept.
  - apply reset_kept.
  - apply unsubscribe_kept.
  - by apply stores_kept_same_stores.
  - by apply stores_kept_same_stores.
Qed.

Lemma run_app acts1 acts2 w : run (acts1 ++ acts2) w = run acts2 (run acts1 w).
Proof. unfold run. apply foldl_app. Qed.

Lemma run_kept acts w : stores_kept w (run acts w).
Proof.
  revert w. induction acts as [|a acts IH]; intros w; [apply stores_kept_refl|].
  simpl. eapply stores_kept_trans; [apply step_kept | apply IH].
Qed.

(** What the first call of [useGlobalState] for a key creates. *)
Lemma useGlobalState_creates key initial options w :
  globalStates w !! key = None ->
  let r := useGlobalState key initial options w in
  exists st,
    stores r.1 !! r.2.2 = Some st
    /\ initialState st = initial
    /\ isObject st = plain_object initial
    /\ listeners st = []
    /\ r.2.1 = value st
    /\ globalStates r.1 = <[key := r.2.2]> (globalStates w)
    /\ (default none (options ≫= storage) = none ->
        value st = initial /\ heap r.1 = heap w /\ persistence st = None).
Proof.
  intros Hk. unfold useGlobalState. rewrite Hk. rewrite <- plain_object_spec.
  case_bool_decide as Hst.
  - destruct (persist_rehydrate _ _ _ _) as [[c h] v].
    eexists. cbn [fst snd]. unfold store_value. world_simpl.
    rewrite lookup_insert_eq. cbn. repeat split; try reflexivity. all: done.
  - eexists. cbn [fst snd]. unfold store_value. world_simpl.
    rewrite lookup_insert_eq. cbn. repeat split; reflexivity.
Qed.

(** The store created for a key keeps its closure through every history. *)
Lemma created_store_closure key initial options acts w0 :
  globalStates w0 !! key = None ->
  let r := useGlobalState key initial options w0 in
  exists st,
    stores (run acts r.1) !! r.2.2 = Some st
    /\ initialState st = initial
    /\ isObject st = plain_object initial.
Proof.
  intros Hk r.
  destruct (useGlobalState_creates key initial options w0 Hk)
    as (st0 & Hs0 & Hi & Ho & _).
  destruct (run_kept acts _ _ _ Hs0) as (st & Hs & Hc1 & Hc2 & _).
  exists st. subst r. repeat split; congruence.
Qed.

(** The three branches of [setValue], read on the world. *)
Lemma setValue_branches s v w st :
  stores w !! s = Some st ->
  setValue s v w =
    match v with
    | JSFunction f =>
        let '(h, newValue) := call f (heap w) (value st) in
        set_value s newValue (set_heap h w)
    | _ =>
        if isObject st && bool_decide (typeof v = "object") && negb (strict_equal v JSNull)
        then shallow_merge_commit s v w
        else replacement_commit s v w
    end.
Proof.
  intros Hs. unfold setValue, shallow_merge_commit, replacement_commit, store_value.
  rewrite Hs. reflexivity.
Qed.

(** The merge path creates an object and the replacement path does not:
    the two never give the same world. *)
Lemma merge_is_not_replacement s v w :
  shallow_merge_commit s v w <> replacement_commit s v w.
Proof.
  unfold shallow_merge_commit, replacement_commit, spread2. intros E.
  apply (f_equal (fun w' => heap w' !! fresh (dom (heap w)))) in E.
  destruct (stores w !! s) as [st|] eqn:Hs.
  - destruct (set_value_spec s v w st Hs) as (_ & _ & Hh & _).
    cbn zeta in Hh. rewrite Hh in E.
    match type of E with
    | heap (set_value s ?nv ?w1) !! _ = _ =>
        destruct (set_value_spec s nv w1 st Hs) as (_ & _ & Hh1 & _);
        cbn zeta in Hh1; rewrite Hh1 in E
    end.
    world_simpl. rewrite lookup_insert_eq, fresh_heap_None in E. discriminate.
  - rewrite !set_value_missing in E by done. world_simpl.
    rewrite lookup_insert_eq, fresh_heap_None in E. discriminate.
Qed.

End HistoryFacts.

(** ** Merge, replacement and functional update *)

Section UpdateFacts.
Context `{host : Host}.

Lemma replacement_commit_spec s v w :
  is_Some (stores w !! s) ->
  store_value s (replacement_commit s v w) = v
  /\ heap (replacement_commit s v w) = heap w.
Proof.
  intros [st Hs]. unfold replacement_commit. split.
  - apply store_value_set_value. by exists st.
  - by destruct (set_value_spec s v w st Hs) as (_ & _ & Hh & _).
Qed.

Lemma shallow_merge_commit_spec s v w :
  is_Some (stores w !! s) ->
  let l := fresh (dom (heap w)) in
  store_value s (shallow_merge_commit s v w) = JSObject l
  /\ heap (shallow_merge_commit s v w)
     = <[l := spread_props (heap w) v ∪ spread_props (heap w) (store_value s w)]> (heap w).
Proof.
  intros [st Hs] l. unfold shallow_merge_commit, spread2. fold l. split.
  - apply store_value_set_value. world_simpl. by exists st.
  - match goal with
    | |- heap (set_value s ?nv ?w1) = _ =>
        destruct (set_value_spec s nv w1 st Hs) as (_ & _ & Hh & _)
    end.
    cbn zeta in Hh. rewrite Hh. reflexivity.
Qed.

(** The condition of line 111 for a store whose [isObject] is known. *)
Lemma merge_condition (b : bool) (v : JSValue) :
  b && bool_decide (typeof v = "object") && negb (strict_equal v JSNull) = true
  <-> b = true /\ typeof v = "object" /\ v <> JSNull.
Proof.
  rewrite !andb_true_iff, bool_decide_eq_true, negb_true_iff.
  rewrite <- not_true_iff_false, strict_equal_null. tauto.
Qed.

(** The path [setValue] takes in the store created for a key, after any
    history. *)
Lemma setValue_of_created_store key initial options acts (v : JSValue) (w0 : World) :
  globalStates w0 !! key = None ->
  typeof v <> "function" ->
  let r := useGlobalState key initial options w0 in
  let s := r.2.2 in
  let w := run acts r.1 in
  is_Some (stores w !! s)
  /\ setValue s v w
     = if plain_object initial && bool_decide (typeof v = "object")
          && negb (strict_equal v JSNull)
       then shallow_merge_commit s v w
       else replacement_commit s v w.
Proof.
  intros Hk Hfun r s w.
  destruct (created_store_closure key initial options acts w0 Hk)
    as (st & Hs & Hi & Ho).
  fold r s w in Hs. split; [by exists st|].
  rewrite (setValue_branches s v w st Hs), Ho.
  destruct v; try reflexivity. by destruct Hfun.
Qed.

(** C1, as amended.  For the store that [useGlobalState] creates for a key,
    after any history, and for every updater that is not a function: [set]
    takes the shallow-merge path exactly when the initial value given at
    creation was a non-null, non-array object and the updater is a non-null
    object (an array counts); in every other case it commits the updater
    itself. *)
Theorem setValue_merges_iff_created_as_object
    key initial options acts (v : JSValue) (w0 : World) :
  globalStates w0 !! key = None ->
  typeof v <> "function" ->
  let r := useGlobalState key initial options w0 in
  let s := r.2.2 in
  let w := run acts r.1 in
  (setValue s v w = shallow_merge_commit s v w
   <-> plain_object initial = true /\ typeof v = "object" /\ v <> JSNull)
  /\ (~ (plain_object initial = true /\ typeof v = "object" /\ v <> JSNull) ->
      setValue s v w = replacement_commit s v w).
Proof.
  intros Hk Hfun r s w.
  destruct (setValue_of_created_store key initial options acts v w0 Hk Hfun)
    as [_ E].
  fold r s w in E. rewrite E.
  destruct (plain_object initial && bool_decide (typeof v = "object")
            && negb (strict_equal v JSNull)) eqn:Hc.
  - apply merge_condition in Hc. split; [tauto | intros Hn; by destruct Hn].
  - assert (~ (plain_object initial = true /\ typeof v = "object" /\ v <> JSNull)) as Hn.
    { rewrite <- merge_condition, Hc. discriminate. }
    split; [|done]. split; [|tauto].
    intros E'. symmetry in E'. by apply merge_is_not_replacement in E'.
Qed.

(** C10.  The choice between merge and replacement is fixed when the store
    is created, by the shape of the initial value.  A store whose initial
    value is not a non-null, non-array object commits every updater that is
    not a function as it is, a plain object included, whatever the current
    value has become; a store created with a plain object merges every
    non-null object updater, arrays included. *)
Theorem merge_or_replace_fixed_at_creation key initial options acts (w0 : World) :
  globalStates w0 !! key = None ->
  let r := useGlobalState key initial options w0 in
  let s := r.2.2 in
  let w := run acts r.1 in
  (plain_object initial = false ->
     forall v, typeof v <> "function" ->
       setValue s v w = replacement_commit s v w
       /\ store_value s (setValue s v w) = v
       /\ heap (setValue s v w) = heap w)
  /\ (plain_object initial = true ->
     forall v, typeof v = "object" -> v <> JSNull ->
       setValue s v w = shallow_merge_commit s v w
       /\ store_value s (setValue s v w) = JSObject (fresh (dom (heap w)))
       /\ heap (setValue s v w) !! fresh (dom (heap w))
          = Some (spread_props (heap w) v ∪ spread_props (heap w) (store_value s w))).
Proof.
  intros Hk r s w. split.
  - intros Hp v Hfun.
    destruct (setValue_of_created_store key initial options acts v w0 Hk Hfun)
      as [Hs E].
    fold r s w in Hs, E. rewrite Hp in E. simpl in E.
    rewrite E. split; [done|]. by apply replacement_commit_spec.
  - intros Hp v Hobj Hnull.
    destruct (setValue_of_created_store key initial options acts v w0 Hk)
      as [Hs E]; [by rewrite Hobj|].
    fold r s w in Hs, E.
    assert (plain_object initial && bool_decide (typeof v = "object")
            && negb (strict_equal v JSNull) = true) as Hc
      by by apply merge_condition.
    rewrite Hc in E. rewrite E. split; [done|].
    destruct (shallow_merge_commit_spec s v w Hs) as [Hv Hh].
    split; [done|]. rewrite Hh. apply lookup_insert_eq.
Qed.

End UpdateFacts.

Section MergeReplaceReset.
Context `{host : Host}.

(** The properties of [{ ...v, ...p }]: a key of [p] has the value [p] gives
    it, every other key has the value [v] gives it. *)
Lemma spread_fields (h : gmap positive (gmap string JSValue)) (v p : JSValue) (k : string) :
  (spread_props h p ∪ spread_props h v) !! k
  = match spread_props h p !! k with
    | Some x => Some x
    | None => spread_props h v !! k
    end.
Proof.
  rewrite lookup_union.
  by destruct (spread_props h p !! k), (spread_props h v !! k).
Qed.

(** C2, as amended.  In a store created with a plain-object initial value,
    after any history, for every plain-object current value [v] and every
    plain-object partial [p], [set(p)] commits a new object whose
    properties are those of [{ ...v, ...p }]: a field named in [p] takes the
    value [p] gives it, a field of [v] absent from [p] keeps its value, and
    no other object changes. *)
Theorem partial_update_merges key initial options acts (p : JSValue) (w0 : World) :
  globalStates w0 !! key = None ->
  plain_object initial = true ->
  let r := useGlobalState key initial options w0 in
  let s := r.2.2 in
  let w := run acts r.1 in
  let v := store_value s w in
  plain_object v = true ->
  plain_object p = true ->
  let w' := setValue s p w in
  exists l merged,
    store_value s w' = JSObject l
    /\ heap w !! l = None
    /\ heap w' !! l = Some merged
    /\ merged = spread_props (heap w) p ∪ spread_props (heap w) v
    /\ (forall k x, spread_props (heap w) p !! k = Some x -> merged !! k = Some x)
    /\ (forall k, spread_props (heap w) p !! k = None ->
          merged !! k = spread_props (heap w) v !! k)
    /\ (forall l', l' <> l -> heap w' !! l' = heap w !! l').
Proof.
  intros Hk Hinit r s w v Hv Hp w'.
  destruct (setValue_of_created_store key initial options acts p w0 Hk)
    as [Hs E]; [by destruct p|].
  fold r s w in Hs, E. fold w' in E.
  assert (plain_object initial && bool_decide (typeof p = "object")
          && negb (strict_equal p JSNull) = true) as Hc
    by (rewrite Hinit; by destruct p).
  rewrite Hc in E.
  destruct (shallow_merge_commit_spec s p w Hs) as [Hval Hh].
  rewrite <- E in Hval, Hh. fold v in Hh.
  exists (fresh (dom (heap w))), (spread_props (heap w) p ∪ spread_props (heap w) v).
  split; [done|]. split; [apply fresh_heap_None|].
  split; [rewrite Hh; apply lookup_insert_eq|]. split; [done|].
  split; [|split].
  - intros k x Hx. by rewrite spread_fields, Hx.
  - intros k Hx. by rewrite spread_fields, Hx.
  - intros l' Hne. rewrite Hh. by apply lookup_insert_ne.
Qed.

(** C3.  For every store, whatever its current value [v] and however it was
    created, [set(f)] with a function [f] commits exactly [f(v)]: the value
    read afterwards is the result of [f], the heap is the one [f] left (no
    object is created for a merge), and the commit is the replacement
    path. *)
Theorem functional_update_replaces (s : nat) (f : fn) (w : World) (st : Store) :
  stores w !! s = Some st ->
  let v := value st in
  let w' := setValue s (JSFunction f) w in
  store_value s w' = (call f (heap w) v).2
  /\ heap w' = (call f (heap w) v).1
  /\ w' = replacement_commit s (call f (heap w) v).2 (set_heap (call f (heap w) v).1 w)
  /\ (forall key, globalStates w !! key = Some s ->
        getGlobalState key (setGlobalState key (JSFunction f) w) = (call f (heap w) v).2).
Proof.
  intros Hs v w'.
  assert (w' = replacement_commit s (call f (heap w) v).2
                 (set_heap (call f (heap w) v).1 w)) as E.
  { subst w'. rewrite (setValue_branches s _ w st Hs). fold v.
    by destruct (call f (heap w) v). }
  assert (is_Some (stores (set_heap (call f (heap w) v).1 w) !! s)) as Hs'
    by (world_simpl; by exists st).
  destruct (replacement_commit_spec s (call f (heap w) v).2 _ Hs') as [Hval Hh].
  rewrite <- E in Hval, Hh.
  split; [done|]. split; [done|]. split; [done|].
  intros key Hkey. unfold setGlobalState, getGlobalState. rewrite Hkey. fold w'.
  assert (globalStates w' = globalStates w) as ->; [|by rewrite Hkey].
  rewrite E. unfold replacement_commit.
  match goal with
  | |- globalStates (set_value s ?nv ?w1) = _ =>
      destruct (set_value_spec s nv w1 st) as (_ & Hg & _); [by world_simpl|]
  end.
  exact Hg.
Qed.

(** C4.  For the store created for a key and every history of writes,
    [reset()] commits the initial value given at creation by the
    replacement path (no merge, no object created, also when the initial
    value is a plain object); the value read afterwards is that very value
    (for an object: that very reference), through [getGlobalState] as well,
    and so it is after every later history and reset. *)
Theorem reset_restores_initial key initial options acts (w0 : World) :
  globalStates w0 !! key = None ->
  let r := useGlobalState key initial options w0 in
  let s := r.2.2 in
  let w := run acts r.1 in
  reset s w = replacement_commit s initial w
  /\ store_value s (reset s w) = initial
  /\ heap (reset s w) = heap w
  /\ (globalStates w !! key = Some s ->
        getGlobalState key (resetGlobalState key w) = initial)
  /\ (forall acts', store_value s (reset s (run acts' (reset s w))) = initial).
Proof.
  intros Hk r s w.
  assert (forall acts0, let w1 := run acts0 r.1 in
            reset s w1 = replacement_commit s initial w1
            /\ store_value s (reset s w1) = initial
            /\ heap (reset s w1) = heap w1
            /\ globalStates (reset s w1) = globalStates w1) as Hall.
  { intros acts0 w1.
    destruct (created_store_closure key initial options acts0 w0 Hk)
      as (st & Hs & Hi & _).
    fold r s w1 in Hs.
    assert (reset s w1 = replacement_commit s initial w1) as E
      by (unfold reset, replacement_commit; by rewrite Hs, Hi).
    rewrite E. split; [done|].
    destruct (replacement_commit_spec s initial w1) as [? ?]; [by exists st|].
    split; [done|]. split; [done|].
    by destruct (set_value_spec s initial w1 st Hs) as (_ & ? & _). }
  destruct (Hall acts) as (E & Hv & Hh & Hg). fold w in E, Hv, Hh, Hg.
  split; [done|]. split; [done|]. split; [done|]. split.
  - intros Hkey. unfold resetGlobalState, getGlobalState.
    rewrite Hkey, Hg, Hkey. exact Hv.
  - intros acts'.
    destruct (Hall (acts ++ Call_reset s :: acts')) as (_ & Hv' & _).
    rewrite run_app in Hv'. exact Hv'.
Qed.

End MergeReplaceReset.

(** ** The registry: creation, missing keys *)

Lemma append_length (a b : string) :
  String.length (a +:+ b) = String.length a + String.length b.
Proof. induction a as [|c a IH]; simpl; [done | by rewrite IH]. Qed.

Lemma append_right_cancel (a b t : string) : a +:+ t = b +:+ t -> a = b.
Proof.
  revert b. induction a as [|c a IH]; intros [|c' b] E; simpl in E.
  - done.
  - apply (f_equal String.length) in E. simpl in E.
    rewrite !append_length in E. simpl in E. lia.
  - apply (f_equal String.length) in E. simpl in E.
    rewrite !append_length in E. simpl in E. lia.
  - injection E as -> E. f_equal. by apply IH.
Qed.

(** The message names the key: two keys never share a message. *)
Lemma notFoundMessage_inj (k1 k2 : string) :
  notFoundMessage k1 = notFoundMessage k2 -> k1 = k2.
Proof.
  unfold notFoundMessage. intros E.
  apply String.app_inj in E. apply String.app_inj in E.
  by apply append_right_cancel in E.
Qed.

Section RegistryFacts.
Context `{host : Host}.

Lemma globalStates_set_value s v w : globalStates (set_value s v w) = globalStates w.
Proof.
  destruct (stores w !! s) as [st|] eqn:Hs.
  - by destruct (set_value_spec s v w st Hs) as (_ & ? & _).
  - by rewrite set_value_missing.
Qed.

Lemma globalStates_setValue s v w : globalStates (setValue s v w) = globalStates w.
Proof.
  unfold setValue. destruct (stores w !! s) as [st|]; [|done].
  destruct v; try (case_match; [destruct (spread2 _ _ _)|];
                   by rewrite globalStates_set_value).
  destruct (call _ _ _). by rewrite globalStates_set_value.
Qed.

Lemma globalStates_reset s w : globalStates (reset s w) = globalStates w.
Proof.
  unfold reset. destruct (stores w !! s); [apply globalStates_set_value | done].
Qed.

Lemma globalStates_subscribe s c cb prev w :
  globalStates (subscribe s c cb prev w).1 = globalStates w.
Proof. unfold subscribe. by destruct (stores w !! s). Qed.

(** Only [useGlobalState] with that key gives a key a store. *)
Lemma step_keeps_key_missing key a w :
  creates key a = false ->
  globalStates w !! key = None ->
  globalStates (step w a) !! key = None.
Proof.
  intros Hc Hk. destruct a; simpl in *.
  - apply bool_decide_eq_false in Hc. unfold useGlobalState.
    destruct (globalStates w !! key0) as [s|]; [done|].
    case_bool_decide; [destruct (persist_rehydrate _ _ _ _) as [[? ?] ?]|];
      world_simpl; by rewrite lookup_insert_ne.
  - unfold useGlobalSelector. destruct (globalStates w !! key0); [|done].
    by destruct equalityFn; destruct (call _ _ _).
  - unfold setGlobalState. destruct (globalStates w !! key0).
    + by rewrite globalStates_setValue.
    + by case_bool_decide.
  - unfold subscribeGlobalState. destruct (globalStates w !! key0).
    + by rewrite globalStates_subscribe.
    + by case_bool_decide.
  - unfold HooksUseGlobalState.subscribeGlobalState. destruct (globalStates w !! key0).
    + by rewrite globalStates_subscribe.
    + by case_bool_decide.
  - unfold resetGlobalState. destruct (globalStates w !! key0).
    + by rewrite globalStates_reset.
    + by case_bool_decide.
  - by rewrite globalStates_setValue.
  - by rewrite globalStates_reset.
  - unfold unsubscribe. destruct u as [[s id]|]; [|done].
    by destruct (stores w !! s).
  - done.
  - done.
Qed.

Lemma run_keeps_key_missing key acts w :
  Forall (fun a => creates key a = false) acts ->
  globalStates w !! key = None ->
  globalStates (run acts w) !! key = None.
Proof.
  intros Hacts. revert w. induction Hacts as [|a acts Ha _ IH]; intros w Hk; [done|].
  simpl. apply IH. by apply step_keeps_key_missing.
Qed.

(** C5.  A call of [useGlobalState] for a key that has a store leaves the
    whole world as it is and returns that store with its current value; the
    initial value and the options of the call play no part.  So a second
    call after a first one returns what the first returned, and after
    creating a key with one initial value (no persistence) and calling again
    with another, both calls and [getGlobalState] give the first value. *)
Theorem useGlobalState_existing_key_is_noop
    key (i1 i2 : JSValue) (o1 o2 : option UseGlobalStateOptions) (w : World) :
  (forall s, globalStates w !! key = Some s ->
     useGlobalState key i2 o2 w = (w, (store_value s w, s))
     /\ getGlobalState key w = store_value s w)
  /\ (let r1 := useGlobalState key i1 o1 w in
      useGlobalState key i2 o2 r1.1 = r1)
  /\ (globalStates w !! key = None ->
      default none (o1 ≫= storage) = none ->
      let r1 := useGlobalState key i1 o1 w in
      let r2 := useGlobalState key i2 o2 r1.1 in
      r2.1 = r1.1 /\ r1.2.1 = i1 /\ r2.2.1 = i1 /\ r2.2.2 = r1.2.2
      /\ getGlobalState key r2.1 = i1).
Proof.
  assert (forall (w1 : World) s, globalStates w1 !! key = Some s ->
            useGlobalState key i2 o2 w1 = (w1, (store_value s w1, s))) as Hexists.
  { intros w1 s Hs. unfold useGlobalState. by rewrite Hs. }
  assert (let r1 := useGlobalState key i1 o1 w in
          globalStates r1.1 !! key = Some r1.2.2
          /\ r1.2.1 = store_value r1.2.2 r1.1) as Hfirst.
  { destruct (globalStates w !! key) as [s|] eqn:Hk.
    - unfold useGlobalState. rewrite Hk. by cbn.
    - destruct (useGlobalState_creates key i1 o1 w Hk) as (st & Hs & _ & _ & _ & Hv & Hg & _).
      cbn zeta. rewrite Hg, lookup_insert_eq. split; [done|].
      by rewrite (store_value_Some _ _ _ Hs). }
  cbn zeta in Hfirst. destruct Hfirst as [Hkey Hval].
  split; [|split].
  - intros s Hs. split; [by apply Hexists|].
    unfold getGlobalState. by rewrite Hs.
  - cbn zeta. rewrite (Hexists _ _ Hkey), <- Hval.
    by destruct (useGlobalState key i1 o1 w) as [? [? ?]].
  - intros Hk Hnone r1 r2.
    assert (r2 = r1) as E.
    { subst r2 r1. rewrite (Hexists _ _ Hkey), <- Hval.
      by destruct (useGlobalState key i1 o1 w) as [? [? ?]]. }
    destruct (useGlobalState_creates key i1 o1 w Hk)
      as (st & Hs & _ & _ & _ & Hv & _ & Hnp).
    destruct (Hnp Hnone) as (Hvi & _).
    fold r1 in Hs, Hv. rewrite E.
    assert (r1.2.1 = i1) as Hr1 by congruence.
    repeat split; try done.
    unfold getGlobalState. subst r1. rewrite Hkey, <- Hval. exact Hr1.
Qed.

(** C6.  For a key that no call of [useGlobalState] has created, whatever
    else has happened, [useGlobalSelector] and [useGlobalSetter] throw; the
    message is the fixed sentence around the key between double quotes, it
    tells to initialize the state with [useGlobalState] first, no other key
    has the same message, and the world stays as it was. *)
Theorem hooks_throw_on_missing_key
    key (selector : fn) (equalityFn : option fn) acts (w0 : World) :
  globalStates w0 !! key = None ->
  Forall (fun a => creates key a = false) acts ->
  let w := run acts w0 in
  useGlobalSelector key selector equalityFn w = (w, Throw (notFoundMessage key))
  /\ useGlobalSetter key w = (w, Throw (notFoundMessage key))
  /\ notFoundMessage key
     = "Global state with key " +:+ dquote +:+ key +:+ dquote
         +:+ " not found. Initialize it with useGlobalState first."
  /\ (forall key', notFoundMessage key' = notFoundMessage key -> key' = key).
Proof.
  intros Hk Hacts w.
  assert (globalStates w !! key = None) as Hw by by apply run_keeps_key_missing.
  unfold useGlobalSelector, useGlobalSetter. rewrite Hw.
  repeat split; try done. intros key'. apply notFoundMessage_inj.
Qed.

(** C7, as amended.  For a key without a store, [setGlobalState],
    [subscribeGlobalState] and [resetGlobalState] pass the not-found
    message to [console.warn] when [NODE_ENV] is not [production] and stay
    silent when it is; in both cases the registry, the stores, the heap, the
    media and the callbacks are left as they were, and the function
    returned by [subscribeGlobalState] does nothing.  [getGlobalState]
    returns [undefined]. *)
Theorem soft_failure_on_missing_key key (v : JSValue) (cb : fn) (w : World) :
  globalStates w !! key = None ->
  let w' := if bool_decide (NODE_ENV w <> "production") then reported key w else w in
  setGlobalState key v w = w'
  /\ subscribeGlobalState key cb w = (w', None)
  /\ unsubscribe (subscribeGlobalState key cb w).2 w' = w'
  /\ resetGlobalState key w = w'
  /\ getGlobalState key w = JSUndefined
  /\ globalStates w' = globalStates w /\ stores w' = stores w /\ heap w' = heap w
  /\ localStorage_medium w' = localStorage_medium w
  /\ sessionStorage_medium w' = sessionStorage_medium w
  /\ callback_calls w' = callback_calls w
  /\ console_warn w'
     = if bool_decide (NODE_ENV w <> "production")
       then console_warn w ++ [notFoundMessage key]
       else console_warn w.
Proof.
  intros Hk w'.
  unfold setGlobalState, subscribeGlobalState, resetGlobalState, getGlobalState.
  rewrite Hk. subst w'. unfold reported.
  case_bool_decide; by repeat split.
Qed.

End RegistryFacts.

(** ** External subscriptions *)

Section SubscriptionFacts.
Context `{host : Host}.

(** The listener of the current [subscribeGlobalState] calls its callback
    with the new and the previously observed value exactly when the two
    are not the same value, and then observes the new one. *)
Lemma run_listener_ObjectIs (newValue : JSValue) (l : Listener) :
  code l = ObjectIsListener ->
  (run_listener newValue l).2
    = (if bool_decide (newValue = prevValue l) then [] else [call_of l newValue])
  /\ prevValue (run_listener newValue l).1 = newValue
  /\ callback (run_listener newValue l).1 = callback l
  /\ code (run_listener newValue l).1 = code l.
Proof.
  intros Hc. unfold run_listener, value_changed. rewrite Hc.
  destruct (Object_is newValue (prevValue l)) eqn:E; simpl.
  - apply Object_is_true in E. rewrite bool_decide_eq_true_2 by done.
    by repeat split.
  - apply Object_is_false in E. rewrite bool_decide_eq_false_2 by done.
    by repeat split.
Qed.

Lemma notify_fst newValue ls :
  (notify newValue ls).1 = (fun l => (run_listener newValue l).1) <$> ls.
Proof.
  induction ls as [|l ls IH]; [done|]. simpl.
  destruct (run_listener newValue l) as [l' c].
  destruct (notify newValue ls) as [ls' cs]. simpl in *. by rewrite IH.
Qed.

Lemma notify_snd newValue ls :
  (notify newValue ls).2 = ls ≫= (fun l => (run_listener newValue l).2).
Proof.
  induction ls as [|l ls IH]; [done|]. simpl.
  destruct (run_listener newValue l) as [l' c].
  destruct (notify newValue ls) as [ls' cs]. simpl in *. by rewrite IH.
Qed.

(** After a commit every current listener has observed the committed
    value. *)
Lemma set_value_observes s newValue w st' :
  stores (set_value s newValue w) !! s = Some st' ->
  is_Some (stores w !! s) ->
  observes_value st'.
Proof.
  intros Hs' [st Hs]. destruct (set_value_spec s newValue w st Hs) as (Hst & _).
  rewrite Hst, lookup_insert_eq in Hs'. injection Hs' as <-.
  unfold observes_value. cbn [listeners value]. rewrite notify_fst.
  apply Forall_fmap, Forall_forall. intros l _ Hc. cbn in *.
  unfold run_listener in *.
  destruct (value_changed (code l) newValue (prevValue l)) eqn:E; [done|].
  cbn in Hc. unfold value_changed in E. rewrite Hc in E.
  apply negb_false_iff, Object_is_true in E. done.
Qed.

Lemma notify_calls_ObjectIs (newValue old : JSValue) (ls : list Listener) :
  Forall (fun l => code l = ObjectIsListener /\ prevValue l = old) ls ->
  (notify newValue ls).2
  = if Object_is newValue old then []
    else (fun l => {| callee := callback l; newValueArg := newValue;
                      prevValueArg := old |}) <$> ls.
Proof.
  intros Hls. rewrite notify_snd.
  induction Hls as [|l ls [Hl Ho] _ IH]; [by destruct (Object_is _ _)|].
  cbn [mbind list_bind]. change (mbind ?f ls) with (ls ≫= f). rewrite IH.
  destruct (run_listener_ObjectIs newValue l Hl) as (-> & _).
  unfold call_of. rewrite Ho.
  destruct (Object_is newValue old) eqn:E.
  - apply Object_is_true in E. by rewrite bool_decide_eq_true_2.
  - apply Object_is_false in E. by rewrite bool_decide_eq_false_2.
Qed.

(** A commit in a store whose listeners all come from the current
    [subscribeGlobalState] and have observed its value: when the new value
    is the same value as the old one no callback is called; otherwise every
    callback is called once, in the order of subscription, with the new
    and the old value. *)
Lemma set_value_calls s newValue w st :
  stores w !! s = Some st ->
  Forall (fun l => code l = ObjectIsListener) (listeners st) ->
  observes_value st ->
  callback_calls (set_value s newValue w)
  = callback_calls w
    ++ (if Object_is newValue (value st) then []
        else (fun l => {| callee := callback l; newValueArg := newValue;
                          prevValueArg := value st |}) <$> listeners st).
Proof.
  intros Hs Hcode Hobs.
  destruct (set_value_spec s newValue w st Hs) as (_ & _ & _ & _ & _ & Hc).
  cbn zeta in Hc. rewrite Hc. f_equal.
  apply notify_calls_ObjectIs.
  unfold observes_value in Hobs. rewrite Forall_forall in *.
  intros l Hl. split; [by apply Hcode | apply Hobs; [done | by apply Hcode]].
Qed.

(** The listener registered by the current [subscribeGlobalState] starts
    from the value the store has. *)
Lemma subscribeGlobalState_observes key cb w s st :
  globalStates w !! key = Some s ->
  stores w !! s = Some st ->
  observes_value st ->
  exists st' id,
    subscribeGlobalState key cb w = ((subscribeGlobalState key cb w).1, Some (s, id))
    /\ stores (subscribeGlobalState key cb w).1 !! s = Some st'
    /\ value st' = value st
    /\ listeners st' = listeners st
         ++ [{| lid := id; code := ObjectIsListener; callback := cb;
                prevValue := value st |}]
    /\ observes_value st'.
Proof.
  intros Hk Hs Hobs. unfold subscribeGlobalState, subscribe. rewrite Hk, Hs.
  eexists _, _. cbn [fst snd]. world_simpl. rewrite lookup_insert_eq.
  split; [done|]. split; [done|]. split; [done|].
  rewrite (store_value_Some _ _ _ Hs). split; [done|].
  unfold observes_value. cbn [listeners value]. apply Forall_app. split; [done|].
  by apply Forall_singleton.
Qed.

Lemma Forall_filter_keep {A : Type} (P Q : A -> Prop) `{forall x, Decision (P x)}
    (l : list A) :
  Forall Q l -> Forall Q (filter P l).
Proof.
  rewrite !Forall_forall. intros Hl x Hx.
  apply list_elem_of_filter in Hx as [_ Hx]. by apply Hl.
Qed.

Lemma notify_current (newValue : JSValue) (ls : list Listener) :
  Forall (fun l => code l = ObjectIsListener) ls ->
  Forall (fun l => code l = ObjectIsListener /\ prevValue l = newValue)
    (notify newValue ls).1.
Proof.
  intros Hls. rewrite notify_fst. apply Forall_fmap.
  eapply Forall_impl; [exact Hls|]. intros l Hl. cbn.
  destruct (run_listener_ObjectIs newValue l Hl) as (_ & Hp & _ & Hc).
  split; congruence.
Qed.

Lemma current_listeners_same_stores w w' :
  stores w' = stores w -> current_listeners w -> current_listeners w'.
Proof. intros E H s st Hs. rewrite E in Hs. exact (H s st Hs). Qed.

Lemma current_listeners_insert w w' s st' :
  stores w' = <[s := st']> (stores w) ->
  Forall (fun l => code l = ObjectIsListener) (listeners st') ->
  observes_value st' ->
  current_listeners w -> current_listeners w'.
Proof.
  intros E Hc Ho H s0 st0 Hs0. rewrite E in Hs0.
  destruct (decide (s = s0)) as [->|Hne].
  - rewrite lookup_insert_eq in Hs0. injection Hs0 as <-. done.
  - rewrite lookup_insert_ne in Hs0 by done. exact (H s0 st0 Hs0).
Qed.

Lemma set_value_current s newValue w :
  current_listeners w -> current_listeners (set_value s newValue w).
Proof.
  intros H. destruct (stores w !! s) as [st|] eqn:Hs.
  - destruct (set_value_spec s newValue w st Hs) as (Hst & _).
    destruct (H s st Hs) as [Hc _].
    pose proof (notify_current newValue (listeners st) Hc) as Hn.
    eapply current_listeners_insert; [exact Hst | | | exact H]; cbn.
    + eapply Forall_impl; [exact Hn|]. by intros l [? ?].
    + unfold observes_value. cbn.
      eapply Forall_impl; [exact Hn|]. by intros l [? ?] _.
  - by rewrite set_value_missing.
Qed.

Lemma setValue_current s v w :
  current_listeners w -> current_listeners (setValue s v w).
Proof.
  intros H. unfold setValue. destruct (stores w !! s) as [st|]; [|done].
  assert (forall h nv, current_listeners (set_value s nv (set_heap h w))) as Hheap.
  { intros h nv. apply set_value_current.
    by apply (current_listeners_same_stores w). }
  destruct v; try (case_match; [destruct (spread2 _ _ _) as [h nv]; apply Hheap
                               | by apply set_value_current]).
  destruct (call f (heap w) (value st)) as [h nv]. apply Hheap.
Qed.

Lemma reset_current s w : current_listeners w -> current_listeners (reset s w).
Proof.
  intros H. unfold reset. destruct (stores w !! s); [by apply set_value_current | done].
Qed.

(** The current module keeps its listeners in step with its stores. *)
Lemma step_current w a :
  of_older_module a = false -> current_listeners w -> current_listeners (step w a).
Proof.
  intros Ha H. destruct a; simpl in *; try discriminate.
  - unfold useGlobalState. destruct (globalStates w !! key); [done|].
    case_bool_decide; [destruct (persist_rehydrate _ _ _ _) as [[? ?] ?]|];
      (eapply current_listeners_insert; [world_simpl; reflexivity | | | exact H]);
      cbn; by try apply Forall_nil.
  - unfold useGlobalSelector. destruct (globalStates w !! key); [|done].
    destruct equalityFn; destruct (call _ _ _);
      by apply (current_listeners_same_stores w).
  - unfold setGlobalState. destruct (globalStates w !! key); [by apply setValue_current|].
    case_bool_decide; by apply (current_listeners_same_stores w).
  - unfold subscribeGlobalState. destruct (globalStates w !! key) as [s|].
    + unfold subscribe, store_value. destruct (stores w !! s) as [st|] eqn:Hs; [|done].
      destruct (H s st Hs) as [Hc Ho]. cbn [fst default fmap option_fmap option_map].
      eapply current_listeners_insert; [world_simpl; reflexivity | | | exact H]; cbn.
      * apply Forall_app. split; [done | by apply Forall_singleton].
      * unfold observes_value. cbn. apply Forall_app.
        split; [done | by apply Forall_singleton].
    + case_bool_decide; by apply (current_listeners_same_stores w).
  - unfold resetGlobalState. destruct (globalStates w !! key); [by apply reset_current|].
    case_bool_decide; by apply (current_listeners_same_stores w).
  - by apply setValue_current.
  - by apply reset_current.
  - unfold unsubscribe. destruct u as [[s id]|]; [|done].
    destruct (stores w !! s) as [st|] eqn:Hs; [|done].
    destruct (H s st Hs) as [Hc Ho].
    eapply current_listeners_insert; [world_simpl; reflexivity | | | exact H]; cbn.
    + by apply Forall_filter_keep.
    + unfold observes_value. cbn. by apply Forall_filter_keep.
  - by apply (current_listeners_same_stores w).
  - by apply (current_listeners_same_stores w).
Qed.

Lemma run_current acts w :
  Forall (fun a => of_older_module a = false) acts ->
  current_listeners w -> current_listeners (run acts w).
Proof.
  intros Hacts. revert w. induction Hacts as [|a acts Ha _ IH]; intros w H; [done|].
  simpl. apply IH. by apply step_current.
Qed.

(** The current [subscribeGlobalState] (index.tsx 281-308) has the
    property of C8: after any history of the current module, started when
    the module is loaded, a commit of [newValue] in a store calls the
    callbacks subscribed to it exactly when [newValue] is not the same
    value, under [Object.is], as the value the store had, each once and
    with the new and the previous value. *)
Lemma subscribeGlobalState_calls_exactly_on_change
    env h ls ss acts (s : nat) (newValue : JSValue) (st : Store) :
  Forall (fun a => of_older_module a = false) acts ->
  let w := run acts (loaded env h ls ss) in
  stores w !! s = Some st ->
  callback_calls (set_value s newValue w)
  = callback_calls w
    ++ (if Object_is newValue (value st) then []
        else (fun l => {| callee := callback l; newValueArg := newValue;
                          prevValueArg := value st |}) <$> listeners st).
Proof.
  intros Hacts w Hs.
  assert (current_listeners w) as H.
  { apply run_current; [done|]. intros s0 st0 Hs0. cbn in Hs0.
    by rewrite lookup_empty in Hs0. }
  destruct (H s st Hs) as [Hc Ho]. by apply set_value_calls.
Qed.

End SubscriptionFacts.

(** ** The selector hook of part_002 *)

Section SelectorFacts.
Context `{host : Host}.
Import Part002.

Lemma props_shallow_equal_true (pa pb : gmap string JSValue) :
  props_shallow_equal pa pb = true <-> pa = pb.
Proof.
  unfold props_shallow_equal.
  rewrite andb_true_iff, !bool_decide_eq_true. split.
  - intros [Hsize Hall]. apply map_subseteq_size_eq; [|lia].
    apply map_subseteq_spec. intros k a Hk.
    specialize (Hall k a Hk). cbn beta in Hall.
    destruct (pb !! k) as [b|]; [|done]. cbn in Hall.
    apply Object_is_true in Hall. by subst.
  - intros ->. split; [done|]. intros k a Hk. cbn beta.
    rewrite Hk. cbn. apply Object_is_refl.
Qed.

Lemma shouldUseShallow_true (h : gmap positive (gmap string JSValue)) (v : JSValue) :
  shouldUseShallow h v = true
  <-> typeof v = "object" /\ v <> JSNull /\ React_isValidElement h v = false.
Proof.
  unfold shouldUseShallow.
  rewrite !andb_true_iff, bool_decide_eq_true, !negb_true_iff.
  rewrite <- not_true_iff_false, strict_equal_null. tauto.
Qed.

(** The selector hook of part_002 throws on a missing key like the one of
    index.tsx, before any of its hooks runs. *)
Lemma Part002_useGlobalSelector_throws key (selector : fn) mode (c : CallSite)
    (w : World) :
  globalStates w !! key = None ->
  useGlobalSelector key selector mode c w = (w, c, Rendered (Throw (notFoundMessage key))).
Proof. intros Hk. unfold useGlobalSelector. by rewrite Hk. Qed.

(** What the two return statements give when the hooks are those of the
    previous render. *)
Lemma return_store_useShallow_same (selector : fn) (c : CallSite) (s : nat) (w : World) :
  hooks_changed c true = false ->
  let e := store_useShallow selector (memory c) s w in
  return_store_useShallow selector c s w
  = (e.1.1, RenderedShallow selector (useShallow_prev e.1.2), Rendered (Return e.2)).
Proof.
  intros Hc. cbn zeta. unfold return_store_useShallow. rewrite Hc.
  by destruct (store_useShallow selector (memory c) s w) as [[w2 m2] r].
Qed.

Lemma return_store_plain_same (selector : fn) (c : CallSite) (s : nat) (w : World) :
  hooks_changed c false = false ->
  let e := wrappedSelector selector (memory c) s w in
  return_store_plain selector c s w = (e.1, RenderedPlain selector, Rendered (Return e.2)).
Proof.
  intros Hc. cbn zeta. unfold return_store_plain, store_plain. rewrite Hc.
  by destruct (wrappedSelector selector (memory c) s w) as [w2 r].
Qed.

(** C9, as amended.  With no equality mode given, every render of
    [useGlobalSelector] samples the value selected from the state the store
    has at that render and classifies it then.  At the first render of a
    call site, and at a later render whose sample is classified as the
    sample of the previous render was: when the sample is a non-null object
    or array that is not a React element the render goes through
    [useShallow] (the previous reference is returned when the newly
    selected value is shallowly equal to it, otherwise the new value is
    returned and remembered); in every other case (primitive, [null],
    [undefined], function, React element) it returns the newly selected
    value for React's identity comparison. *)
Theorem auto_mode_classifies_each_render
    key (selector : fn) (c : CallSite) (w : World) (s : nat) :
  globalStates w !! key = Some s ->
  let m := memory c in
  let sampled := wrappedSelector selector m s w in
  let initialValue := sampled.2 in
  let evaluated := wrappedSelector selector m s sampled.1 in
  let next := evaluated.2 in
  let r := useGlobalSelector key selector None c w in
  hooks_changed c (shouldUseShallow (heap sampled.1) initialValue) = false ->
  (shouldUseShallow (heap sampled.1) initialValue = true
   <-> typeof initialValue = "object" /\ initialValue <> JSNull
       /\ React_isValidElement (heap sampled.1) initialValue = false)
  /\ r.1.1 = evaluated.1
  /\ (shouldUseShallow (heap sampled.1) initialValue = true ->
      r.2 = Rendered (Return (if shallow (heap evaluated.1) (useShallow_prev m) next
                              then useShallow_prev m else next))
      /\ r.1.2 = RenderedShallow selector
                   (if shallow (heap evaluated.1) (useShallow_prev m) next
                    then useShallow_prev m else next))
  /\ (shouldUseShallow (heap sampled.1) initialValue = false ->
      r.2 = Rendered (Return next) /\ r.1.2 = RenderedPlain selector).
Proof.
  intros Hk m sampled initialValue evaluated next r Hsame.
  split; [apply shouldUseShallow_true|].
  subst r. unfold useGlobalSelector. rewrite Hk.
  fold m. fold sampled. destruct sampled as [w1 iv] eqn:Es. cbn [fst snd] in *.
  subst initialValue.
  destruct (shouldUseShallow (heap w1) iv) eqn:Hc.
  - rewrite return_store_useShallow_same by done. cbn zeta.
    unfold store_useShallow. fold m. fold evaluated.
    destruct evaluated as [w2 nx] eqn:Ee. cbn [fst snd] in *. subst next.
    destruct (shallow (heap w2) (useShallow_prev m) nx); cbn; by repeat split.
  - rewrite return_store_plain_same by done. cbn zeta. fold m. fold evaluated.
    destruct evaluated as [w2 nx] eqn:Ee. cbn [fst snd] in *. subst next.
    cbn. by repeat split.
Qed.

End SelectorFacts.

(** * The scenarios, the counterexamples and the instances *)

Section Scenarios.
#[local] Existing Instance scenario_host.

(** Scenario A: [counter = 0]; [set(5)] gives 5, [set(prev => prev + 1)]
    gives 6, [reset()] gives 0. *)
Example scenario_A :
  getGlobalState "counter" (run [Call_setValue 0 (num 5)] counter_store) = num 5
  /\ getGlobalState "counter"
       (run [Call_setValue 0 (num 5); Call_setValue 0 (JSFunction 1)] counter_store)
     = num 6
  /\ getGlobalState "counter"
       (run [Call_setValue 0 (num 5); Call_setValue 0 (JSFunction 1); Call_reset 0]
          counter_store)
     = num 0.
Proof. repeat split; vm_compute; reflexivity. Qed.

(** Scenario B: [user = {name: John, age: 30}]; [set({name: Jane})] gives
    an object with the name Jane and the age 30. *)
Example scenario_B :
  let w := setGlobalState "user" (JSObject 2) user_store in
  getGlobalState "user" w = JSObject 6
  /\ heap w !! 6%positive = Some {[ "name" := JSString "Jane"; "age" := num 30 ]}.
Proof. split; vm_compute; reflexivity. Qed.

(** Scenario E with the current [subscribeGlobalState]: [set(5)] twice
    calls the callback once, with 5 and 0. *)
Example scenario_E :
  callback_calls
    (run [Call_subscribeGlobalState "counter" 9; Call_setGlobalState "counter" (num 5);
          Call_setGlobalState "counter" (num 5)] counter_store)
  = [ {| callee := 9; newValueArg := num 5; prevValueArg := num 0 |} ].
Proof. vm_compute. reflexivity. Qed.

(** C1, counterexample.  The store [count] was created with 0 and holds a
    plain object after a functional update; the updater is a plain object;
    yet [set] does not take the merge path: it commits the updater
    itself. *)
Lemma merge_by_current_shape_counterexample :
  typeof (JSObject 2) <> "function"
  /\ plain_object (store_value 0 count_store) = true
  /\ plain_object (JSObject 2) = true
  /\ setValue 0 (JSObject 2) count_store <> shallow_merge_commit 0 (JSObject 2) count_store
  /\ setValue 0 (JSObject 2) count_store = replacement_commit 0 (JSObject 2) count_store
  /\ store_value 0 (setValue 0 (JSObject 2) count_store) = JSObject 2.
Proof.
  split; [discriminate|]. split; [reflexivity|]. split; [reflexivity|].
  split; [|split; vm_compute; reflexivity].
  intros E. apply (f_equal (store_value 0)) in E. vm_compute in E. discriminate.
Qed.

(** C2, counterexample.  The store [user] was created with [null] and
    holds John (name and age); [set({name: Jane})] commits the partial
    itself, and the age of the current value is not in the committed
    value. *)
Lemma partial_update_counterexample :
  let v := getGlobalState "user" nullable_user_store in
  let p := JSObject 2 in
  let w' := setGlobalState "user" p nullable_user_store in
  plain_object v = true /\ plain_object p = true
  /\ spread_props (heap nullable_user_store) v !! "age" = Some (num 30)
  /\ spread_props (heap nullable_user_store) p !! "age" = None
  /\ getGlobalState "user" w' = p
  /\ spread_props (heap w') (getGlobalState "user" w') !! "age" = None.
Proof. repeat split; vm_compute; reflexivity. Qed.

(** C7, counterexample.  In production, [setGlobalState],
    [subscribeGlobalState] and [resetGlobalState] on an unknown key report
    nothing. *)
Lemma silent_in_production_counterexample :
  globalStates production !! "missing" = None
  /\ setGlobalState "missing" (num 1) production <> reported "missing" production
  /\ (subscribeGlobalState "missing" 7 production).1 <> reported "missing" production
  /\ resetGlobalState "missing" production <> reported "missing" production
  /\ console_warn (setGlobalState "missing" (num 1) production) = []
  /\ console_warn (subscribeGlobalState "missing" 7 production).1 = []
  /\ console_warn (resetGlobalState "missing" production) = [].
Proof.
  split; [reflexivity|].
  repeat split; try (vm_compute; reflexivity);
    intros E; apply (f_equal console_warn) in E; vm_compute in E; discriminate.
Qed.

(** C8, the failing input.  The listener of the older
    [subscribeGlobalState] (index.tsx 582-588) is called for a store that
    holds NaN when NaN is committed again: the value is the same value
    under [Object.is], yet the callback is called, and it is called again
    at every further commit of NaN.  From +0 to -0 the value changes under
    [Object.is] and the callback is not called.  The current
    [subscribeGlobalState] (index.tsx 297-307) does neither. *)
Theorem older_subscribeGlobalState_not_NaN_safe :
  let w := (HooksUseGlobalState.subscribeGlobalState "n" 7 NaN_store).1 in
  let z := (HooksUseGlobalState.subscribeGlobalState "z" 7 zero_store).1 in
  Object_is NaN (getGlobalState "n" w) = true
  /\ callback_calls (setGlobalState "n" NaN w)
     = [ {| callee := 7; newValueArg := NaN; prevValueArg := NaN |} ]
  /\ length (callback_calls (setGlobalState "n" NaN (setGlobalState "n" NaN w))) = 2
  /\ Object_is neg_zero (getGlobalState "z" z) = false
  /\ callback_calls (setGlobalState "z" neg_zero z) = []
  /\ callback_calls (setGlobalState "n" NaN (subscribeGlobalState "n" 7 NaN_store).1) = []
  /\ callback_calls (setGlobalState "z" neg_zero (subscribeGlobalState "z" 7 zero_store).1)
     = [ {| callee := 7; newValueArg := neg_zero; prevValueArg := pos_zero |} ].
Proof. repeat split; vm_compute; reflexivity. Qed.

(** The sample is classified at every render: [x => x] on [user] goes
    through [useShallow] while the store holds John, and again once Jane
    has been merged in; the second render finds the reference of the first
    and replaces it. *)
Example auto_mode_classifies_twice :
  let r1 := Part002.useGlobalSelector "user" 0 None Part002.NotRendered user_store in
  let r2 := Part002.useGlobalSelector "user" 0 None r1.1.2 user_store_Jane in
  Part002.shouldUseShallow (heap user_store) (JSObject 1) = true
  /\ r1.2 = Part002.Rendered (Return (JSObject 1))
  /\ r1.1.2 = Part002.RenderedShallow 0 (JSObject 1)
  /\ Part002.shouldUseShallow (heap user_store_Jane) (JSObject 6) = true
  /\ r2.2 = Part002.Rendered (Return (JSObject 6))
  /\ r2.1.2 = Part002.RenderedShallow 0 (JSObject 6).
Proof. repeat split; vm_compute; reflexivity. Qed.

(** C9, counterexample.  The value selected from [el] is a React element,
    a non-null object, at both renders of one call site; it is classified
    for identity at both and [useShallow] is not called.  The second
    render returns the new reference, shallowly equal to the first, where
    shallow comparison (the same two renders with ['shallow']) returns the
    reference of the first render. *)
Lemma auto_mode_counterexample :
  let h := heap element_store_twin in
  let r1 := Part002.useGlobalSelector "el" 0 None Part002.NotRendered element_store in
  let r2 := Part002.useGlobalSelector "el" 0 None r1.1.2 element_store_twin in
  let s1 := Part002.useGlobalSelector "el" 0 (Some Part002.Shallow) Part002.NotRendered
              element_store in
  let s2 := Part002.useGlobalSelector "el" 0 (Some Part002.Shallow) s1.1.2
              element_store_twin in
  (Part002.wrappedSelector 0 Part002.first_render 0 element_store).2 = JSObject 4
  /\ getGlobalState "el" element_store_twin = JSObject 6
  /\ typeof (JSObject 4) = "object" /\ JSObject 4 <> JSNull
  /\ typeof (JSObject 6) = "object" /\ JSObject 6 <> JSNull
  /\ isValidElement h (JSObject 4) = true /\ isValidElement h (JSObject 6) = true
  /\ Part002.shouldUseShallow h (JSObject 4) = false
  /\ Part002.shouldUseShallow h (JSObject 6) = false
  /\ Part002.shallow h (JSObject 4) (JSObject 6) = true
  /\ r1.2 = Part002.Rendered (Return (JSObject 4))
  /\ r1.1.2 = Part002.RenderedPlain 0
  /\ r2.2 = Part002.Rendered (Return (JSObject 6))
  /\ r2.1.2 = Part002.RenderedPlain 0
  /\ s1.2 = Part002.Rendered (Return (JSObject 4))
  /\ s2.2 = Part002.Rendered (Return (JSObject 4))
  /\ s2.1.2 = Part002.RenderedShallow 0 (JSObject 4).
Proof. repeat split; try discriminate; vm_compute; reflexivity. Qed.

(** C1, two instances: [count], created with 0 and holding John, replaces
    by a plain object; [user], created with John, merges an array. *)
Lemma setValue_merges_iff_created_as_object_witness :
  (globalStates development !! "count" = None
   /\ typeof (JSObject 2) <> "function"
   /\ ~ (plain_object (num 0) = true /\ typeof (JSObject 2) = "object"
         /\ JSObject 2 <> JSNull)
   /\ (let r := useGlobalState "count" (num 0) None development in
       let w := run [Call_setValue 0 (JSFunction 2)] r.1 in
       setValue r.2.2 (JSObject 2) w = replacement_commit r.2.2 (JSObject 2) w))
  /\ (globalStates development !! "user" = None
      /\ typeof (JSArray 5) <> "function"
      /\ (plain_object (JSObject 1) = true /\ typeof (JSArray 5) = "object"
          /\ JSArray 5 <> JSNull)
      /\ (let r := useGlobalState "user" (JSObject 1) None development in
          let w := run [] r.1 in
          setValue r.2.2 (JSArray 5) w = shallow_merge_commit r.2.2 (JSArray 5) w)).
Proof.
  assert (~ (plain_object (num 0) = true /\ typeof (JSObject 2) = "object"
             /\ JSObject 2 <> JSNull)) as Hn by (intros [H _]; discriminate H).
  assert (plain_object (JSObject 1) = true /\ typeof (JSArray 5) = "object"
          /\ JSArray 5 <> JSNull) as Hy by (repeat split; discriminate).
  split.
  - split; [reflexivity|]. split; [discriminate|]. split; [exact Hn|].
    exact (proj2 (setValue_merges_iff_created_as_object "count" (num 0) None
                    [Call_setValue 0 (JSFunction 2)] (JSObject 2) development
                    eq_refl ltac:(discriminate)) Hn).
  - split; [reflexivity|]. split; [discriminate|]. split; [exact Hy|].
    exact (proj2 (proj1 (setValue_merges_iff_created_as_object "user" (JSObject 1) None
                           [] (JSArray 5) development
                           eq_refl ltac:(discriminate))) Hy).
Defined.

(** C10, an instance: [count] replaces a plain object, [user] merges an
    array. *)
Lemma merge_or_replace_fixed_at_creation_witness :
  globalStates development !! "count" = None
  /\ plain_object (num 0) = false
  /\ typeof (JSObject 2) <> "function"
  /\ (let r := useGlobalState "count" (num 0) None development in
      let w := run [Call_setValue 0 (JSFunction 2)] r.1 in
      plain_object (store_value r.2.2 w) = true
      /\ setValue r.2.2 (JSObject 2) w = replacement_commit r.2.2 (JSObject 2) w
      /\ store_value r.2.2 (setValue r.2.2 (JSObject 2) w) = JSObject 2
      /\ heap (setValue r.2.2 (JSObject 2) w) = heap w)
  /\ globalStates development !! "user" = None
  /\ plain_object (JSObject 1) = true
  /\ typeof (JSArray 5) = "object" /\ JSArray 5 <> JSNull
  /\ (let r := useGlobalState "user" (JSObject 1) None development in
      let w := run [] r.1 in
      setValue r.2.2 (JSArray 5) w = shallow_merge_commit r.2.2 (JSArray 5) w
      /\ store_value r.2.2 (setValue r.2.2 (JSArray 5) w)
         = JSObject (fresh (dom (heap w)))
      /\ heap (setValue r.2.2 (JSArray 5) w) !! fresh (dom (heap w))
         = Some (spread_props (heap w) (JSArray 5)
                 ∪ spread_props (heap w) (store_value r.2.2 w))).
Proof.
  split; [reflexivity|]. split; [reflexivity|]. split; [discriminate|].
  split.
  { split; [reflexivity|].
    apply (merge_or_replace_fixed_at_creation "count" (num 0) None
             [Call_setValue 0 (JSFunction 2)] development);
      [reflexivity | reflexivity | discriminate]. }
  split; [reflexivity|]. split; [reflexivity|]. split; [reflexivity|].
  split; [discriminate|].
  apply (merge_or_replace_fixed_at_creation "user" (JSObject 1) None [] development);
    [reflexivity | reflexivity | reflexivity | discriminate].
Defined.

(** C2, an instance: scenario B. *)
Lemma partial_update_merges_witness :
  globalStates development !! "user" = None
  /\ plain_object (JSObject 1) = true
  /\ plain_object (store_value 0 user_store) = true
  /\ plain_object (JSObject 2) = true
  /\ (let r := useGlobalState "user" (JSObject 1) None development in
      let w := run [] r.1 in
      let v := store_value r.2.2 w in
      let w' := setValue r.2.2 (JSObject 2) w in
      exists l merged,
        store_value r.2.2 w' = JSObject l
        /\ heap w !! l = None
        /\ heap w' !! l = Some merged
        /\ merged = spread_props (heap w) (JSObject 2) ∪ spread_props (heap w) v
        /\ (forall k x, spread_props (heap w) (JSObject 2) !! k = Some x ->
              merged !! k = Some x)
        /\ (forall k, spread_props (heap w) (JSObject 2) !! k = None ->
              merged !! k = spread_props (heap w) v !! k)
        /\ (forall l', l' <> l -> heap w' !! l' = heap w !! l')).
Proof.
  split; [reflexivity|]. split; [reflexivity|]. split; [reflexivity|].
  split; [reflexivity|].
  apply (partial_update_merges "user" (JSObject 1) None [] (JSObject 2) development);
    reflexivity.
Defined.

(** C3, an instance: [counter] holding 5 and [prev => prev + 1]. *)
Lemma functional_update_replaces_witness :
  let w := run [Call_setValue 0 (num 5)] counter_store in
  let st := {| value := num 5; initialState := num 0; isObject := false;
               persistence := None; listeners := []; subscriptions := 0 |} in
  stores w !! 0 = Some st
  /\ globalStates w !! "counter" = Some 0
  /\ store_value 0 (setValue 0 (JSFunction 1) w) = (call 1 (heap w) (num 5)).2
  /\ heap (setValue 0 (JSFunction 1) w) = (call 1 (heap w) (num 5)).1
  /\ getGlobalState "counter" (setGlobalState "counter" (JSFunction 1) w)
     = (call 1 (heap w) (num 5)).2
  /\ (call 1 (heap w) (num 5)).2 = num 6.
Proof.
  intros w st.
  assert (stores w !! 0 = Some st) as Hs by (vm_compute; reflexivity).
  assert (globalStates w !! "counter" = Some 0) as Hk by (vm_compute; reflexivity).
  pose proof (functional_update_replaces 0 1 w st Hs) as H.
  split; [exact Hs|]. split; [exact Hk|].
  split; [exact (proj1 H)|]. split; [exact (proj1 (proj2 H))|].
  split; [exact (proj2 (proj2 (proj2 H)) "counter" Hk)|].
  vm_compute; reflexivity.
Defined.

(** C4, an instance: [user] after a partial update. *)
Lemma reset_restores_initial_witness :
  globalStates development !! "user" = None
  /\ (let r := useGlobalState "user" (JSObject 1) None development in
      let s := r.2.2 in
      let w := run [Call_setGlobalState "user" (JSObject 2)] r.1 in
      globalStates w !! "user" = Some s
      /\ store_value s w = JSObject 6
      /\ reset s w = replacement_commit s (JSObject 1) w
      /\ store_value s (reset s w) = JSObject 1
      /\ heap (reset s w) = heap w
      /\ getGlobalState "user" (resetGlobalState "user" w) = JSObject 1
      /\ (forall acts', store_value s (reset s (run acts' (reset s w))) = JSObject 1)).
Proof.
  split; [reflexivity|].
  pose proof (reset_restores_initial "user" (JSObject 1) None
                [Call_setGlobalState "user" (JSObject 2)] development eq_refl) as H.
  cbn zeta in H. cbn zeta.
  split; [vm_compute; reflexivity|]. split; [vm_compute; reflexivity|].
  split; [exact (proj1 H)|]. split; [exact (proj1 (proj2 H))|].
  split; [exact (proj1 (proj2 (proj2 H)))|].
  split; [|exact (proj2 (proj2 (proj2 (proj2 H))))].
  apply (proj1 (proj2 (proj2 (proj2 H)))). vm_compute; reflexivity.
Defined.

(** C5, an instance: scenario D. *)
Lemma useGlobalState_existing_key_is_noop_witness :
  globalStates development !! "k" = None
  /\ default none (None ≫= storage) = none
  /\ (let r1 := useGlobalState "k" (num 1) None development in
      let r2 := useGlobalState "k" (num 99) None r1.1 in
      globalStates r1.1 !! "k" = Some 0
      /\ useGlobalState "k" (num 99) None r1.1 = (r1.1, (store_value 0 r1.1, 0))
      /\ r2.1 = r1.1 /\ r1.2.1 = num 1 /\ r2.2.1 = num 1 /\ r2.2.2 = r1.2.2
      /\ getGlobalState "k" r2.1 = num 1).
Proof.
  split; [reflexivity|]. split; [reflexivity|].
  cbn zeta.
  assert (globalStates (useGlobalState "k" (num 1) None development).1 !! "k" = Some 0)
    as Hk by (vm_compute; reflexivity).
  split; [exact Hk|].
  split.
  - exact (proj1 (proj1 (useGlobalState_existing_key_is_noop "k" (num 1) (num 99)
                           None None (useGlobalState "k" (num 1) None development).1)
                    0 Hk)).
  - apply (proj2 (proj2 (useGlobalState_existing_key_is_noop "k" (num 1) (num 99)
                           None None development)));
      reflexivity.
Defined.

(** C6, an instance: [ghost] is never created while [counter] is used. *)
Lemma hooks_throw_on_missing_key_witness :
  let acts := [Call_useGlobalState "counter" (num 0) None;
               Call_setGlobalState "counter" (num 5);
               Call_setGlobalState "ghost" (num 1)] in
  globalStates development !! "ghost" = None
  /\ Forall (fun a => creates "ghost" a = false) acts
  /\ useGlobalSelector "ghost" 0 None (run acts development)
     = (run acts development, Throw (notFoundMessage "ghost"))
  /\ useGlobalSetter "ghost" (run acts development)
     = (run acts development, Throw (notFoundMessage "ghost")).
Proof.
  intros acts.
  assert (Forall (fun a => creates "ghost" a = false) acts) as Hacts
    by (repeat constructor).
  split; [reflexivity|]. split; [exact Hacts|].
  pose proof (hooks_throw_on_missing_key "ghost" 0 None acts development
                eq_refl Hacts) as H.
  split; [exact (proj1 H) | exact (proj1 (proj2 H))].
Defined.

(** C7, an instance: an unknown key in development. *)
Lemma soft_failure_on_missing_key_witness :
  globalStates development !! "missing" = None
  /\ setGlobalState "missing" (num 1) development = reported "missing" development
  /\ subscribeGlobalState "missing" 7 development
     = (reported "missing" development, None)
  /\ resetGlobalState "missing" development = reported "missing" development
  /\ getGlobalState "missing" development = JSUndefined.
Proof.
  pose proof (soft_failure_on_missing_key "missing" (num 1) 7 development eq_refl) as H.
  split; [reflexivity|].
  split; [exact (proj1 H)|].
  split; [exact (proj1 (proj2 H))|].
  split; [exact (proj1 (proj2 (proj2 (proj2 H))))|].
  exact (proj1 (proj2 (proj2 (proj2 (proj2 H))))).
Defined.

(** C9, three instances: at a first render the value selected from
    [user] is a plain object and the render goes through [useShallow]; at
    the next render of that call site the sample is again a plain object
    and [useShallow] replaces the reference it kept; the value selected
    from [el] is a React element and the render returns it as it is. *)
Lemma auto_mode_classifies_each_render_witness :
  (globalStates user_store !! "user" = Some 0
   /\ Part002.hooks_changed Part002.NotRendered
        (Part002.shouldUseShallow (heap user_store) (JSObject 1)) = false
   /\ Part002.shouldUseShallow (heap user_store) (JSObject 1) = true
   /\ (Part002.useGlobalSelector "user" 0 None Part002.NotRendered user_store).2
      = Part002.Rendered (Return (JSObject 1))
   /\ (Part002.useGlobalSelector "user" 0 None Part002.NotRendered user_store).1.2
      = Part002.RenderedShallow 0 (JSObject 1))
  /\ (globalStates user_store_Jane !! "user" = Some 0
      /\ Part002.hooks_changed (Part002.RenderedShallow 0 (JSObject 1))
           (Part002.shouldUseShallow (heap user_store_Jane) (JSObject 6)) = false
      /\ Part002.shouldUseShallow (heap user_store_Jane) (JSObject 6) = true
      /\ (Part002.useGlobalSelector "user" 0 None
            (Part002.RenderedShallow 0 (JSObject 1)) user_store_Jane).2
         = Part002.Rendered (Return (JSObject 6))
      /\ (Part002.useGlobalSelector "user" 0 None
            (Part002.RenderedShallow 0 (JSObject 1)) user_store_Jane).1.2
         = Part002.RenderedShallow 0 (JSObject 6))
  /\ (globalStates element_store !! "el" = Some 0
      /\ Part002.hooks_changed Part002.NotRendered
           (Part002.shouldUseShallow (heap element_store) (JSObject 4)) = false
      /\ Part002.shouldUseShallow (heap element_store) (JSObject 4) = false
      /\ (Part002.useGlobalSelector "el" 0 None Part002.NotRendered element_store).2
         = Part002.Rendered (Return (JSObject 4))
      /\ (Part002.useGlobalSelector "el" 0 None Part002.NotRendered element_store).1.2
         = Part002.RenderedPlain 0).
Proof.
  pose proof (auto_mode_classifies_each_render "user" 0 Part002.NotRendered
                user_store 0 eq_refl eq_refl) as H.
  pose proof (auto_mode_classifies_each_render "user" 0
                (Part002.RenderedShallow 0 (JSObject 1)) user_store_Jane 0
                eq_refl eq_refl) as H2.
  pose proof (auto_mode_classifies_each_render "el" 0 Part002.NotRendered
                element_store 0 eq_refl eq_refl) as H'.
  split; [|split].
  - split; [reflexivity|]. split; [reflexivity|]. split; [reflexivity|].
    exact (proj1 (proj2 (proj2 H)) eq_refl).
  - split; [reflexivity|]. split; [reflexivity|]. split; [reflexivity|].
    exact (proj1 (proj2 (proj2 H2)) eq_refl).
  - split; [reflexivity|]. split; [reflexivity|]. split; [reflexivity|].
    exact (proj2 (proj2 (proj2 H')) eq_refl).
Defined.

End Scenarios.

(** * Further properties of index.tsx *)

Section MoreRegistryFacts.
Context `{host : Host}.

Lemma stores_set_value_other s s' newValue w :
  s' <> s -> stores (set_value s newValue w) !! s' = stores w !! s'.
Proof.
  intros Hne. destruct (stores w !! s) as [st|] eqn:Hs.
  - destruct (set_value_spec s newValue w st Hs) as (-> & _).
    by rewrite lookup_insert_ne.
  - by rewrite set_value_missing.
Qed.

Lemma stores_setValue_other s s' v w :
  s' <> s -> stores (setValue s v w) !! s' = stores w !! s'.
Proof.
  intros Hne. unfold setValue. destruct (stores w !! s) as [st|]; [|done].
  destruct v; try (case_match; [destruct (spread2 _ _ _)|];
                   by rewrite stores_set_value_other).
  destruct (call _ _ _). by rewrite stores_set_value_other.
Qed.

Lemma stores_reset_other s s' w :
  s' <> s -> stores (reset s w) !! s' = stores w !! s'.
Proof.
  intros Hne. unfold reset. destruct (stores w !! s); [|done].
  by apply stores_set_value_other.
Qed.

(** What a step does to the [globalStates] map. *)
Lemma globalStates_step w a :
  globalStates (step w a)
  = match a with
    | Call_useGlobalState key _ _ =>
        match globalStates w !! key with
        | Some _ => globalStates w
        | None => <[key := fresh (dom (stores w))]> (globalStates w)
        end
    | Call_clearAllStates => ∅
    | _ => globalStates w
    end.
Proof.
  destruct a; simpl.
  - unfold useGlobalState. destruct (globalStates w !! key); [done|].
    case_bool_decide; [destruct (persist_rehydrate _ _ _ _) as [[? ?] ?]|]; done.
  - unfold useGlobalSelector. destruct (globalStates w !! key); [|done].
    by destruct equalityFn; destruct (call _ _ _).
  - unfold setGlobalState. destruct (globalStates w !! key).
    + apply globalStates_setValue.
    + by case_bool_decide.
  - unfold subscribeGlobalState. destruct (globalStates w !! key).
    + apply globalStates_subscribe.
    + by case_bool_decide.
  - unfold HooksUseGlobalState.subscribeGlobalState. destruct (globalStates w !! key).
    + apply globalStates_subscribe.
    + by case_bool_decide.
  - unfold resetGlobalState. destruct (globalStates w !! key).
    + apply globalStates_reset.
    + by case_bool_decide.
  - apply globalStates_setValue.
  - apply globalStates_reset.
  - unfold unsubscribe. destruct u as [[s id]|]; [|done]. by destruct (stores w !! s).
  - done.
  - done.
Qed.

Lemma step_registry_wf w a : registry_wf w -> registry_wf (step w a).
Proof.
  intros [Hex Hinj].
  assert (forall s, is_Some (stores w !! s) -> is_Some (stores (step w a) !! s)) as Hkept.
  { intros s [st Hs]. destruct (step_kept w a s st Hs) as (st' & Hs' & _). by exists st'. }
  unfold registry_wf. rewrite globalStates_step.
  destruct a as [key initial options| | | | | | | | | |];
    try (split; [intros k0 s0 Hk0; apply Hkept; by eapply Hex | exact Hinj]).
  - destruct (globalStates w !! key) as [s0|] eqn:Hkey;
      [split; [intros k s Hk; apply Hkept; by eapply Hex | exact Hinj]|].
    assert (forall k, globalStates w !! k <> Some (fresh (dom (stores w)))) as Hfresh.
    { intros k Hk. apply Hex in Hk as [st Hst]. by rewrite fresh_store_None in Hst. }
    split.
    + intros k s Hk. destruct (decide (key = k)) as [->|Hne].
      * rewrite lookup_insert_eq in Hk. injection Hk as <-.
        destruct (useGlobalState_creates k initial options w Hkey) as (st & Hs & _).
        simpl. unfold useGlobalState in *. rewrite Hkey in *.
        cbn [fst snd] in Hs. by exists st.
      * rewrite lookup_insert_ne in Hk by done. apply Hkept. by eapply Hex.
    + intros k1 k2 s Hk1 Hk2.
      destruct (decide (key = k1)) as [<-|Hne1]; destruct (decide (key = k2)) as [<-|Hne2];
        try done.
      * rewrite lookup_insert_eq in Hk1. rewrite lookup_insert_ne in Hk2 by done.
        injection Hk1 as <-. by apply Hfresh in Hk2.
      * rewrite lookup_insert_eq in Hk2. rewrite lookup_insert_ne in Hk1 by done.
        injection Hk2 as <-. by apply Hfresh in Hk1.
      * rewrite lookup_insert_ne in Hk1, Hk2 by done. by eapply Hinj.
  - split; intros ?; intros; by rewrite lookup_empty in *.
Qed.

Lemma run_registry_wf acts w : registry_wf w -> registry_wf (run acts w).
Proof.
  revert w. induction acts as [|a acts IH]; intros w H; [done|].
  simpl. apply IH. by apply step_registry_wf.
Qed.

Lemma loaded_registry_wf env h ls ss : registry_wf (loaded env h ls ss).
Proof.
  split; [intros k s Hk | intros k1 k2 s Hk _]; cbn in Hk; by rewrite lookup_empty in Hk.
Qed.

(** X1.  After any history of the loaded module every key of the registry
    refers to a store that exists, and no store is registered under two
    keys. *)
Theorem registry_stays_well_formed env h ls ss acts :
  let w := run acts (loaded env h ls ss) in
  (forall k s, globalStates w !! k = Some s -> is_Some (stores w !! s))
  /\ (forall k1 k2 s, globalStates w !! k1 = Some s -> globalStates w !! k2 = Some s ->
        k1 = k2).
Proof. apply run_registry_wf, loaded_registry_wf. Qed.

(** X2.  Keys are independent: after any history of the loaded module, a
    write or a reset through one key leaves the store of every other key
    exactly as it was (value, closure and listeners), so the other key
    reads the same value. *)
Theorem writes_leave_other_keys_alone env h ls ss acts (k1 k2 : string) (v : JSValue) :
  k1 <> k2 ->
  let w := run acts (loaded env h ls ss) in
  (forall s2, globalStates w !! k2 = Some s2 ->
     stores (setGlobalState k1 v w) !! s2 = stores w !! s2
     /\ stores (resetGlobalState k1 w) !! s2 = stores w !! s2)
  /\ getGlobalState k2 (setGlobalState k1 v w) = getGlobalState k2 w
  /\ getGlobalState k2 (resetGlobalState k1 w) = getGlobalState k2 w.
Proof.
  intros Hne w.
  destruct (run_registry_wf acts _ (loaded_registry_wf env h ls ss)) as [_ Hinj].
  fold w in Hinj.
  assert (forall s2, globalStates w !! k2 = Some s2 ->
            stores (setGlobalState k1 v w) !! s2 = stores w !! s2
            /\ stores (resetGlobalState k1 w) !! s2 = stores w !! s2) as Hst.
  { intros s2 Hk2. unfold setGlobalState, resetGlobalState.
    destruct (globalStates w !! k1) as [s1|] eqn:Hk1.
    - assert (s2 <> s1) by (intros ->; by apply Hne, (Hinj k1 k2 s1)).
      split; [by apply stores_setValue_other | by apply stores_reset_other].
    - by case_bool_decide. }
  split; [exact Hst|].
  assert (globalStates (setGlobalState k1 v w) = globalStates w) as Hg1
    by apply (globalStates_step w (Call_setGlobalState k1 v)).
  assert (globalStates (resetGlobalState k1 w) = globalStates w) as Hg2
    by apply (globalStates_step w (Call_resetGlobalState k1)).
  unfold getGlobalState, store_value. rewrite Hg1, Hg2.
  destruct (globalStates w !! k2) as [s2|] eqn:Hk2; [|done].
  destruct (Hst s2 eq_refl) as [-> ->]. done.
Qed.

(** X3.  A value that is neither a function nor a non-null object always
    replaces: for a key with a store, however the store was created and
    whatever it holds, [setGlobalState] with a primitive, [null] or
    [undefined] makes [getGlobalState] return that very value, and no
    object is created. *)
Theorem primitive_updater_round_trip key (v : JSValue) (w : World) s st :
  globalStates w !! key = Some s ->
  stores w !! s = Some st ->
  typeof v <> "function" ->
  typeof v <> "object" \/ v = JSNull ->
  getGlobalState key (setGlobalState key v w) = v
  /\ heap (setGlobalState key v w) = heap w.
Proof.
  intros Hk Hs Hfun Hprim.
  assert (setGlobalState key v w = replacement_commit s v w) as E.
  { unfold setGlobalState. rewrite Hk, (setValue_branches s v w st Hs).
    assert (isObject st && bool_decide (typeof v = "object")
            && negb (strict_equal v JSNull) = false) as ->.
    { apply not_true_iff_false. rewrite merge_condition.
      intros (_ & Hobj & Hnull). by destruct Hprim. }
    destruct v; try reflexivity. by destruct Hfun. }
  rewrite E. destruct (replacement_commit_spec s v w) as [Hv Hh]; [by exists st|].
  split; [|done]. unfold getGlobalState.
  unfold replacement_commit at 1. by rewrite globalStates_set_value, Hk.
Qed.

(** X4.  [setValue] with an updater that is not a function never changes
    an object in place: every object of the heap, the current value, the
    initial value and the updater among them, is the same afterwards; the
    merge only adds its new object. *)
Theorem setValue_never_mutates_objects (s : nat) (v : JSValue) (w : World) :
  typeof v <> "function" ->
  forall l ps, heap w !! l = Some ps -> heap (setValue s v w) !! l = Some ps.
Proof.
  intros Hfun l ps Hl.
  destruct (stores w !! s) as [st|] eqn:Hs.
  - rewrite (setValue_branches s v w st Hs).
    assert (match v with
            | JSFunction f =>
                let '(h, newValue) := call f (heap w) (value st) in
                set_value s newValue (set_heap h w)
            | _ =>
                if isObject st && bool_decide (typeof v = "object")
                   && negb (strict_equal v JSNull)
                then shallow_merge_commit s v w
                else replacement_commit s v w
            end
            = if isObject st && bool_decide (typeof v = "object")
                 && negb (strict_equal v JSNull)
              then shallow_merge_commit s v w
              else replacement_commit s v w) as ->.
    { destruct v; try reflexivity. by destruct Hfun. }
    case_match.
    + destruct (shallow_merge_commit_spec s v w) as [_ ->]; [by exists st|].
      rewrite lookup_insert_ne; [done|].
      intros <-. by rewrite fresh_heap_None in Hl.
    + destruct (replacement_commit_spec s v w) as [_ ->]; [by exists st|]. done.
  - unfold setValue. by rewrite Hs.
Qed.

End MoreRegistryFacts.

Section MediaFacts.
Context `{host : Host}.

Lemma setValue_is_commit s v w st :
  stores w !! s = Some st ->
  exists h newValue, setValue s v w = set_value s newValue (set_heap h w).
Proof.
  intros Hs. unfold setValue. rewrite Hs.
  assert (forall nv, set_value s nv w = set_value s nv (set_heap (heap w) w)) as Hsame
    by (intros nv; by destruct w).
  destruct v; try (case_match; [destruct (spread2 _ _ _) as [h nv]; by exists h, nv
                               | eexists _, _; apply Hsame]).
  destruct (call f (heap w) (value st)) as [h nv]. by exists h, nv.
Qed.

Lemma set_value_media s newValue w st :
  stores w !! s = Some st ->
  match persistence st with
  | None =>
      localStorage_medium (set_value s newValue w) = localStorage_medium w
      /\ sessionStorage_medium (set_value s newValue w) = sessionStorage_medium w
  | Some (_, localStorage) =>
      sessionStorage_medium (set_value s newValue w) = sessionStorage_medium w
  | Some (_, _) =>
      localStorage_medium (set_value s newValue w) = localStorage_medium w
  end.
Proof.
  intros Hs. unfold set_value. rewrite Hs.
  destruct (notify newValue (listeners st)) as [l c].
  destruct (persistence st) as [[name [| |]]|]; by cbn.
Qed.

(** A persisted store writes its own entry of its own medium. *)
Lemma set_value_persisted s newValue w st name m :
  stores w !! s = Some st ->
  persistence st = Some (name, m) ->
  storageImpl m (set_value s newValue w)
  = persist_setItem (storageImpl m w) name (heap w) newValue
  /\ otherStorage m (set_value s newValue w) = otherStorage m w.
Proof.
  intros Hs Hp. unfold set_value. rewrite Hs, Hp.
  destruct (notify newValue (listeners st)) as [l c].
  by destruct m.
Qed.

Lemma setValue_persisted s v w st name m :
  stores w !! s = Some st ->
  persistence st = Some (name, m) ->
  storageImpl m (setValue s v w)
  = persist_setItem (storageImpl m w) name (heap (setValue s v w))
      (store_value s (setValue s v w))
  /\ otherStorage m (setValue s v w) = otherStorage m w.
Proof.
  intros Hs Hp.
  destruct (setValue_is_commit s v w st Hs) as (h' & nv & ->).
  assert (stores (set_heap h' w) !! s = Some st) as Hs' by done.
  destruct (set_value_persisted s nv (set_heap h' w) st name m Hs' Hp) as [-> ->].
  rewrite store_value_set_value by (by exists st).
  destruct (set_value_spec s nv (set_heap h' w) st Hs') as (_ & _ & -> & _).
  split; by destruct m.
Qed.

Lemma reset_persisted s w st name m :
  stores w !! s = Some st ->
  persistence st = Some (name, m) ->
  storageImpl m (reset s w)
  = persist_setItem (storageImpl m w) name (heap w) (initialState st)
  /\ otherStorage m (reset s w) = otherStorage m w.
Proof.
  intros Hs Hp. unfold reset. rewrite Hs.
  exact (set_value_persisted s (initialState st) w st name m Hs Hp).
Qed.

Lemma setValue_unpersisted s v w st :
  stores w !! s = Some st ->
  persistence st = None ->
  localStorage_medium (setValue s v w) = localStorage_medium w
  /\ sessionStorage_medium (setValue s v w) = sessionStorage_medium w
  /\ localStorage_medium (reset s w) = localStorage_medium w
  /\ sessionStorage_medium (reset s w) = sessionStorage_medium w.
Proof.
  intros Hs Hp.
  destruct (setValue_is_commit s v w st Hs) as (h' & nv & ->).
  pose proof (set_value_media s nv (set_heap h' w) st Hs) as Hm.
  rewrite Hp in Hm. destruct Hm as [-> ->].
  pose proof (set_value_media s (initialState st) w st Hs) as Hm.
  rewrite Hp in Hm. unfold reset. rewrite Hs. destruct Hm as [-> ->].
  by repeat split.
Qed.

(** The creation of a persisted store. *)
Lemma useGlobalState_creates_persisted key initial options w :
  globalStates w !! key = None ->
  let m := default none (options ≫= storage) in
  let name := default "global-state" (options ≫= storageKey) +:+ "-" +:+ key in
  let hydrated := persist_rehydrate (storageImpl m w) name (heap w) initial in
  let r := useGlobalState key initial options w in
  m <> none ->
  exists st,
    stores r.1 !! r.2.2 = Some st
    /\ persistence st = Some (name, m)
    /\ initialState st = initial
    /\ value st = hydrated.2
    /\ r.2.1 = hydrated.2
    /\ storageImpl m r.1 = hydrated.1.1
    /\ otherStorage m r.1 = otherStorage m w.
Proof.
  intros Hk m name hydrated r Hm.
  subst r hydrated. unfold useGlobalState. rewrite Hk. fold m. fold name.
  rewrite bool_decide_eq_true_2 by done.
  destruct (persist_rehydrate _ _ _ _) as [[c h'] v0].
  eexists. cbn [fst snd]. unfold store_value. world_simpl. rewrite lookup_insert_eq.
  repeat split; by destruct m.
Qed.

End MediaFacts.

Section ClearAndClosures.
Context `{host : Host}.

Lemma useGlobalState_fresh key initial options w :
  globalStates w !! key = None ->
  (useGlobalState key initial options w).2.2 = fresh (dom (stores w)).
Proof.
  intros Hk. unfold useGlobalState. rewrite Hk.
  case_bool_decide; [destruct (persist_rehydrate _ _ _ _) as [[? ?] ?]|]; done.
Qed.

(** X5.  [__clearAllStates__] forgets every key and nothing else: reads
    give [undefined] and the hooks throw, while the store objects, the
    heap, the recorded calls and the storage media stay.  Creating a key
    afterwards, with any options, makes a new store object whose initial
    value is that of the call; without persistence it starts from that
    value, whatever the key held before, and with persistence from what
    [persist] rehydrates from the medium, which the clear has left as it
    was. *)
Theorem clearAllStates_forgets_every_key
    key (initial : JSValue) (options : option UseGlobalStateOptions) (w : World) :
  let w' := __clearAllStates__ w in
  let m := default none (options ≫= storage) in
  let name := default "global-state" (options ≫= storageKey) +:+ "-" +:+ key in
  getGlobalState key w' = JSUndefined
  /\ useGlobalSetter key w' = (w', Throw (notFoundMessage key))
  /\ (forall selector equalityFn,
        useGlobalSelector key selector equalityFn w' = (w', Throw (notFoundMessage key)))
  /\ stores w' = stores w /\ heap w' = heap w /\ callback_calls w' = callback_calls w
  /\ localStorage_medium w' = localStorage_medium w
  /\ sessionStorage_medium w' = sessionStorage_medium w
  /\ (let r := useGlobalState key initial options w' in
      stores w !! r.2.2 = None
      /\ (exists st,
            stores r.1 !! r.2.2 = Some st /\ initialState st = initial
            /\ r.2.1 = value st /\ getGlobalState key r.1 = value st)
      /\ (m = none -> r.2.1 = initial /\ getGlobalState key r.1 = initial)
      /\ (m <> none ->
          r.2.1 = (persist_rehydrate (storageImpl m w) name (heap w) initial).2)).
Proof.
  intros w' m name.
  assert (globalStates w' !! key = None) as Hk by apply lookup_empty.
  unfold getGlobalState, useGlobalSetter, useGlobalSelector. rewrite Hk.
  do 8 (split; [done|]).
  destruct (useGlobalState_creates key initial options w' Hk)
    as (st & Hs & Hi & _ & _ & Hv & Hg & Hn).
  assert (globalStates (useGlobalState key initial options w').1 !! key
          = Some (useGlobalState key initial options w').2.2) as Hnew
    by (by rewrite Hg, lookup_insert_eq).
  split; [|split; [|split]].
  - rewrite (useGlobalState_fresh key initial options w' Hk).
    exact (fresh_store_None w').
  - exists st. rewrite Hnew. unfold store_value. rewrite Hs. by repeat split.
  - intros Hm. destruct (Hn Hm) as (Hvi & _). rewrite Hnew. unfold store_value.
    rewrite Hs. cbn. split; congruence.
  - intros Hm.
    destruct (useGlobalState_creates_persisted key initial options w' Hk Hm)
      as (st' & _ & _ & _ & _ & Hr & _).
    exact Hr.
Qed.

(** X6.  A setter or a reset function obtained before
    [__clearAllStates__] stays bound to the store it was made for.  Once
    the key has been created again, calling it changes the old store
    object and no other, leaves the registry as it is, and does not affect
    the value read through the key.  The old store keeps its persistence:
    when it has none the media are not written; when it has one, the call
    writes the committed value under the old name of the old medium, which
    is the entry of the new store when the key was created again with the
    same storage options. *)
Theorem setter_from_before_clear_is_detached
    key (initial v : JSValue) options (w : World) (s : nat) (st : Store) :
  globalStates w !! key = Some s ->
  stores w !! s = Some st ->
  let r := useGlobalState key initial options (__clearAllStates__ w) in
  r.2.2 <> s
  /\ (forall s', s' <> s ->
        stores (setValue s v r.1) !! s' = stores r.1 !! s'
        /\ stores (reset s r.1) !! s' = stores r.1 !! s')
  /\ globalStates (setValue s v r.1) = globalStates r.1
  /\ globalStates (reset s r.1) = globalStates r.1
  /\ getGlobalState key (setValue s v r.1) = getGlobalState key r.1
  /\ getGlobalState key (reset s r.1) = getGlobalState key r.1
  /\ store_value s (reset s r.1) = initialState st
  /\ match persistence st with
     | None =>
         localStorage_medium (setValue s v r.1) = localStorage_medium r.1
         /\ sessionStorage_medium (setValue s v r.1) = sessionStorage_medium r.1
         /\ localStorage_medium (reset s r.1) = localStorage_medium r.1
         /\ sessionStorage_medium (reset s r.1) = sessionStorage_medium r.1
     | Some (name, m) =>
         storageImpl m (setValue s v r.1)
         = persist_setItem (storageImpl m r.1) name (heap (setValue s v r.1))
             (store_value s (setValue s v r.1))
         /\ storageImpl m (reset s r.1)
            = persist_setItem (storageImpl m r.1) name (heap r.1) (initialState st)
         /\ otherStorage m (setValue s v r.1) = otherStorage m r.1
         /\ otherStorage m (reset s r.1) = otherStorage m r.1
         /\ (default none (options ≫= storage) <> none ->
             (name, m) = (default "global-state" (options ≫= storageKey) +:+ "-" +:+ key,
                          default none (options ≫= storage)) ->
             exists st', stores r.1 !! r.2.2 = Some st'
                         /\ persistence st' = Some (name, m))
     end.
Proof.
  intros Hk Hs r.
  assert (globalStates (__clearAllStates__ w) !! key = None) as Hc by apply lookup_empty.
  assert (r.2.2 <> s) as Hne.
  { subst r. rewrite (useGlobalState_fresh key initial options _ Hc). cbn.
    intros <-. by rewrite fresh_store_None in Hs. }
  destruct (useGlobalState_creates key initial options _ Hc)
    as (st' & Hs' & _ & _ & _ & _ & Hg & _).
  fold r in Hs', Hg.
  destruct (useGlobalState_kept key initial options (__clearAllStates__ w) s st Hs)
    as (st1 & Hs1 & Hi & _ & Hp).
  fold r in Hs1.
  split; [done|].
  split; [intros s0 Hs0; by rewrite stores_setValue_other, stores_reset_other|].
  rewrite globalStates_setValue, globalStates_reset.
  do 2 (split; [done|]).
  unfold getGlobalState.
  rewrite globalStates_setValue, globalStates_reset, Hg, lookup_insert_eq.
  unfold store_value at 1 2 3 4.
  rewrite stores_setValue_other, stores_reset_other by done.
  do 2 (split; [done|]).
  split.
  { unfold reset. rewrite Hs1, <- Hi.
    fold (store_value s (set_value s (initialState st1) r.1)).
    apply store_value_set_value. by exists st1. }
  rewrite <- Hp, <- Hi.
  destruct (persistence st1) as [[name m]|] eqn:Hp1.
  - destruct (setValue_persisted s v r.1 st1 name m Hs1 Hp1) as [H1 H2].
    destruct (reset_persisted s r.1 st1 name m Hs1 Hp1) as [H3 H4].
    do 4 (split; [done|]).
    intros Hm E.
    destruct (useGlobalState_creates_persisted key initial options _ Hc Hm)
      as (st2 & Hs2 & Hp2 & _).
    exists st2. split; [exact Hs2|]. by rewrite E.
  - exact (setValue_unpersisted s v r.1 st1 Hs1 Hp1).
Qed.

(** X7.  No operation destroys a store object or changes what it was
    created with: through any history, [__clearAllStates__] included, a
    store keeps its initial value, its merge flag [isObject] and its
    [persist] options. *)
Theorem store_closure_never_changes acts (w : World) (s : nat) (st : Store) :
  stores w !! s = Some st ->
  exists st',
    stores (run acts w) !! s = Some st'
    /\ initialState st' = initialState st
    /\ isObject st' = isObject st
    /\ persistence st' = persistence st.
Proof. intros Hs. exact (run_kept acts w s st Hs). Qed.

End ClearAndClosures.

Section MoreSubscriptionFacts.
Context `{host : Host}.

Lemma lid_run_listener newValue l : lid (run_listener newValue l).1 = lid l.
Proof. unfold run_listener. by case_match. Qed.

Lemma listeners_wf_same_stores w w' :
  stores w' = stores w -> listeners_wf w -> listeners_wf w'.
Proof. intros E H s st Hs. rewrite E in Hs. exact (H s st Hs). Qed.

Lemma listeners_wf_insert w w' s st' :
  stores w' = <[s := st']> (stores w) ->
  Forall (fun l => lid l < subscriptions st') (listeners st') ->
  listeners_wf w -> listeners_wf w'.
Proof.
  intros E Hl H s0 st0 Hs0. rewrite E in Hs0.
  destruct (decide (s = s0)) as [->|Hne].
  - rewrite lookup_insert_eq in Hs0. by injection Hs0 as <-.
  - rewrite lookup_insert_ne in Hs0 by done. exact (H s0 st0 Hs0).
Qed.

Lemma set_value_listeners_wf s newValue w :
  listeners_wf w -> listeners_wf (set_value s newValue w).
Proof.
  intros H. destruct (stores w !! s) as [st|] eqn:Hs.
  - destruct (set_value_spec s newValue w st Hs) as (Hst & _).
    eapply listeners_wf_insert; [exact Hst | | exact H]. cbn.
    rewrite notify_fst. apply Forall_fmap.
    eapply Forall_impl; [exact (H s st Hs)|]. intros l Hl. cbn.
    by rewrite lid_run_listener.
  - by rewrite set_value_missing.
Qed.

Lemma setValue_listeners_wf s v w : listeners_wf w -> listeners_wf (setValue s v w).
Proof.
  intros H. unfold setValue. destruct (stores w !! s) as [st|]; [|done].
  assert (forall h nv, listeners_wf (set_value s nv (set_heap h w))) as Hheap.
  { intros h nv. apply set_value_listeners_wf.
    by apply (listeners_wf_same_stores w). }
  destruct v; try (case_match; [destruct (spread2 _ _ _) as [h nv]; apply Hheap
                               | by apply set_value_listeners_wf]).
  destruct (call f (heap w) (value st)) as [h nv]. apply Hheap.
Qed.

Lemma reset_listeners_wf s w : listeners_wf w -> listeners_wf (reset s w).
Proof.
  intros H. unfold reset.
  destruct (stores w !! s); [by apply set_value_listeners_wf | done].
Qed.

Lemma subscribe_listeners_wf s c cb prev w :
  listeners_wf w -> listeners_wf (subscribe s c cb prev w).1.
Proof.
  intros H. unfold subscribe. destruct (stores w !! s) as [st|] eqn:Hs; [|done].
  eapply listeners_wf_insert; [world_simpl; reflexivity | | exact H]. cbn.
  apply Forall_app. split.
  - eapply Forall_impl; [exact (H s st Hs)|]. intros l Hl. cbn in *. lia.
  - apply Forall_singleton. cbn. lia.
Qed.

Lemma step_listeners_wf w a : listeners_wf w -> listeners_wf (step w a).
Proof.
  intros H. destruct a as [key initial options|key sel eqf|key v|key cb|key cb|key|s v|s|u| |f];
    simpl.
  - unfold useGlobalState. destruct (globalStates w !! key); [done|].
    case_bool_decide; [destruct (persist_rehydrate _ _ _ _) as [[? ?] ?]|];
      (eapply listeners_wf_insert; [world_simpl; reflexivity | | exact H]);
      cbn; apply Forall_nil_2.
  - unfold useGlobalSelector. destruct (globalStates w !! key); [|done].
    destruct eqf; destruct (call _ _ _); by apply (listeners_wf_same_stores w).
  - unfold setGlobalState. destruct (globalStates w !! key); [by apply setValue_listeners_wf|].
    case_bool_decide; by apply (listeners_wf_same_stores w).
  - unfold subscribeGlobalState.
    destruct (globalStates w !! key); [by apply subscribe_listeners_wf|].
    case_bool_decide; by apply (listeners_wf_same_stores w).
  - unfold HooksUseGlobalState.subscribeGlobalState.
    destruct (globalStates w !! key); [by apply subscribe_listeners_wf|].
    case_bool_decide; by apply (listeners_wf_same_stores w).
  - unfold resetGlobalState. destruct (globalStates w !! key); [by apply reset_listeners_wf|].
    case_bool_decide; by apply (listeners_wf_same_stores w).
  - by apply setValue_listeners_wf.
  - by apply reset_listeners_wf.
  - unfold unsubscribe. destruct u as [[s id]|]; [|done].
    destruct (stores w !! s) as [st|] eqn:Hs; [|done].
    eapply listeners_wf_insert; [world_simpl; reflexivity | | exact H]. cbn.
    apply Forall_filter_keep. exact (H s st Hs).
  - by apply (listeners_wf_same_stores w).
  - by apply (listeners_wf_same_stores w).
Qed.

Lemma run_listeners_wf acts w : listeners_wf w -> listeners_wf (run acts w).
Proof.
  revert w. induction acts as [|a acts IH]; intros w H; [done|].
  simpl. apply IH. by apply step_listeners_wf.
Qed.

Lemma loaded_listeners_wf env h ls ss : listeners_wf (loaded env h ls ss).
Proof. intros s st Hs. cbn in Hs. by rewrite lookup_empty in Hs. Qed.

Lemma filter_all {A : Type} (P : A -> Prop) `{forall x, Decision (P x)} (l : list A) :
  Forall P l -> filter P l = l.
Proof.
  induction 1 as [|x l Hx _ IH]; [done|].
  rewrite filter_cons_True by done. by rewrite IH.
Qed.

(** An unsubscribe function whose listener is not in the store changes
    nothing. *)
Lemma unsubscribe_absent (s id : nat) (w : World) :
  (forall st, stores w !! s = Some st -> Forall (fun l => lid l <> id) (listeners st)) ->
  unsubscribe (Some (s, id)) w = w.
Proof.
  intros H. unfold unsubscribe. destruct (stores w !! s) as [st|] eqn:Hs; [|done].
  rewrite (filter_all _ _ (H st eq_refl)).
  assert ({| value := value st; initialState := initialState st; isObject := isObject st;
             persistence := persistence st; listeners := listeners st;
             subscriptions := subscriptions st |} = st) as -> by by destruct st.
  rewrite (insert_id _ _ _ Hs). by destruct w.
Qed.

(** X8.  Calling an unsubscribe function twice is the same as calling it
    once, in every world. *)
Theorem unsubscribe_idempotent (u : Unsubscribe) (w : World) :
  unsubscribe u (unsubscribe u w) = unsubscribe u w.
Proof.
  destruct u as [[s id]|]; [|done].
  apply unsubscribe_absent. intros st' Hs'.
  unfold unsubscribe in Hs'. destruct (stores w !! s) as [st|] eqn:Hs.
  - world_simpl. rewrite lookup_insert_eq in Hs'. injection Hs' as <-. cbn.
    apply Forall_forall. intros l Hl. by apply list_elem_of_filter in Hl as [? _].
  - rewrite Hs in Hs'. done.
Qed.

(** X9.  Subscribing and then unsubscribing is a round trip: after any
    history of the loaded module, the store has the listeners it had before
    (only its count of subscriptions has grown), so every later commit
    makes the calls it would have made without the subscription; and the
    old unsubscribe function does not remove a listener subscribed
    later. *)
Theorem subscribe_unsubscribe_round_trip
    env h ls ss acts key (cb cb2 : fn) (s : nat) (st : Store) :
  let w := run acts (loaded env h ls ss) in
  globalStates w !! key = Some s ->
  stores w !! s = Some st ->
  let r := subscribeGlobalState key cb w in
  let w' := unsubscribe r.2 r.1 in
  stores w' = <[s := {| value := value st; initialState := initialState st;
                        isObject := isObject st; persistence := persistence st;
                        listeners := listeners st;
                        subscriptions := S (subscriptions st) |}]> (stores w)
  /\ callback_calls w' = callback_calls w
  /\ (forall newValue,
        callback_calls (set_value s newValue w') = callback_calls (set_value s newValue w))
  /\ (let r2 := subscribeGlobalState key cb2 w' in unsubscribe r.2 r2.1 = r2.1).
Proof.
  intros w Hk Hs r w'.
  pose proof (run_listeners_wf acts _ (loaded_listeners_wf env h ls ss) s st Hs) as Hwf.
  fold w in Hwf.
  assert (Forall (fun l => lid l <> subscriptions st) (listeners st)) as Hne.
  { eapply Forall_impl; [exact Hwf|]. intros l Hl. cbn in Hl. lia. }
  assert (r = (set_stores (<[s := {| value := value st; initialState := initialState st;
                                     isObject := isObject st; persistence := persistence st;
                                     listeners := listeners st ++
                                       [{| lid := subscriptions st; code := ObjectIsListener;
                                           callback := cb; prevValue := value st |}];
                                     subscriptions := S (subscriptions st) |}]> (stores w)) w,
               Some (s, subscriptions st))) as Er.
  { subst r. unfold subscribeGlobalState, subscribe, store_value. by rewrite Hk, Hs. }
  assert (stores w' = <[s := {| value := value st; initialState := initialState st;
                                isObject := isObject st; persistence := persistence st;
                                listeners := listeners st;
                                subscriptions := S (subscriptions st) |}]> (stores w))
    as Hst.
  { subst w'. rewrite Er. cbn [fst snd]. unfold unsubscribe. world_simpl.
    rewrite lookup_insert_eq. world_simpl. cbn [listeners value initialState isObject
      persistence subscriptions].
    rewrite filter_app, (filter_all _ _ Hne), filter_cons_False, filter_nil, app_nil_r
      by (cbn; intros Hx; by apply Hx).
    by rewrite insert_insert_eq. }
  assert (callback_calls w' = callback_calls w) as Hcalls.
  { subst w'. rewrite Er. cbn [fst snd]. unfold unsubscribe. world_simpl.
    by rewrite lookup_insert_eq. }
  split; [exact Hst|]. split; [exact Hcalls|]. split.
  - intros newValue.
    assert (stores w' !! s = Some {| value := value st; initialState := initialState st;
                                     isObject := isObject st; persistence := persistence st;
                                     listeners := listeners st;
                                     subscriptions := S (subscriptions st) |}) as Hs'
      by (rewrite Hst; apply lookup_insert_eq).
    destruct (set_value_spec s newValue w' _ Hs') as (_ & _ & _ & _ & _ & ->).
    destruct (set_value_spec s newValue w st Hs) as (_ & _ & _ & _ & _ & ->).
    cbn [listeners]. by rewrite Hcalls.
  - cbn zeta. rewrite Er. cbn [fst snd].
    apply unsubscribe_absent. intros st2 Hs2.
    assert (globalStates w' = globalStates w) as Hg.
    { subst w'. rewrite Er. cbn [fst snd]. unfold unsubscribe. world_simpl.
      by rewrite lookup_insert_eq. }
    unfold subscribeGlobalState, subscribe, store_value in Hs2.
    rewrite Hg, Hk, Hst, lookup_insert_eq in Hs2. world_simpl.
    rewrite lookup_insert_eq in Hs2. injection Hs2 as <-. cbn.
    apply Forall_app. split; [exact Hne|]. apply Forall_singleton. cbn. lia.
Qed.

End MoreSubscriptionFacts.

Section NotificationFacts.
Context `{host : Host}.



End NotificationFacts.

Section PersistenceFacts.
Context `{host : Host}.

(** X12.  A store created without the [storage] option (or with
    ['none']) never touches a storage medium: neither its creation nor,
    after any history, a write or a reset through it changes
    [localStorage] or [sessionStorage]. *)
Theorem unpersisted_store_never_touches_media
    key initial options acts (v : JSValue) (w0 : World) :
  globalStates w0 !! key = None ->
  default none (options ≫= storage) = none ->
  let r := useGlobalState key initial options w0 in
  let w := run acts r.1 in
  localStorage_medium r.1 = localStorage_medium w0
  /\ sessionStorage_medium r.1 = sessionStorage_medium w0
  /\ localStorage_medium (setValue r.2.2 v w) = localStorage_medium w
  /\ sessionStorage_medium (setValue r.2.2 v w) = sessionStorage_medium w
  /\ localStorage_medium (reset r.2.2 w) = localStorage_medium w
  /\ sessionStorage_medium (reset r.2.2 w) = sessionStorage_medium w.
Proof.
  intros Hk Hnone r w.
  destruct (useGlobalState_creates key initial options w0 Hk)
    as (st0 & Hs0 & _ & _ & _ & _ & _ & Hn).
  destruct (Hn Hnone) as (_ & _ & Hp0).
  destruct (run_kept acts _ _ _ Hs0) as (st & Hs & _ & _ & Hp).
  fold r in Hs. fold w in Hs. rewrite Hp0 in Hp.
  split; [|split].
  - subst r. unfold useGlobalState. rewrite Hk, Hnone. by cbn.
  - subst r. unfold useGlobalState. rewrite Hk, Hnone. by cbn.
  - exact (setValue_unpersisted r.2.2 v w st Hs Hp).
Qed.

(** X13.  A store created with a [storage] option other than ['none'] is
    persisted under the name made of the [storageKey] option (by default
    [global-state]), a dash and the key; it starts from the value the
    [persist] middleware rehydrates and keeps the initial value of the call
    for [reset].  Its creation and, after any history, every write and
    every reset through it leave the other medium as it is, and write the
    committed value under that name in its own medium.  For one prefix the
    name determines the key; two stores with different prefixes can share a
    name. *)
Theorem persisted_store_name
    key (initial : JSValue) (m : StorageType) (prefix : option string)
    acts (v : JSValue) (w0 : World) :
  globalStates w0 !! key = None ->
  m <> none ->
  let options := Some {| storage := Some m; storageKey := prefix |} in
  let name := default "global-state" prefix +:+ "-" +:+ key in
  let r := useGlobalState key initial options w0 in
  let w := run acts r.1 in
  (exists st,
     stores r.1 !! r.2.2 = Some st
     /\ persistence st = Some (name, m)
     /\ initialState st = initial
     /\ value st = (persist_rehydrate (storageImpl m w0) name (heap w0) initial).2)
  /\ otherStorage m r.1 = otherStorage m w0
  /\ otherStorage m (setValue r.2.2 v w) = otherStorage m w
  /\ otherStorage m (reset r.2.2 w) = otherStorage m w
  /\ storageImpl m (setValue r.2.2 v w)
     = persist_setItem (storageImpl m w) name (heap (setValue r.2.2 v w))
         (store_value r.2.2 (setValue r.2.2 v w))
  /\ storageImpl m (reset r.2.2 w) = persist_setItem (storageImpl m w) name (heap w) initial
  /\ (forall key', default "global-state" prefix +:+ "-" +:+ key' = name -> key' = key)
  /\ "a" +:+ "-" +:+ "b-c" = "a-b" +:+ "-" +:+ "c".
Proof.
  intros Hk Hm options name r w.
  destruct (useGlobalState_creates_persisted key initial options w0 Hk Hm)
    as (st0 & Hs0 & Hp0 & Hi0 & Hv0 & _ & _ & Ho).
  cbn [options mbind option_bind storage storageKey default from_option] in *.
  fold name in Hp0, Hv0. fold r in Hs0, Ho.
  destruct (run_kept acts _ _ _ Hs0) as (st & Hs & Hi & _ & Hp).
  fold w in Hs. rewrite Hp0 in Hp. rewrite Hi0 in Hi.
  destruct (setValue_persisted r.2.2 v w st name m Hs Hp) as [H1 H2].
  destruct (reset_persisted r.2.2 w st name m Hs Hp) as [H3 H4].
  rewrite Hi in H3.
  split; [by exists st0|].
  do 5 (split; [done|]).
  split; [|reflexivity].
  intros key' E. subst name.
  apply String.app_inj in E. by apply String.app_inj in E.
Qed.

End PersistenceFacts.

(** * Properties of the selector hooks (part_002, pack.js) *)

Section MoreSelectorFacts.
Context `{host : Host}.

Lemma shallow_refl (h : gmap positive (gmap string JSValue)) (v : JSValue) :
  Part002.shallow h v v = true.
Proof. unfold Part002.shallow. by rewrite Object_is_refl. Qed.

Lemma shallow_primitive (h : gmap positive (gmap string JSValue)) (a b : JSValue) :
  typeof b <> "object" \/ b = JSNull ->
  Part002.shallow h a b = true -> a = b.
Proof.
  intros Hb. unfold Part002.shallow. rewrite orb_true_iff, Object_is_true.
  intros [E|E]; [done|].
  destruct a, b; try discriminate E; destruct Hb as [Hb|Hb]; by try discriminate Hb.
Qed.

(** X14.  A render of the selector hook of part_002 that completes (the
    first render of a call site, or one that calls [useShallow] exactly
    when the previous render did) returns, in either equality mode, a
    value that is shallowly equal to the value it has just selected from
    the store; when that value is a primitive, [null] or [undefined], or
    when [useShallow] is not called, the render returns it itself, so
    forcing ['shallow'] changes nothing for primitive selections. *)
Theorem selector_returns_current_selection
    key (selector : fn) (mode : option Part002.EqualityMode)
    (c : Part002.CallSite) (w : World) (s : nat) :
  globalStates w !! key = Some s ->
  let m := Part002.memory c in
  let sampled := Part002.wrappedSelector selector m s w in
  let useShallow_now :=
    match mode with
    | None => Part002.shouldUseShallow (heap sampled.1) sampled.2
    | Some Part002.Shallow => true
    end in
  let selected :=
    Part002.wrappedSelector selector m s
      match mode with None => sampled.1 | Some Part002.Shallow => w end in
  let r := Part002.useGlobalSelector key selector mode c w in
  Part002.hooks_changed c useShallow_now = false ->
  exists returned,
    r.2 = Part002.Rendered (Return returned)
    /\ r.1.1 = selected.1
    /\ Part002.shallow (heap r.1.1) returned selected.2 = true
    /\ (typeof selected.2 <> "object" \/ selected.2 = JSNull -> returned = selected.2)
    /\ (useShallow_now = false -> returned = selected.2).
Proof.
  intros Hk m sampled useShallow_now selected r Hsame.
  assert (forall w0,
            Part002.hooks_changed c true = false ->
            let e := Part002.wrappedSelector selector m s w0 in
            let r0 := Part002.return_store_useShallow selector c s w0 in
            exists returned,
              r0.2 = Part002.Rendered (Return returned)
              /\ r0.1.1 = e.1
              /\ Part002.shallow (heap r0.1.1) returned e.2 = true
              /\ (typeof e.2 <> "object" \/ e.2 = JSNull -> returned = e.2)) as Hsh.
  { intros w0 Hc. cbn zeta. rewrite return_store_useShallow_same by done. cbn zeta.
    unfold Part002.store_useShallow. fold m.
    destruct (Part002.wrappedSelector selector m s w0) as [w1 nx]. cbn [fst snd].
    destruct (Part002.shallow (heap w1) (Part002.useShallow_prev m) nx) eqn:E;
      cbn [fst snd]; eexists; (split; [reflexivity|]); (split; [reflexivity|]).
    - split; [done|]. intros Hp. by eapply shallow_primitive.
    - split; [apply shallow_refl | done]. }
  subst r. unfold Part002.useGlobalSelector. rewrite Hk. fold m.
  destruct mode as [[]|].
  - destruct (Hsh w Hsame) as (x & H1 & H2 & H3 & H4).
    exists x. by repeat split.
  - fold sampled. subst selected useShallow_now.
    destruct sampled as [w1 iv]. cbn [fst snd] in *.
    destruct (Part002.shouldUseShallow (heap w1) iv).
    + destruct (Hsh w1 Hsame) as (x & H1 & H2 & H3 & H4).
      exists x. by repeat split.
    + rewrite return_store_plain_same by done. cbn zeta. fold m.
      destruct (Part002.wrappedSelector selector m s w1) as [w2 nx]. cbn [fst snd].
      exists nx. repeat split; try done. apply shallow_refl.
Qed.

(** X15.  In part_002 the selector given to a render is stored by an
    effect, after the render: once a call site has rendered, what a render
    does (its result when it completes, and whether it completes) is
    decided by the selector of the previous render, and the selector it is
    given only takes effect at the next render, if this one completes. *)
Theorem part002_selector_takes_effect_one_render_late
    key (previous given : fn) (mode : option Part002.EqualityMode)
    (c : Part002.CallSite) (w : World) :
  Part002.selectorRef (Part002.memory c) = Some previous ->
  let r := Part002.useGlobalSelector key given mode c w in
  let r' := Part002.useGlobalSelector key previous mode c w in
  r.2 = r'.2 /\ r.1.1 = r'.1.1
  /\ (forall v, r.2 = Part002.Rendered (Return v) ->
        Part002.selectorRef (Part002.memory r.1.2) = Some given
        /\ Part002.selectorRef (Part002.memory r'.1.2) = Some previous
        /\ Part002.useShallow_prev (Part002.memory r.1.2)
           = Part002.useShallow_prev (Part002.memory r'.1.2))
  /\ (r.2 = Part002.HooksChanged -> r.1.2 = c).
Proof.
  intros Hm. cbn zeta. unfold Part002.useGlobalSelector.
  destruct (globalStates w !! key) as [s|]; [|by repeat split].
  assert (forall w0, Part002.wrappedSelector given (Part002.memory c) s w0
                     = Part002.wrappedSelector previous (Part002.memory c) s w0) as Hw
    by (intros w0; unfold Part002.wrappedSelector; by rewrite Hm).
  assert (forall w0,
            let r := Part002.return_store_useShallow given c s w0 in
            let r' := Part002.return_store_useShallow previous c s w0 in
            r.2 = r'.2 /\ r.1.1 = r'.1.1
            /\ (forall v, r.2 = Part002.Rendered (Return v) ->
                  Part002.selectorRef (Part002.memory r.1.2) = Some given
                  /\ Part002.selectorRef (Part002.memory r'.1.2) = Some previous
                  /\ Part002.useShallow_prev (Part002.memory r.1.2)
                     = Part002.useShallow_prev (Part002.memory r'.1.2))
            /\ (r.2 = Part002.HooksChanged -> r.1.2 = c)) as Hu.
  { intros w0. cbn zeta. unfold Part002.return_store_useShallow, Part002.store_useShallow.
    rewrite Hw.
    destruct (Part002.hooks_changed c true); [by repeat split|].
    destruct (Part002.wrappedSelector previous (Part002.memory c) s w0) as [w1 nx].
    by destruct (Part002.shallow (heap w1) (Part002.useShallow_prev (Part002.memory c)) nx). }
  assert (forall w0,
            let r := Part002.return_store_plain given c s w0 in
            let r' := Part002.return_store_plain previous c s w0 in
            r.2 = r'.2 /\ r.1.1 = r'.1.1
            /\ (forall v, r.2 = Part002.Rendered (Return v) ->
                  Part002.selectorRef (Part002.memory r.1.2) = Some given
                  /\ Part002.selectorRef (Part002.memory r'.1.2) = Some previous
                  /\ Part002.useShallow_prev (Part002.memory r.1.2)
                     = Part002.useShallow_prev (Part002.memory r'.1.2))
            /\ (r.2 = Part002.HooksChanged -> r.1.2 = c)) as Hp.
  { intros w0. cbn zeta. unfold Part002.return_store_plain, Part002.store_plain.
    rewrite Hw.
    destruct (Part002.hooks_changed c false); [by repeat split|].
    by destruct (Part002.wrappedSelector previous (Part002.memory c) s w0) as [w1 nx]. }
  destruct mode as [[]|]; [apply Hu|].
  rewrite Hw.
  destruct (Part002.wrappedSelector previous (Part002.memory c) s w) as [w1 iv].
  destruct (Part002.shouldUseShallow (heap w1) iv); [apply Hu | apply Hp].
Qed.

(** X21.  The hook calls [useShallow] on one branch only.  A render of a
    call site that has rendered before completes exactly when it takes the
    branch the previous render took; when the choice differs, because the
    sample of auto mode is classified differently or because the equality
    mode is another, React stops the render: nothing is returned, and the
    call site, the registry and the stores are as they were. *)
Theorem useShallow_branch_change_stops_render
    key (selector : fn) (mode : option Part002.EqualityMode)
    (c : Part002.CallSite) (w : World) (s : nat) :
  globalStates w !! key = Some s ->
  let sampled := Part002.wrappedSelector selector (Part002.memory c) s w in
  let useShallow_now :=
    match mode with
    | None => Part002.shouldUseShallow (heap sampled.1) sampled.2
    | Some Part002.Shallow => true
    end in
  let r := Part002.useGlobalSelector key selector mode c w in
  (r.2 = Part002.HooksChanged
   <-> (exists f, c = Part002.RenderedPlain f) /\ useShallow_now = true
       \/ (exists f prev, c = Part002.RenderedShallow f prev) /\ useShallow_now = false)
  /\ (r.2 = Part002.HooksChanged ->
      r.1.2 = c /\ globalStates r.1.1 = globalStates w /\ stores r.1.1 = stores w)
  /\ (r.2 <> Part002.HooksChanged -> exists v, r.2 = Part002.Rendered (Return v)).
Proof.
  intros Hk sampled useShallow_now r.
  assert (Part002.hooks_changed c useShallow_now = true
          <-> (exists f, c = Part002.RenderedPlain f) /\ useShallow_now = true
              \/ (exists f prev, c = Part002.RenderedShallow f prev)
                 /\ useShallow_now = false) as Hiff.
  { destruct c as [|f|f prev], useShallow_now; cbn; split;
      try discriminate; try (intros [[[? ?] ?]|[[? [? ?]] ?]]; discriminate); eauto. }
  assert (forall w0 (branch : bool),
            globalStates w0 = globalStates w -> stores w0 = stores w ->
            let r0 := if branch then Part002.return_store_useShallow selector c s w0
                      else Part002.return_store_plain selector c s w0 in
            (r0.2 = Part002.HooksChanged <-> Part002.hooks_changed c branch = true)
            /\ (r0.2 = Part002.HooksChanged ->
                r0.1.2 = c /\ globalStates r0.1.1 = globalStates w
                /\ stores r0.1.1 = stores w)
            /\ (r0.2 <> Part002.HooksChanged ->
                exists v, r0.2 = Part002.Rendered (Return v))) as Hret.
  { intros w0 branch Hg Hst. cbn zeta.
    unfold Part002.return_store_useShallow, Part002.return_store_plain,
      Part002.store_useShallow, Part002.store_plain.
    destruct branch.
    - destruct (Part002.hooks_changed c true); [by repeat split|].
      destruct (Part002.wrappedSelector selector (Part002.memory c) s w0) as [w1 nx].
      destruct (Part002.shallow (heap w1) _ nx); cbn;
        (split; [split; discriminate|]); (split; [discriminate|]); eauto.
    - destruct (Part002.hooks_changed c false); [by repeat split|].
      destruct (Part002.wrappedSelector selector (Part002.memory c) s w0) as [w1 nx].
      cbn. (split; [split; discriminate|]); (split; [discriminate|]); eauto. }
  rewrite <- Hiff. subst r. unfold Part002.useGlobalSelector. rewrite Hk.
  destruct mode as [[]|].
  - exact (Hret w true eq_refl eq_refl).
  - subst useShallow_now. fold sampled.
    assert (globalStates sampled.1 = globalStates w /\ stores sampled.1 = stores w)
      as [Hg Hst].
    { subst sampled. unfold Part002.wrappedSelector.
      by destruct (call _ (heap w) (store_value s w)). }
    destruct sampled as [w1 iv]. cbn [fst snd] in *.
    exact (Hret w1 (Part002.shouldUseShallow (heap w1) iv) Hg Hst).
Qed.


End MoreSelectorFacts.

(** * Properties of the unified devtools view (pack.js) *)

Section PackFacts.
Context `{host : Host}.

(** The three branches of [setValue] and [reset] in pack.js change the
    world as index.tsx does and give the unified view the committed
    value. *)
Lemma Pack_setValue_spec (s : nat) (v : JSValue) (r : Pack.Registry) st key :
  stores (Pack.world r) !! s = Some st ->
  Pack.closure_key r !! s = Some key ->
  let w' := setValue s v (Pack.world r) in
  Pack.setValue s v r
  = if Pack.enableDevtools r
    then Pack.syncToDevTools key (store_value s w') (Pack.with_world w' r)
    else Pack.with_world w' r.
Proof.
  intros Hs Hkey. cbn zeta. unfold Pack.setValue, setValue. rewrite Hs, Hkey.
  assert (forall h nv,
            Pack.with_world
              (set_value s nv
                 (set_heap h (Pack.world
                    (if Pack.enableDevtools r then Pack.syncToDevTools key nv r else r))))
              (if Pack.enableDevtools r then Pack.syncToDevTools key nv r else r)
            = if Pack.enableDevtools r
              then Pack.syncToDevTools key
                     (store_value s (set_value s nv (set_heap h (Pack.world r))))
                     (Pack.with_world (set_value s nv (set_heap h (Pack.world r))) r)
              else Pack.with_world (set_value s nv (set_heap h (Pack.world r))) r) as Hbr.
  { intros h nv.
    rewrite store_value_set_value by (by exists st).
    unfold Pack.syncToDevTools, Pack.with_world.
    destruct r as [w0 [] [view|] ck]; by cbn. }
  destruct v as [| | | | | | | |f];
    try (destruct (isObject st && bool_decide (typeof _ = "object")
                   && negb (strict_equal _ JSNull));
         [destruct (spread2 _ _ _) as [h nv]; apply Hbr
         | unfold Pack.updateValue; rewrite store_value_set_value by (by exists st);
           unfold Pack.syncToDevTools, Pack.with_world;
           destruct r as [w0 [] [view|] ck]; by cbn]).
  destruct (call f (heap (Pack.world r)) (value st)) as [h nv]. apply Hbr.
Qed.

Lemma Pack_reset_spec (s : nat) (r : Pack.Registry) st key :
  stores (Pack.world r) !! s = Some st ->
  Pack.closure_key r !! s = Some key ->
  let w' := reset s (Pack.world r) in
  Pack.reset s r
  = if Pack.enableDevtools r
    then Pack.syncToDevTools key (store_value s w') (Pack.with_world w' r)
    else Pack.with_world w' r.
Proof.
  intros Hs Hkey. cbn zeta. unfold Pack.reset, reset, Pack.updateValue.
  rewrite Hs, Hkey. rewrite store_value_set_value by (by exists st).
  unfold Pack.syncToDevTools, Pack.with_world.
  destruct r as [w0 [] [view|] ck]; by cbn.
Qed.

(** X17.  The latest revision changes the registry as index.tsx does: for
    a store and the key of its closure, [setValue] and [reset] of pack.js
    leave the world that [setValue] and [reset] of index.tsx leave, and in
    addition, when [enableDevtools] is set and the unified store exists,
    record the committed value under that key; the flag and the other keys
    of the view are not touched. *)
Theorem pack_write_is_index_write_and_mirror
    (s : nat) (v : JSValue) (r : Pack.Registry) (st : Store) (key : string) :
  stores (Pack.world r) !! s = Some st ->
  Pack.closure_key r !! s = Some key ->
  let committed := store_value s (setValue s v (Pack.world r)) in
  Pack.world (Pack.setValue s v r) = setValue s v (Pack.world r)
  /\ Pack.world (Pack.reset s r) = reset s (Pack.world r)
  /\ Pack.enableDevtools (Pack.setValue s v r) = Pack.enableDevtools r
  /\ Pack.devToolsStore (Pack.setValue s v r)
     = (if Pack.enableDevtools r
        then (fun view => <[key := committed]> view) <$> Pack.devToolsStore r
        else Pack.devToolsStore r)
  /\ Pack.devToolsStore (Pack.reset s r)
     = (if Pack.enableDevtools r
        then (fun view => <[key := initialState st]> view) <$> Pack.devToolsStore r
        else Pack.devToolsStore r).
Proof.
  intros Hs Hkey committed.
  rewrite (Pack_setValue_spec s v r st key Hs Hkey).
  rewrite (Pack_reset_spec s r st key Hs Hkey).
  assert (store_value s (reset s (Pack.world r)) = initialState st) as ->.
  { unfold reset. rewrite Hs. apply store_value_set_value. by exists st. }
  subst committed. unfold Pack.syncToDevTools, Pack.with_world.
  destruct r as [w0 [] [view|] ck]; by cbn.
Qed.

Lemma mirrored_after_write (r : Pack.Registry) (s : nat) (key : string) (w' : World) :
  Pack.mirrored r ->
  Pack.closure_key r !! s = Some key ->
  globalStates w' = globalStates (Pack.world r) ->
  (forall s', s' <> s -> stores w' !! s' = stores (Pack.world r) !! s') ->
  is_Some (stores w' !! s) ->
  Pack.mirrored (Pack.syncToDevTools key (store_value s w') (Pack.with_world w' r)).
Proof.
  intros (Hen & Hclo & Hex & Hsome & Hview) Hkey Hg Hother Hs.
  assert (globalStates (Pack.world r) !! key = Some s) as Hreg by by apply Hclo.
  destruct Hsome as [Hempty|[view Hv]];
    [by rewrite Hempty, lookup_empty in Hreg|].
  unfold Pack.syncToDevTools, Pack.with_world. cbn. rewrite Hv.
  unfold Pack.mirrored. cbn. rewrite Hg.
  split; [done|]. split; [done|]. split.
  { intros k s0 Hk. destruct (decide (s0 = s)) as [->|Hne]; [done|].
    rewrite Hother by done. by eapply Hex. }
  split; [right; by eexists|].
  intros view' k Hv'. injection Hv' as <-.
  destruct (decide (key = k)) as [<-|Hne].
  - by rewrite lookup_insert_eq, Hreg.
  - rewrite lookup_insert_ne by done. rewrite (Hview view k Hv).
    destruct (globalStates (Pack.world r) !! k) as [s0|] eqn:Hk; [|done].
    cbn. f_equal. unfold store_value. rewrite Hother; [done|].
    intros ->. apply Hne. apply Hclo in Hk. congruence.
Qed.

Lemma mirrored_same_stores (r : Pack.Registry) (w' : World) :
  Pack.mirrored r ->
  globalStates w' = globalStates (Pack.world r) ->
  stores w' = stores (Pack.world r) ->
  Pack.mirrored (Pack.with_world w' r).
Proof.
  intros (Hen & Hclo & Hex & Hsome & Hview) Hg Hst.
  unfold Pack.mirrored, Pack.with_world, store_value. cbn. rewrite Hg, Hst.
  split; [done|]. split; [done|]. split; [done|]. split; [done|]. exact Hview.
Qed.

Lemma useGlobalState_creates_unpersisted key initial options (w : World) :
  globalStates w !! key = None ->
  default none (options ≫= storage) = none ->
  let s := fresh (dom (stores w)) in
  (useGlobalState key initial options w).2.2 = s
  /\ globalStates (useGlobalState key initial options w).1 = <[key := s]> (globalStates w)
  /\ exists st, value st = initial
       /\ stores (useGlobalState key initial options w).1 = <[s := st]> (stores w).
Proof.
  intros Hk Hn. unfold useGlobalState. rewrite Hk, Hn. cbn.
  split; [done|]. split; [done|]. eexists. split; [|reflexivity]. done.
Qed.

Lemma mirrored_after_creation (r : Pack.Registry) (key : string) (initial : JSValue)
    (s : nat) (st : Store) (w' : World) :
  Pack.mirrored r ->
  globalStates (Pack.world r) !! key = None ->
  stores (Pack.world r) !! s = None ->
  value st = initial ->
  globalStates w' = <[key := s]> (globalStates (Pack.world r)) ->
  stores w' = <[s := st]> (stores (Pack.world r)) ->
  Pack.mirrored
    {| Pack.world := w'; Pack.enableDevtools := true;
       Pack.devToolsStore := Some (<[key := initial]> (default ∅ (Pack.devToolsStore r)));
       Pack.closure_key := <[s := key]> (Pack.closure_key r) |}.
Proof.
  intros (Hen & Hclo & Hex & Hsome & Hview) Hk Hs Hval Hg Hst.
  assert (forall k, globalStates (Pack.world r) !! k <> Some s) as Hnew.
  { intros k Hk'. apply Hex in Hk' as [st' Hst']. congruence. }
  unfold Pack.mirrored. cbn. rewrite Hg, Hst.
  split; [done|]. split; [|split; [|split; [right; by eexists|]]].
  - intros s0 k. destruct (decide (s = s0)) as [<-|Hne].
    + rewrite lookup_insert_eq. split.
      * intros [= <-]. by rewrite lookup_insert_eq.
      * intros Hk'. destruct (decide (key = k)) as [<-|Hnk]; [done|].
        rewrite lookup_insert_ne in Hk' by done. by apply Hnew in Hk'.
    + rewrite lookup_insert_ne by done. rewrite Hclo. split.
      * intros Hk'. destruct (decide (key = k)) as [<-|Hnk]; [congruence|].
        by rewrite lookup_insert_ne.
      * intros Hk'. destruct (decide (key = k)) as [<-|Hnk].
        -- rewrite lookup_insert_eq in Hk'. congruence.
        -- by rewrite lookup_insert_ne in Hk'.
  - intros k s0 Hk'. destruct (decide (key = k)) as [<-|Hnk].
    + rewrite lookup_insert_eq in Hk'. injection Hk' as <-. by rewrite lookup_insert_eq.
    + rewrite lookup_insert_ne in Hk' by done.
      rewrite lookup_insert_ne by (intros <-; by apply Hnew in Hk'). by eapply Hex.
  - intros view' k [= <-]. destruct (decide (key = k)) as [<-|Hnk].
    + rewrite !lookup_insert_eq. cbn. unfold store_value.
      rewrite Hst, lookup_insert_eq. cbn. by rewrite Hval.
    + rewrite !(lookup_insert_ne _ key k) by done.
      assert (default ∅ (Pack.devToolsStore r) !! k
              = (fun s0 => store_value s0 (Pack.world r))
                  <$> globalStates (Pack.world r) !! k) as ->.
      { destruct (Pack.devToolsStore r) as [view|] eqn:Hv; cbn.
        - by apply Hview.
        - destruct Hsome as [Hempty|[? ?]]; [|done].
          by rewrite Hempty, !lookup_empty. }
      destruct (globalStates (Pack.world r) !! k) as [s1|] eqn:Hk1; [|done].
      cbn. f_equal. unfold store_value. rewrite Hst.
      rewrite lookup_insert_ne; [done|]. intros <-. by apply Hnew in Hk1.
Qed.

Lemma Pack_step_mirrored (r : Pack.Registry) (a : Pack.Action) :
  Pack.plain a = true -> Pack.mirrored r -> Pack.mirrored (Pack.step r a).
Proof.
  intros Ha Hm.
  assert (forall s v, Pack.mirrored (Pack.setValue s v r)) as Hset.
  { intros s v.
    destruct (stores (Pack.world r) !! s) as [st|] eqn:Hs;
      [|unfold Pack.setValue; by rewrite Hs].
    destruct (Pack.closure_key r !! s) as [key|] eqn:Hkey;
      [|unfold Pack.setValue; by rewrite Hs, Hkey].
    rewrite (Pack_setValue_spec s v r st key Hs Hkey).
    destruct Hm as (Hen & Hrest). rewrite Hen.
    apply mirrored_after_write; try done.
    - apply globalStates_setValue.
    - intros s' Hne. by apply stores_setValue_other.
    - destruct (setValue_kept s v (Pack.world r) s st Hs) as (st' & ? & _). by exists st'. }
  assert (forall s, Pack.mirrored (Pack.reset s r)) as Hreset.
  { intros s.
    destruct (stores (Pack.world r) !! s) as [st|] eqn:Hs;
      [|unfold Pack.reset; by rewrite Hs].
    destruct (Pack.closure_key r !! s) as [key|] eqn:Hkey;
      [|unfold Pack.reset; by rewrite Hs, Hkey].
    rewrite (Pack_reset_spec s r st key Hs Hkey).
    destruct Hm as (Hen & Hrest). rewrite Hen.
    apply mirrored_after_write; try done.
    - apply globalStates_reset.
    - intros s' Hne. by apply stores_reset_other.
    - destruct (reset_kept s (Pack.world r) s st Hs) as (st' & ? & _). by exists st'. }
  assert (forall key, Pack.mirrored (Pack.warnMissingState key r)) as Hwarn.
  { intros key. unfold Pack.warnMissingState. case_bool_decide; [|done].
    by apply mirrored_same_stores. }
  destruct a as [key initial options|key v|key|s v|s|enabled|]; simpl in *; try done.
  - apply bool_decide_eq_true in Ha.
    unfold Pack.useGlobalState.
    destruct (globalStates (Pack.world r) !! key) as [s0|] eqn:Hk; [done|].
    destruct (useGlobalState_creates_unpersisted key initial options _ Hk Ha)
      as (Hfresh & Hg & st & Hval & Hst).
    pose proof (mirrored_after_creation r key initial _ st _ Hm Hk
                  (fresh_store_None (Pack.world r)) Hval Hg Hst) as Hnew.
    destruct Hm as (Hen & _).
    cbn [fst Pack.enableDevtools]. rewrite Hen, Hfresh.
    unfold Pack.syncToDevTools, Pack.getDevToolsStore.
    destruct (Pack.devToolsStore r) as [view|]; cbn in *; exact Hnew.
  - unfold Pack.setGlobalState. by destruct (globalStates (Pack.world r) !! key).
  - unfold Pack.resetGlobalState. by destruct (globalStates (Pack.world r) !! key).
Qed.

Lemma Pack_run_mirrored acts (r : Pack.Registry) :
  Forall (fun a => Pack.plain a = true) acts ->
  Pack.mirrored r -> Pack.mirrored (Pack.run acts r).
Proof.
  intros Hacts. revert r. induction Hacts as [|a acts Ha _ IH]; intros r H; [done|].
  simpl. apply IH. by apply Pack_step_mirrored.
Qed.

Lemma Pack_loaded_mirrored env h ls ss :
  env <> "production" -> Pack.mirrored (Pack.loaded env h ls ss).
Proof.
  intros Henv. unfold Pack.mirrored, Pack.loaded. cbn.
  split; [by apply bool_decide_eq_true_2|].
  split; [intros s k; by rewrite !lookup_empty|].
  split; [intros k s Hk; by rewrite lookup_empty in Hk|].
  split; [by left|]. done.
Qed.

(** X18.  The unified view mirrors the registry.  When the module is
    loaded outside production and as long as no call switches the flag,
    clears the registry or creates a persisted store, after any history of
    creations, writes and resets: every registered key is in the view with
    exactly the value [getGlobalState] returns for it, and the view has no
    other key. *)
Theorem devtools_view_mirrors_registry env h ls ss acts :
  env <> "production" ->
  Forall (fun a => Pack.plain a = true) acts ->
  let r := Pack.run acts (Pack.loaded env h ls ss) in
  (forall key s, globalStates (Pack.world r) !! key = Some s ->
     exists view,
       Pack.devToolsStore r = Some view
       /\ view !! key = Some (Pack.getGlobalState key r))
  /\ (forall view key, Pack.devToolsStore r = Some view ->
        globalStates (Pack.world r) !! key = None -> view !! key = None).
Proof.
  intros Henv Hacts r.
  destruct (Pack_run_mirrored acts _ Hacts (Pack_loaded_mirrored env h ls ss Henv))
    as (_ & _ & _ & Hsome & Hview).
  fold r in Hsome, Hview. split.
  - intros key s Hk.
    destruct Hsome as [Hempty|[view Hv]]; [by rewrite Hempty, lookup_empty in Hk|].
    exists view. split; [done|].
    rewrite (Hview view key Hv), Hk. unfold Pack.getGlobalState, getGlobalState.
    by rewrite Hk.
  - intros view key Hv Hk. by rewrite (Hview view key Hv), Hk.
Qed.

Lemma Pack_write_keeps_no_view (s : nat) (v : JSValue) (r : Pack.Registry) :
  Pack.devToolsStore r = None ->
  Pack.devToolsStore (Pack.setValue s v r) = None
  /\ Pack.devToolsStore (Pack.reset s r) = None
  /\ Pack.enableDevtools (Pack.setValue s v r) = Pack.enableDevtools r
  /\ Pack.enableDevtools (Pack.reset s r) = Pack.enableDevtools r.
Proof.
  intros Hnone.
  destruct (stores (Pack.world r) !! s) as [st|] eqn:Hs;
    [|unfold Pack.setValue, Pack.reset; by rewrite Hs].
  destruct (Pack.closure_key r !! s) as [key|] eqn:Hkey;
    [|unfold Pack.setValue, Pack.reset; by rewrite Hs, Hkey].
  rewrite (Pack_setValue_spec s v r st key Hs Hkey).
  rewrite (Pack_reset_spec s r st key Hs Hkey).
  unfold Pack.syncToDevTools, Pack.with_world.
  destruct r as [w0 [] [view|] ck]; by cbn in *.
Qed.

(** X19.  While [enableDevtools] is off the unified store is never
    created: from a module loaded in production, or from any state with the
    flag off and no unified store, no history without
    [configureDevtools(true)] creates it, whatever stores are created and
    written. *)
Theorem devtools_store_never_created_when_disabled acts (r : Pack.Registry) :
  Pack.enableDevtools r = false ->
  Pack.devToolsStore r = None ->
  Forall (fun a => Pack.keeps_disabled a = true) acts ->
  Pack.enableDevtools (Pack.run acts r) = false
  /\ Pack.devToolsStore (Pack.run acts r) = None.
Proof.
  intros Hen Hnone Hacts. revert r Hen Hnone.
  induction Hacts as [|a acts Ha _ IH]; intros r Hen Hnone; [done|].
  simpl. apply IH.
  - destruct a as [key initial options|key v|key|s v|s|enabled|]; simpl in *.
    + unfold Pack.useGlobalState.
      destruct (globalStates (Pack.world r) !! key); [done|]. cbn. by rewrite Hen.
    + unfold Pack.setGlobalState, Pack.warnMissingState.
      destruct (globalStates (Pack.world r) !! key).
      * destruct (Pack_write_keeps_no_view n v r Hnone) as (_ & _ & -> & _). done.
      * by case_bool_decide.
    + unfold Pack.resetGlobalState, Pack.warnMissingState.
      destruct (globalStates (Pack.world r) !! key).
      * destruct (Pack_write_keeps_no_view n JSUndefined r Hnone) as (_ & _ & _ & ->). done.
      * by case_bool_decide.
    + destruct (Pack_write_keeps_no_view s v r Hnone) as (_ & _ & -> & _). done.
    + destruct (Pack_write_keeps_no_view s JSUndefined r Hnone) as (_ & _ & _ & ->). done.
    + by destruct enabled.
    + done.
  - destruct a as [key initial options|key v|key|s v|s|enabled|]; simpl in *.
    + unfold Pack.useGlobalState.
      destruct (globalStates (Pack.world r) !! key); [done|]. cbn. by rewrite Hen.
    + unfold Pack.setGlobalState, Pack.warnMissingState.
      destruct (globalStates (Pack.world r) !! key).
      * by destruct (Pack_write_keeps_no_view n v r Hnone) as (-> & _).
      * by case_bool_decide.
    + unfold Pack.resetGlobalState, Pack.warnMissingState.
      destruct (globalStates (Pack.world r) !! key).
      * by destruct (Pack_write_keeps_no_view n JSUndefined r Hnone) as (_ & -> & _).
      * by case_bool_decide.
    + by destruct (Pack_write_keeps_no_view s v r Hnone) as (-> & _).
    + by destruct (Pack_write_keeps_no_view s JSUndefined r Hnone) as (_ & -> & _).
    + done.
    + done.
Qed.

(** X20.  Only a creation starts the unified view.  While there is no
    unified store (before the first creation with the flag on, after
    [__clearAllStates__], or when the flag was switched on late), writes
    and resets record nothing, whatever the flag; the first creation with
    the flag on starts a view that holds the new key alone, with the
    initial value of the call (also when the store is persisted and holds
    a rehydrated value), and the stores that already exist are absent from
    it. *)
Theorem devtools_view_starts_at_a_creation
    key (initial v : JSValue) options (s : nat) (r : Pack.Registry) :
  Pack.devToolsStore r = None ->
  Pack.devToolsStore (Pack.setValue s v r) = None
  /\ Pack.devToolsStore (Pack.reset s r) = None
  /\ Pack.devToolsStore (Pack.__clearAllStates__ (Pack.configureDevtools true r)) = None
  /\ (globalStates (Pack.world r) !! key = None ->
      Pack.enableDevtools r = true ->
      Pack.devToolsStore (Pack.useGlobalState key initial options r).1
      = Some {[ key := initial ]}).
Proof.
  intros Hnone.
  destruct (Pack_write_keeps_no_view s v r Hnone) as (H1 & H2 & _).
  split; [done|]. split; [done|]. split; [done|].
  intros Hk Hen. unfold Pack.useGlobalState. rewrite Hk. cbn. rewrite Hen.
  unfold Pack.syncToDevTools, Pack.getDevToolsStore. cbn. rewrite Hnone. cbn.
  by rewrite insert_empty.
Qed.

End PackFacts.

(** * Instances of the further properties *)

Section MoreScenarios.
#[local] Existing Instance scenario_host.

(** X1, an instance: [counter] and [user]. *)
Lemma registry_stays_well_formed_witness :
  let w := run two_keys development in
  globalStates w !! "counter" = Some 0
  /\ globalStates w !! "user" = Some 1
  /\ is_Some (stores w !! 0)
  /\ (forall k2, globalStates w !! k2 = Some 1 -> "user" = k2).
Proof.
  intros w.
  pose proof (registry_stays_well_formed "development" scenario_heap tt tt two_keys)
    as [Hex Hinj].
  assert (globalStates w !! "counter" = Some 0) as H0 by (vm_compute; reflexivity).
  assert (globalStates w !! "user" = Some 1) as H1 by (vm_compute; reflexivity).
  split; [exact H0|]. split; [exact H1|].
  split; [exact (Hex "counter" 0 H0)|].
  intros k2 Hk2. exact (Hinj "user" k2 1 H1 Hk2).
Defined.

(** X2, an instance: writing [counter] leaves [user] alone. *)
Lemma writes_leave_other_keys_alone_witness :
  let w := run two_keys development in
  "counter" <> "user"
  /\ globalStates w !! "user" = Some 1
  /\ stores (setGlobalState "counter" (num 5) w) !! 1 = stores w !! 1
  /\ getGlobalState "user" (setGlobalState "counter" (num 5) w) = getGlobalState "user" w
  /\ getGlobalState "user" (resetGlobalState "counter" w) = getGlobalState "user" w.
Proof.
  intros w.
  assert ("counter" <> "user") as Hne by discriminate.
  assert (globalStates w !! "user" = Some 1) as H1 by (vm_compute; reflexivity).
  pose proof (writes_leave_other_keys_alone "development" scenario_heap tt tt two_keys
                "counter" "user" (num 5) Hne) as (Hst & Hg1 & Hg2).
  split; [exact Hne|]. split; [exact H1|].
  split; [exact (proj1 (Hst 1 H1))|]. split; [exact Hg1 | exact Hg2].
Defined.

(** X3, an instance: [null] replaces John in [user]. *)
Lemma primitive_updater_round_trip_witness :
  let w := run two_keys development in
  let st := {| value := JSObject 1; initialState := JSObject 1; isObject := true;
               persistence := None; listeners := []; subscriptions := 0 |} in
  globalStates w !! "user" = Some 1
  /\ stores w !! 1 = Some st
  /\ typeof JSNull <> "function"
  /\ (typeof JSNull <> "object" \/ JSNull = JSNull)
  /\ getGlobalState "user" (setGlobalState "user" JSNull w) = JSNull
  /\ heap (setGlobalState "user" JSNull w) = heap w.
Proof.
  intros w st.
  assert (globalStates w !! "user" = Some 1) as Hk by (vm_compute; reflexivity).
  assert (stores w !! 1 = Some st) as Hs by (vm_compute; reflexivity).
  assert (typeof JSNull <> "function") as Hf by discriminate.
  assert (typeof JSNull <> "object" \/ JSNull = JSNull) as Hp by (right; reflexivity).
  split; [exact Hk|]. split; [exact Hs|]. split; [exact Hf|]. split; [exact Hp|].
  exact (primitive_updater_round_trip "user" JSNull w 1 st Hk Hs Hf Hp).
Defined.

(** X4, an instance: the merge into [user] leaves John and the partial as
    they are. *)
Lemma setValue_never_mutates_objects_witness :
  let w := run two_keys development in
  typeof (JSObject 2) <> "function"
  /\ heap w !! 1%positive = Some {[ "name" := JSString "John"; "age" := num 30 ]}
  /\ heap (setValue 1 (JSObject 2) w) !! 1%positive
     = Some {[ "name" := JSString "John"; "age" := num 30 ]}.
Proof.
  intros w.
  assert (typeof (JSObject 2) <> "function") as Hf by discriminate.
  assert (heap w !! 1%positive = Some {[ "name" := JSString "John"; "age" := num 30 ]})
    as Hh by (vm_compute; reflexivity).
  split; [exact Hf|]. split; [exact Hh|].
  exact (setValue_never_mutates_objects 1 (JSObject 2) w Hf 1%positive _ Hh).
Defined.

(** X7, an instance: the store of [user] through a clear and writes. *)
Lemma store_closure_never_changes_witness :
  let w := run two_keys development in
  let st := {| value := JSObject 1; initialState := JSObject 1; isObject := true;
               persistence := None; listeners := []; subscriptions := 0 |} in
  stores w !! 1 = Some st
  /\ exists st',
       stores (run [Call_setValue 1 (num 3); Call_clearAllStates;
                    Call_useGlobalState "user" (num 9) None] w) !! 1 = Some st'
       /\ initialState st' = JSObject 1
       /\ isObject st' = true
       /\ persistence st' = None.
Proof.
  intros w st.
  assert (stores w !! 1 = Some st) as Hs by (vm_compute; reflexivity).
  split; [exact Hs|].
  exact (store_closure_never_changes
           [Call_setValue 1 (num 3); Call_clearAllStates;
            Call_useGlobalState "user" (num 9) None] w 1 st Hs).
Defined.

(** X9, an instance: subscribing to [user] and unsubscribing. *)
Lemma subscribe_unsubscribe_round_trip_witness :
  let w := run two_keys development in
  let st := {| value := JSObject 1; initialState := JSObject 1; isObject := true;
               persistence := None; listeners := []; subscriptions := 0 |} in
  let r := subscribeGlobalState "user" 9 w in
  let w' := unsubscribe r.2 r.1 in
  globalStates w !! "user" = Some 1
  /\ stores w !! 1 = Some st
  /\ callback_calls w' = callback_calls w
  /\ (forall newValue,
        callback_calls (set_value 1 newValue w') = callback_calls (set_value 1 newValue w))
  /\ (let r2 := subscribeGlobalState "user" 8 w' in unsubscribe r.2 r2.1 = r2.1).
Proof.
  intros w st r w'.
  assert (globalStates w !! "user" = Some 1) as Hk by (vm_compute; reflexivity).
  assert (stores w !! 1 = Some st) as Hs by (vm_compute; reflexivity).
  pose proof (subscribe_unsubscribe_round_trip "development" scenario_heap tt tt two_keys
                "user" 9 8 1 st Hk Hs) as (_ & H2 & H3 & H4).
  split; [exact Hk|]. split; [exact Hs|]. split; [exact H2|]. split; [exact H3 | exact H4].
Defined.



(** X12, an instance: [counter], created without options. *)
Lemma unpersisted_store_never_touches_media_witness :
  globalStates development !! "counter" = None
  /\ default none (None ≫= storage) = none
  /\ (let r := useGlobalState "counter" (num 0) None development in
      let w := run [Call_setGlobalState "counter" (num 5)] r.1 in
      localStorage_medium (setValue r.2.2 (num 6) w) = localStorage_medium w
      /\ sessionStorage_medium (setValue r.2.2 (num 6) w) = sessionStorage_medium w).
Proof.
  split; [reflexivity|]. split; [reflexivity|].
  pose proof (unpersisted_store_never_touches_media "counter" (num 0) None
                [Call_setGlobalState "counter" (num 5)] (num 6) development
                eq_refl eq_refl) as (_ & _ & H3 & H4 & _).
  split; [exact H3 | exact H4].
Defined.

(** X13, an instance: [settings] persisted in [localStorage] under the
    prefix [my-app], set to 5 and then to 6. *)
Lemma persisted_store_name_witness :
  globalStates development !! "settings" = None
  /\ localStorage <> none
  /\ (let r := useGlobalState "settings" (JSObject 1)
                 (Some {| storage := Some localStorage; storageKey := Some "my-app" |})
                 development in
      let w := run [Call_setGlobalState "settings" (num 5)] r.1 in
      (exists st,
         stores r.1 !! r.2.2 = Some st
         /\ persistence st = Some ("my-app-settings", localStorage)
         /\ initialState st = JSObject 1)
      /\ sessionStorage_medium (setValue r.2.2 (num 6) w) = sessionStorage_medium w
      /\ sessionStorage_medium (reset r.2.2 w) = sessionStorage_medium w)
  /\ (forall key', "my-app" +:+ "-" +:+ key' = "my-app-settings" -> key' = "settings").
Proof.
  assert (localStorage <> none) as Hm by discriminate.
  pose proof (persisted_store_name "settings" (JSObject 1) localStorage (Some "my-app")
                [Call_setGlobalState "settings" (num 5)] (num 6)
                development eq_refl Hm)
    as ((st & Hs & Hp & Hi & _) & _ & Ho1 & Ho2 & _ & _ & Hinj & _).
  split; [reflexivity|]. split; [exact Hm|].
  split; [|exact Hinj].
  split; [exists st; split; [exact Hs|]; split; [exact Hp | exact Hi]|].
  split; [exact Ho1 | exact Ho2].
Defined.

(** X14, two instances: John selected from [user] by [x => x] with
    ['shallow'] at a first render, and the counter selected in auto mode at
    a call site that rendered without [useShallow]. *)
Lemma selector_returns_current_selection_witness :
  (globalStates user_store !! "user" = Some 0
   /\ Part002.hooks_changed Part002.NotRendered true = false
   /\ exists returned,
        (Part002.useGlobalSelector "user" 0 (Some Part002.Shallow) Part002.NotRendered
           user_store).2 = Part002.Rendered (Return returned)
        /\ Part002.shallow (heap user_store) returned (JSObject 1) = true)
  /\ (globalStates counter_store !! "counter" = Some 0
      /\ Part002.hooks_changed (Part002.RenderedPlain 0)
           (Part002.shouldUseShallow (heap counter_store) (num 0)) = false
      /\ (Part002.useGlobalSelector "counter" 0 None (Part002.RenderedPlain 0)
            counter_store).2 = Part002.Rendered (Return (num 0))).
Proof.
  split.
  - split; [reflexivity|]. split; [reflexivity|].
    destruct (selector_returns_current_selection "user" 0 (Some Part002.Shallow)
                Part002.NotRendered user_store 0 eq_refl eq_refl)
      as (returned & H1 & H2 & H3 & _).
    exists returned. split; [exact H1|].
    rewrite H2 in H3. exact H3.
  - split; [reflexivity|]. split; [reflexivity|].
    destruct (selector_returns_current_selection "counter" 0 None
                (Part002.RenderedPlain 0) counter_store 0 eq_refl eq_refl)
      as (returned & H1 & _ & _ & _ & H5).
    rewrite (H5 eq_refl) in H1. exact H1.
Defined.

(** X15, an instance: a call site of [counter] that rendered with
    [x => x] is given [() => 5]; the render still returns the value of the
    store, and the next render of the call site returns 5. *)
Lemma part002_selector_takes_effect_one_render_late_witness :
  let c := Part002.RenderedPlain 0 in
  let r := Part002.useGlobalSelector "counter" 3 None c counter_store in
  Part002.selectorRef (Part002.memory c) = Some 0
  /\ r.2 = (Part002.useGlobalSelector "counter" 0 None c counter_store).2
  /\ r.2 = Part002.Rendered (Return (num 0))
  /\ Part002.selectorRef (Part002.memory r.1.2) = Some 3
  /\ (Part002.useGlobalSelector "counter" 3 None r.1.2 r.1.1).2
     = Part002.Rendered (Return (num 5)).
Proof.
  intros c r.
  pose proof (part002_selector_takes_effect_one_render_late "counter" 0 3 None c
                counter_store eq_refl) as (H1 & _ & H3 & _).
  assert (r.2 = Part002.Rendered (Return (num 0))) as Hr by (vm_compute; reflexivity).
  split; [reflexivity|]. split; [exact H1|]. split; [exact Hr|].
  split; [exact (proj1 (H3 (num 0) Hr))|]. vm_compute; reflexivity.
Defined.

(** X21, an instance: a call site that selected John from [user] with
    [x => x] renders again once the store holds 5; the converse at a call
    site of [counter] once the store holds John. *)
Lemma useShallow_branch_change_stops_render_witness :
  let w := setValue 0 (JSFunction 3) user_store in
  let c := Part002.RenderedShallow 0 (JSObject 1) in
  (globalStates w !! "user" = Some 0
   /\ getGlobalState "user" w = num 5
   /\ Part002.shouldUseShallow (heap w) (num 5) = false
   /\ (Part002.useGlobalSelector "user" 0 None c w).2 = Part002.HooksChanged
   /\ (Part002.useGlobalSelector "user" 0 None c w).1.2 = c)
  /\ (globalStates count_store !! "count" = Some 0
      /\ getGlobalState "count" count_store = JSObject 1
      /\ (Part002.useGlobalSelector "count" 0 None (Part002.RenderedPlain 0)
            count_store).2 = Part002.HooksChanged).
Proof.
  intros w c.
  pose proof (useShallow_branch_change_stops_render "user" 0 None c w 0 eq_refl)
    as (H1 & H2 & _).
  pose proof (useShallow_branch_change_stops_render "count" 0 None
                (Part002.RenderedPlain 0) count_store 0 eq_refl) as (H1' & _).
  split.
  - split; [reflexivity|]. split; [reflexivity|]. split; [reflexivity|].
    assert ((Part002.useGlobalSelector "user" 0 None c w).2 = Part002.HooksChanged)
      as Hstop.
    { apply (proj2 H1). right. split; [by exists 0, (JSObject 1) | reflexivity]. }
    split; [exact Hstop | exact (proj1 (H2 Hstop))].
  - split; [reflexivity|]. split; [reflexivity|].
    apply (proj2 H1'). left. split; [by exists 0 | reflexivity].
Defined.


(** X17, an instance: a functional update of [counter] in the latest
    revision. *)
Lemma pack_write_is_index_write_and_mirror_witness :
  let r := Pack.run pack_two_keys pack_development in
  let st := {| value := num 5; initialState := num 0; isObject := false;
               persistence := None; listeners := []; subscriptions := 0 |} in
  stores (Pack.world r) !! 0 = Some st
  /\ Pack.closure_key r !! 0 = Some "counter"
  /\ Pack.world (Pack.setValue 0 (JSFunction 1) r) = setValue 0 (JSFunction 1) (Pack.world r)
  /\ Pack.world (Pack.reset 0 r) = reset 0 (Pack.world r)
  /\ (Pack.devToolsStore (Pack.setValue 0 (JSFunction 1) r)
        ≫= (fun view => view !! "counter")) = Some (num 6).
Proof.
  intros r st.
  assert (stores (Pack.world r) !! 0 = Some st) as Hs by (vm_compute; reflexivity).
  assert (Pack.closure_key r !! 0 = Some "counter") as Hc by (vm_compute; reflexivity).
  pose proof (pack_write_is_index_write_and_mirror 0 (JSFunction 1) r st "counter" Hs Hc)
    as (H1 & H2 & _).
  split; [exact Hs|]. split; [exact Hc|]. split; [exact H1|]. split; [exact H2|].
  vm_compute; reflexivity.
Defined.

(** X18, an instance: [counter] and [user] after their writes. *)
Lemma devtools_view_mirrors_registry_witness :
  let r := Pack.run pack_two_keys pack_development in
  "development" <> "production"
  /\ Forall (fun a => Pack.plain a = true) pack_two_keys
  /\ globalStates (Pack.world r) !! "user" = Some 1
  /\ (exists view, Pack.devToolsStore r = Some view
                   /\ view !! "user" = Some (Pack.getGlobalState "user" r))
  /\ Pack.getGlobalState "user" r = JSObject 6.
Proof.
  intros r.
  assert ("development" <> "production") as He by discriminate.
  assert (Forall (fun a => Pack.plain a = true) pack_two_keys) as Ha
    by (repeat constructor).
  assert (globalStates (Pack.world r) !! "user" = Some 1) as Hk
    by (vm_compute; reflexivity).
  pose proof (devtools_view_mirrors_registry "development" scenario_heap tt tt
                pack_two_keys He Ha) as (H1 & _).
  split; [exact He|]. split; [exact Ha|]. split; [exact Hk|].
  split; [exact (H1 "user" 1 Hk)|]. vm_compute; reflexivity.
Defined.

(** X19, an instance: the same history in production. *)
Lemma devtools_store_never_created_when_disabled_witness :
  Pack.enableDevtools pack_production = false
  /\ Pack.devToolsStore pack_production = None
  /\ Forall (fun a => Pack.keeps_disabled a = true) pack_two_keys
  /\ Pack.enableDevtools (Pack.run pack_two_keys pack_production) = false
  /\ Pack.devToolsStore (Pack.run pack_two_keys pack_production) = None.
Proof.
  assert (Forall (fun a => Pack.keeps_disabled a = true) pack_two_keys) as Ha
    by (repeat constructor).
  split; [reflexivity|]. split; [reflexivity|]. split; [exact Ha|].
  exact (devtools_store_never_created_when_disabled pack_two_keys pack_production
           eq_refl eq_refl Ha).
Defined.

(** X20, an instance: the flag switched on in production after [counter]
    and [user] were created; [extra] is the first key of the view. *)
Lemma devtools_view_starts_at_a_creation_witness :
  let r := Pack.configureDevtools true (Pack.run pack_two_keys pack_production) in
  Pack.devToolsStore r = None
  /\ globalStates (Pack.world r) !! "extra" = None
  /\ Pack.enableDevtools r = true
  /\ Pack.devToolsStore (Pack.setValue 0 (num 8) r) = None
  /\ Pack.devToolsStore (Pack.useGlobalState "extra" (num 1) None r).1
     = Some {[ "extra" := num 1 ]}.
Proof.
  intros r.
  assert (Pack.devToolsStore r = None) as Hn by (vm_compute; reflexivity).
  assert (globalStates (Pack.world r) !! "extra" = None) as Hk
    by (vm_compute; reflexivity).
  pose proof (devtools_view_starts_at_a_creation "extra" (num 1) (num 8) None 0 r Hn)
    as (H1 & _ & _ & H4).
  split; [exact Hn|]. split; [exact Hk|]. split; [reflexivity|].
  split; [exact H1|]. exact (H4 Hk eq_refl).
Defined.

End MoreScenarios.

Section PersistingScenarios.
#[local] Existing Instance persisting_host.

(** X5, an instance: [n] is persisted in [localStorage] and holds 5.
    After the clear it is created again with 7: without the [storage]
    option it starts from 7; with it, from the 5 that the medium kept. *)
Lemma clearAllStates_forgets_every_key_witness :
  let w' := __clearAllStates__ persisted_five in
  getGlobalState "n" persisted_five = num 5
  /\ getGlobalState "n" w' = JSUndefined
  /\ localStorage_medium w' !! "global-state-n" = Some (num 5)
  /\ default none (None ≫= storage) = none
  /\ (useGlobalState "n" (num 7) None w').2.1 = num 7
  /\ default none (in_localStorage ≫= storage) <> none
  /\ (useGlobalState "n" (num 7) in_localStorage w').2.1 = num 5
  /\ (exists st,
        stores (useGlobalState "n" (num 7) in_localStorage w').1
          !! (useGlobalState "n" (num 7) in_localStorage w').2.2 = Some st
        /\ initialState st = num 7).
Proof.
  intros w'.
  pose proof (clearAllStates_forgets_every_key "n" (num 7) None persisted_five)
    as (_ & H2 & _ & _ & _ & _ & _ & _ & _ & _ & Hnone & _).
  pose proof (clearAllStates_forgets_every_key "n" (num 7) in_localStorage persisted_five)
    as (_ & _ & _ & _ & _ & _ & _ & _ & _ & (st & Hs & Hi & _) & _ & Hsome).
  assert (default none (in_localStorage ≫= storage) <> none) as Hm by discriminate.
  split; [reflexivity|]. split; [reflexivity|]. split; [reflexivity|].
  split; [reflexivity|]. split; [exact (proj1 (Hnone eq_refl))|].
  split; [exact Hm|].
  split; [exact (eq_trans (Hsome Hm) eq_refl)|].
  exists st. split; [exact Hs | exact Hi].
Defined.

(** X6, an instance: the setter of the persisted [n] made before the
    clear.  The key is created again with the same options and starts from
    the 5 that the medium kept; the old setter, called with 9, changes the
    old store, leaves the new store and the value read through the key as
    they are, and writes 9 in the entry that both stores share, so that
    the key starts from 9 when it is next created. *)
Lemma setter_from_before_clear_is_detached_witness :
  let w := persisted_five in
  let st := {| value := num 5; initialState := num 0; isObject := false;
               persistence := Some ("global-state-n", localStorage);
               listeners := []; subscriptions := 0 |} in
  let r := useGlobalState "n" (num 7) in_localStorage (__clearAllStates__ w) in
  let w' := setValue 0 (num 9) r.1 in
  globalStates w !! "n" = Some 0
  /\ stores w !! 0 = Some st
  /\ r.2.2 <> 0
  /\ stores w' !! r.2.2 = stores r.1 !! r.2.2
  /\ getGlobalState "n" w' = getGlobalState "n" r.1
  /\ getGlobalState "n" r.1 = num 5
  /\ store_value 0 w' = num 9
  /\ localStorage_medium w' = <[ "global-state-n" := num 9 ]> (localStorage_medium r.1)
  /\ sessionStorage_medium w' = sessionStorage_medium r.1
  /\ default none (in_localStorage ≫= storage) <> none
  /\ (exists st', stores r.1 !! r.2.2 = Some st'
                  /\ persistence st' = Some ("global-state-n", localStorage))
  /\ (useGlobalState "n" (num 7) in_localStorage (__clearAllStates__ w')).2.1 = num 9.
Proof.
  intros w st r w'.
  assert (globalStates w !! "n" = Some 0) as Hk by (vm_compute; reflexivity).
  assert (stores w !! 0 = Some st) as Hs by (vm_compute; reflexivity).
  assert (default none (in_localStorage ≫= storage) <> none) as Hm by discriminate.
  pose proof (setter_from_before_clear_is_detached "n" (num 7) (num 9) in_localStorage
                w 0 st Hk Hs)
    as (Hne & Hst & _ & _ & Hget & _ & _ & Hw & _ & Ho & _ & Hshared).
  split; [exact Hk|]. split; [exact Hs|]. split; [exact Hne|].
  split; [exact (proj1 (Hst r.2.2 Hne))|]. split; [exact Hget|].
  split; [vm_compute; reflexivity|]. split; [vm_compute; reflexivity|].
  split; [exact (eq_trans Hw eq_refl)|]. split; [exact Ho|]. split; [exact Hm|].
  split; [exact (Hshared Hm eq_refl)|]. vm_compute; reflexivity.
Defined.

End PersistingScenarios.

